(** * Travel planner API: activity ranking, city-id codec and city search

    A shallow embedding of the activity-suitability scoring engine
    ([ActivityRankingService], utils/activityRanking.ts with the profile
    table of utils/constants.ts), of the rich city identifier codec
    ([parseCityId], [isValidCoordinate] and the id template of
    [searchCities]) and of the geocoding adapter ([searchCities],
    services/openMeteoAPI.ts) of the travel planner API, with the properties
    that its specification states about them.

    Conventions of the embedding:
    - JavaScript numbers are IEEE 754 binary64 values.  They are modelled by
      the Standard Library's executable specification of binary floating
      point ([spec_float] at precision 53 and maximal exponent 1024), so that
      NaN, the infinities, the signed zeros and every rounding are those of
      the language.  The numbers that occur at run time are the canonical
      values of [spec_float]; the properties are proved for all its values.
    - The library functions that the code calls ([Math.round], [Math.min],
      [Math.max], [parseFloat], the string of a number, [split], [trim],
      [includes], [join], [sort], [slice]) are modelled after the language
      specification.
    - A function that may throw returns a [result]; [searchCities], which
      calls the geocoding service, takes the service as a function and
      returns the requests it sent along with its outcome. *)

From Stdlib Require Import ZArith List Bool Ascii String Lia.
From Stdlib Require Import Sorting.Sorted Sorting.Permutation.
From Stdlib Require Import Floats.SpecFloat.
Import ListNotations.

Set Implicit Arguments.

Local Open Scope string_scope.
Local Open Scope Z_scope.

(** ** Strings

    A string is a sequence of code units; the characters of [String.string]
    stand for the code units 0 to 255. *)

Module Str.

(** [s.includes(t)] *)
Fixpoint includes (s t : string) : bool :=
  prefix t s ||
  match s with
  | EmptyString => false
  | String _ s' => includes s' t
  end.

(** [parts.join(sep)] *)
Definition join (sep : string) (parts : list string) : string :=
  String.concat sep parts.

(** [s.split(c)] for a one-character separator [c]: the pieces between the
    occurrences of [c], always at least one piece. *)
Fixpoint split (c : ascii) (s : string) : list string :=
  match s with
  | EmptyString => [EmptyString]
  | String a s' =>
    if Ascii.eqb a c then EmptyString :: split c s'
    else
      match split c s' with
      | p :: ps => String a p :: ps
      | [] => [String a EmptyString]
      end
  end.

(** White space and line terminators, as [trim] and [parseFloat] skip them. *)
Definition isWhiteSpace (a : ascii) : bool :=
  let n := nat_of_ascii a in
  (Nat.leb 9 n && Nat.leb n 13) || Nat.eqb n 32 || Nat.eqb n 160.

Fixpoint trimStart (s : string) : string :=
  match s with
  | EmptyString => EmptyString
  | String a s' => if isWhiteSpace a then trimStart s' else s
  end.

Fixpoint trimEnd (s : string) : string :=
  match s with
  | EmptyString => EmptyString
  | String a s' =>
    match trimEnd s' with
    | EmptyString => if isWhiteSpace a then EmptyString else String a EmptyString
    | t => String a t
    end
  end.

(** [s.trim()] *)
Definition trim (s : string) : string := trimEnd (trimStart s).

(** The first [n] characters of a string and what follows them. *)
Fixpoint take (n : nat) (s : string) : string :=
  match n, s with
  | S n', String a s' => String a (take n' s')
  | _, _ => EmptyString
  end.

Fixpoint skip (n : nat) (s : string) : string :=
  match n, s with
  | S n', String _ s' => skip n' s'
  | _, _ => s
  end.

(** [n] times the character [a]. *)
Fixpoint replicate (n : nat) (a : ascii) : string :=
  match n with
  | O => EmptyString
  | S n' => String a (replicate n' a)
  end.

(** The characters of a string, and whether none of them is [c]. *)
Definition chars (s : string) : list ascii := list_ascii_of_string s.

Definition lacks (c : ascii) (s : string) : bool :=
  negb (existsb (Ascii.eqb c) (chars s)).

End Str.

(** ** JavaScript numbers *)

Module Num.

Definition number : Type := spec_float.

Definition prec : Z := 53.
Definition emax : Z := 1024.

Definition NaN : number := S754_nan.
Definition Infinity : number := S754_infinity false.

(** The number nearest to the integer [n] (ties to even). *)
Definition ofZ (n : Z) : number := binary_normalize prec emax n 0 false.

(** The number nearest to [m * 10^k] (ties to even): the value of the decimal
    literal with digits [m] and decimal exponent [k]. *)
Definition ofDec (m k : Z) : number :=
  match m with
  | Z0 => S754_zero false
  | _ =>
    if 0 <=? k then binary_normalize prec emax (m * 10 ^ k) 0 false
    else
      let '(q, e, l) :=
        SFdiv_core_binary prec emax (Z.abs m) 0 (10 ^ (- k)) 0 in
      binary_round_aux prec emax (m <? 0) q e l
  end.

Definition add : number -> number -> number := SFadd prec emax.
Definition sub : number -> number -> number := SFsub prec emax.
Definition mul : number -> number -> number := SFmul prec emax.
Definition div : number -> number -> number := SFdiv prec emax.

(** [a < b], [a <= b], [a > b], [a >= b]: false as soon as an operand is NaN. *)
Definition lt (a b : number) : bool := SFltb a b.
Definition le (a b : number) : bool := SFleb a b.
Definition gt (a b : number) : bool := SFltb b a.
Definition ge (a b : number) : bool := SFleb b a.

Definition isNaN (a : number) : bool :=
  match a with S754_nan => true | _ => false end.

Definition isFinite (a : number) : bool :=
  match a with S754_zero _ | S754_finite _ _ _ => true | _ => false end.

(** Structural equality of numbers: [+0] and [-0] differ, NaN equals NaN. *)
Definition same (a b : number) : bool :=
  match a, b with
  | S754_zero s, S754_zero s' => Bool.eqb s s'
  | S754_infinity s, S754_infinity s' => Bool.eqb s s'
  | S754_nan, S754_nan => true
  | S754_finite s m e, S754_finite s' m' e' =>
    Bool.eqb s s' && Pos.eqb m m' && Z.eqb e e'
  | _, _ => false
  end.

(** [Math.min] and [Math.max] on two arguments: NaN if either is NaN, and
    [-0] counts as smaller than [+0]. *)
Definition Math_min (a b : number) : number :=
  match SFcompare a b with
  | None => NaN
  | Some Lt => a
  | Some Gt => b
  | Some Eq => match a with S754_zero true => a | _ => b end
  end.

Definition Math_max (a b : number) : number :=
  match SFcompare a b with
  | None => NaN
  | Some Gt => a
  | Some Lt => b
  | Some Eq => match a with S754_zero false => a | _ => b end
  end.

(** The integer [floor (v + 1/2)] for the finite value [v = (-1)^s * m * 2^e]. *)
Definition round_half_up (s : bool) (m : positive) (e : Z) : Z :=
  if 0 <=? e then cond_Zopp s (Zpos m * 2 ^ e)
  else (2 * cond_Zopp s (Zpos m) + 2 ^ (- e)) / 2 ^ (1 - e).

(** [Math.round]: the integral number closest to the argument, ties going
    towards +Infinity; NaN, the infinities and the zeros are returned as they
    are, and a result of zero keeps the sign of the argument. *)
Definition Math_round (x : number) : number :=
  match x with
  | S754_finite s m e => binary_normalize prec emax (round_half_up s m e) 0 s
  | _ => x
  end.

End Num.

Import Num.

(** ** Arrays: [sort] and [slice] *)

Module Arr.

Section Sort.
Variable A : Type.

(** [compareFn a b], as [sort] reads it: positive when [a] has to come after
    [b]. A NaN comparison counts as zero. *)
Variable compareFn : A -> A -> number.

Definition after (a b : A) : bool := gt (compareFn a b) (ofZ 0).

(** [x] enters an already sorted array in front of it and moves right only
    past the elements it has to come after. *)
Fixpoint insert (x : A) (l : list A) : list A :=
  match l with
  | [] => [x]
  | y :: l' => if after x y then y :: insert x l' else x :: l
  end.

(** [array.sort(compareFn)].  The language requires the sort to be stable;
    for a comparator that is consistent on the array, every stable sort
    returns the same array, the one this insertion sort builds. *)
Fixpoint sort (l : list A) : list A :=
  match l with
  | [] => []
  | x :: l' => insert x (sort l')
  end.

(** [array.slice(0, end)] for an integer [end]: a negative [end] counts from
    the end of the array. *)
Definition slice0 (l : list A) (end_ : Z) : list A :=
  let len := Z.of_nat (List.length l) in
  let final :=
    (if end_ <? 0 then Z.max (len + end_) 0 else Z.min end_ len)%Z in
  firstn (Z.to_nat final) l.
End Sort.

End Arr.

(** ** The activity profile table (utils/constants.ts) *)

Record ActivityConfig : Type := {
  cfg_name : string;
  idealTempMin : number;
  idealTempMax : number;
  rainTolerance : number;
  windPreference : number;
}.

Definition skiing : ActivityConfig :=
  {| cfg_name := "skiing";
     idealTempMin := ofZ (-10);
     idealTempMax := ofZ 2;
     rainTolerance := ofDec 1 (-1);
     windPreference := ofDec 2 (-1) |}.

Definition surfing : ActivityConfig :=
  {| cfg_name := "surfing";
     idealTempMin := ofZ 18;
     idealTempMax := ofZ 28;
     rainTolerance := ofDec 7 (-1);
     windPreference := ofDec 8 (-1) |}.

Definition indoor_sightseeing : ActivityConfig :=
  {| cfg_name := "indoor_sightseeing";
     idealTempMin := ofZ 10;
     idealTempMax := ofZ 30;
     rainTolerance := ofDec 10 (-1);
     windPreference := ofDec 5 (-1) |}.

Definition outdoor_sightseeing : ActivityConfig :=
  {| cfg_name := "outdoor_sightseeing";
     idealTempMin := ofZ 15;
     idealTempMax := ofZ 25;
     rainTolerance := ofDec 1 (-1);
     windPreference := ofDec 3 (-1) |}.

Definition ACTIVITY_CONFIGS : list ActivityConfig :=
  [skiing; surfing; indoor_sightseeing; outdoor_sightseeing].

(** ** The scoring engine (utils/activityRanking.ts) *)

(** A daily forecast without its [activities] field. *)
Record DailyForecast : Type := {
  date : string;
  maxTemp : number;
  minTemp : number;
  conditions : string;
  precipitation : number;
  windSpeed : number;
}.

Record Activity : Type := {
  name : string;
  suitabilityScore : number;
  reasoning : string;
}.

Module ActivityRankingService.

Definition BASE_SCORE := ofZ 50.
Definition IDEAL_TEMP_BONUS := ofZ 30.
Definition COLD_PENALTY_MULTIPLIER := ofZ 5.
Definition WARM_PENALTY_MULTIPLIER := ofZ 5.
Definition MAX_TEMP_PENALTY := ofZ 30.
Definition RAIN_IMPACT_MULTIPLIER := ofZ 20.
Definition HIGH_TOLERANCE_BONUS := ofZ 10.
Definition LOW_TOLERANCE_BONUS := ofZ 10.
Definition HIGH_TOLERANCE_THRESHOLD := ofDec 8 (-1).
Definition LOW_TOLERANCE_THRESHOLD := ofDec 3 (-1).
Definition WIND_IMPACT_MULTIPLIER := ofZ 15.
Definition WIND_OFFSET := ofDec 75 (-1).
Definition HIGH_PREFERENCE_THRESHOLD := ofDec 6 (-1).
Definition LOW_PREFERENCE_THRESHOLD := ofDec 4 (-1).
Definition EXTREME_WEATHER_BONUS := ofZ 15.
Definition COLD_THRESHOLD := ofZ 10.
Definition HOT_THRESHOLD := ofZ 30.
Definition RAIN_THRESHOLD := ofZ 1.
Definition WIND_THRESHOLD := ofZ 20.
Definition MIN_SCORE := ofZ 0.
Definition MAX_SCORE := ofZ 100.

(** The running state of [scoreActivity]: the local [score] and the [reasons]
    pushed so far, in order. *)
Definition tally : Type := (number * list string)%type.

(** [score += d], [score -= d] and [reasons.push(r)]. *)
Definition bump (d : number) (t : tally) : tally := (add (fst t) d, snd t).
Definition drop (d : number) (t : tally) : tally := (sub (fst t) d, snd t).
Definition push (r : string) (t : tally) : tally :=
  (fst t, (snd t ++ [r])%list).

(** The four steps of [scoreActivity], in the order of the source. *)

Definition temperatureTerm (config : ActivityConfig) (avgTemp : number)
    (t : tally) : tally :=
  if ge avgTemp (idealTempMin config) && le avgTemp (idealTempMax config) then
    push "ideal temperature" (bump IDEAL_TEMP_BONUS t)
  else if lt avgTemp (idealTempMin config) then
    let penalty :=
      Math_min MAX_TEMP_PENALTY
        (mul (sub (idealTempMin config) avgTemp) COLD_PENALTY_MULTIPLIER) in
    push "too cold" (drop penalty t)
  else
    let penalty :=
      Math_min MAX_TEMP_PENALTY
        (mul (sub avgTemp (idealTempMax config)) WARM_PENALTY_MULTIPLIER) in
    push "too warm" (drop penalty t).

Definition rainTerm (config : ActivityConfig) (hasRain : bool)
    (t : tally) : tally :=
  if hasRain then
    let rainImpact :=
      mul (sub (ofZ 1) (rainTolerance config)) RAIN_IMPACT_MULTIPLIER in
    let t := drop rainImpact t in
    if gt (rainTolerance config) HIGH_TOLERANCE_THRESHOLD then
      push "rain makes it more appealing" (bump HIGH_TOLERANCE_BONUS t)
    else if lt (rainTolerance config) LOW_TOLERANCE_THRESHOLD then
      push "rain not ideal" t
    else t
  else
    if lt (rainTolerance config) LOW_TOLERANCE_THRESHOLD then
      push "no rain" (bump LOW_TOLERANCE_BONUS t)
    else t.

Definition windTerm (config : ActivityConfig) (isWindy : bool)
    (t : tally) : tally :=
  if isWindy then
    let windImpact :=
      sub (mul (windPreference config) WIND_IMPACT_MULTIPLIER) WIND_OFFSET in
    let t := bump windImpact t in
    if gt (windPreference config) HIGH_PREFERENCE_THRESHOLD then
      push "good wind conditions" t
    else if lt (windPreference config) LOW_PREFERENCE_THRESHOLD then
      push "windy conditions" t
    else t
  else t.

Definition indoorTerm (config : ActivityConfig) (avgTemp : number)
    (t : tally) : tally :=
  if Str.includes (cfg_name config) "indoor" then
    if lt avgTemp COLD_THRESHOLD || gt avgTemp HOT_THRESHOLD then
      push "extreme weather favors indoor activities"
        (bump EXTREME_WEATHER_BONUS t)
    else t
  else t.

(** [reasons.join(', ') || 'standard conditions'] *)
Definition reasoningOf (reasons : list string) : string :=
  match Str.join ", " reasons with
  | EmptyString => "standard conditions"
  | s => s
  end.

(** The [score] and the [reasons] of [scoreActivity] when it reaches its
    [return]. *)
Definition finalTally (config : ActivityConfig) (avgTemp : number)
    (hasRain isWindy : bool) : tally :=
  let t := (BASE_SCORE, []) in
  let t := temperatureTerm config avgTemp t in
  let t := rainTerm config hasRain t in
  let t := windTerm config isWindy t in
  indoorTerm config avgTemp t.

(** [scoreActivity]; the parameters [precipitation] and [windSpeed] are not
    read by the body. *)
Definition scoreActivity (config : ActivityConfig) (avgTemp : number)
    (hasRain isWindy : bool) (precipitation windSpeed : number) : Activity :=
  let t := finalTally config avgTemp hasRain isWindy in
  {| name := cfg_name config;
     suitabilityScore :=
       Math_max MIN_SCORE (Math_min MAX_SCORE (Math_round (fst t)));
     reasoning := reasoningOf (snd t) |}.

(** The comparator handed to [sort]: [(a, b) => b.suitabilityScore -
    a.suitabilityScore]. *)
Definition byScoreDesc (a b : Activity) : number :=
  sub (suitabilityScore b) (suitabilityScore a).

(** The locals of [rankActivitiesForDay]. *)
Definition avgTempOf (forecast : DailyForecast) : number :=
  div (add (maxTemp forecast) (minTemp forecast)) (ofZ 2).

Definition hasRainOf (forecast : DailyForecast) : bool :=
  gt (precipitation forecast) RAIN_THRESHOLD.

Definition isWindyOf (forecast : DailyForecast) : bool :=
  gt (windSpeed forecast) WIND_THRESHOLD.

(** The activity that [rankActivitiesForDay] scores for one profile. *)
Definition scoreFor (forecast : DailyForecast) (config : ActivityConfig)
    : Activity :=
  scoreActivity config (avgTempOf forecast) (hasRainOf forecast)
    (isWindyOf forecast) (precipitation forecast) (windSpeed forecast).

(** [ACTIVITY_CONFIGS.map(...)]: the scored activities in table order. *)
Definition scoredActivities (forecast : DailyForecast) : list Activity :=
  map (scoreFor forecast) ACTIVITY_CONFIGS.

(** The scored activities after [sort]. *)
Definition ranking (forecast : DailyForecast) : list Activity :=
  Arr.sort byScoreDesc (scoredActivities forecast).

(** [rankActivitiesForDay(forecast, top)], for an integer [top]; a caller
    that leaves [top] out gets [top = 1]. *)
Definition rankActivitiesForDay (forecast : DailyForecast) (top : Z)
    : list Activity :=
  Arr.slice0 (ranking forecast) top.

End ActivityRankingService.

(** ** Numbers and strings: [parseFloat] and the string of a number *)

Module NumStr.

Definition isDigit (a : ascii) : bool :=
  let n := nat_of_ascii a in Nat.leb 48 n && Nat.leb n 57.

Definition digitVal (a : ascii) : Z := Z.of_nat (nat_of_ascii a) - 48.

Definition digitChar (d : Z) : ascii := ascii_of_nat (48 + Z.to_nat d).

(** *** [parseFloat] *)

(** The longest run of decimal digits in front of [s]: the integer read
    (continuing from [acc]), the number of digits, and the rest of [s]. *)
Fixpoint readDigits (s : string) (acc cnt : Z) : Z * Z * string :=
  match s with
  | String a s' =>
    if isDigit a then readDigits s' (10 * acc + digitVal a) (cnt + 1)
    else (acc, cnt, s)
  | EmptyString => (acc, cnt, s)
  end.

(** The value of an optional exponent part [e±ddd] in front of [s]; an
    exponent indicator that no digit follows is not part of the number. *)
Definition readExponent (s : string) : Z :=
  match s with
  | String a s' =>
    if Ascii.eqb a "e" || Ascii.eqb a "E" then
      let '(neg, s'') :=
        match s' with
        | String b t =>
          if Ascii.eqb b "-" then (true, t)
          else if Ascii.eqb b "+" then (false, t)
          else (false, s')
        | EmptyString => (false, s')
        end in
      let '(v, cnt, _) := readDigits s'' 0 0 in
      if cnt =? 0 then 0 else if neg then - v else v
    else 0
  | EmptyString => 0
  end.

(** The longest prefix of [s] that is an unsigned decimal literal, as digits
    [m] and a decimal exponent [k] (its value is [m * 10^k]); [None] when no
    prefix is one. *)
Definition readUnsigned (s : string) : option (Z * Z) :=
  let '(i, ci, r1) := readDigits s 0 0 in
  match r1 with
  | String a r2 =>
    if Ascii.eqb a "." then
      let '(m, cf, r3) := readDigits r2 i 0 in
      if (ci =? 0) && (cf =? 0) then None
      else Some (m, readExponent r3 - cf)
    else if ci =? 0 then None else Some (i, readExponent r1)
  | EmptyString => if ci =? 0 then None else Some (i, 0)
  end.

(** [parseFloat(s)]: leading white space is skipped, the longest prefix that
    is a decimal literal is read and rounded to the nearest number; NaN when
    there is no such prefix. *)
Definition parseFloat (s : string) : number :=
  let t := Str.trimStart s in
  let '(neg, u) :=
    match t with
    | String a u =>
      if Ascii.eqb a "-" then (true, u)
      else if Ascii.eqb a "+" then (false, u)
      else (false, t)
    | EmptyString => (false, t)
    end in
  if prefix "Infinity" u then S754_infinity neg
  else
    match readUnsigned u with
    | None => NaN
    | Some (m, k) => if neg then SFopp (ofDec m k) else ofDec m k
    end.

(** *** The string of a number, as a template literal inserts it *)

Fixpoint decimalFuel (fuel : nat) (n : Z) (acc : string) : string :=
  match fuel with
  | O => acc
  | S fuel' =>
    let acc' := String (digitChar (n mod 10)) acc in
    if n <? 10 then acc' else decimalFuel fuel' (n / 10) acc'
  end.

(** The decimal digits of a natural number [n]. *)
Definition decimal (n : Z) : string :=
  decimalFuel (S (Z.to_nat (Z.log2 n))) n EmptyString.

(** For a positive rational [vn / vd] below one, the least [j >= 1] with
    [10^(-j) <= vn / vd], searched from [j]. *)
Fixpoint leadingZeros (fuel : nat) (vn vd j : Z) : Z :=
  match fuel with
  | O => j
  | S fuel' =>
    if vd <=? vn * 10 ^ j then j else leadingZeros fuel' vn vd (j + 1)
  end.

(** The decimal position [n] of the positive rational [vn / vd]:
    [10^(n-1) <= vn / vd < 10^n]. *)
Definition position (vn vd : Z) : Z :=
  if vd <=? vn then Z.of_nat (String.length (decimal (vn / vd)))
  else 1 - leadingZeros 400 vn vd 1.

(** [vn / vd] counted in units of [10^(n-k)], as a fraction: its integral
    part is the first [k] digits of a number at position [n]. *)
Definition scaled (vn vd n k : Z) : Z * Z :=
  if 0 <=? n - k then (vn, vd * 10 ^ (n - k)) else (vn * 10 ^ (k - n), vd).

(** [s] has [k] digits and [s * 10^(n-k)] reads back as [x]. *)
Definition readsBack (x : number) (k s n : Z) : bool :=
  (10 ^ (k - 1) <=? s) && (s <? 10 ^ k) && same (ofDec s (n - k)) x.

(** The [k]-digit decimals next to [vn / vd] (whose position is [n]) that
    read back as [x]: [Some (s, n')] for the one closest to [vn / vd] (the
    even one on a tie), standing for [s * 10^(n'-k)]. *)
Definition shortestAt (x : number) (vn vd n k : Z) : option (Z * Z) :=
  let '(N, D) := scaled vn vd n k in
  let lo := N / D in
  let r := N mod D in
  let hi := if lo + 1 =? 10 ^ k then (10 ^ (k - 1), n + 1) else (lo + 1, n) in
  let okLo := readsBack x k lo n in
  let okHi := readsBack x k (fst hi) (snd hi) in
  if okLo && okHi then
    if (2 * r <? D) || ((2 * r =? D) && Z.even lo) then Some (lo, n)
    else Some hi
  else if okLo then Some (lo, n)
  else if okHi then Some hi
  else None.

(** The least number of digits [k], from [k] on, at which a decimal reads
    back as [x], with its digits and position.  Seventeen digits are enough
    for the canonical numbers; when the search gives up, the first [k] digits
    are returned. *)
Fixpoint shortest (fuel : nat) (x : number) (vn vd n k : Z) : Z * Z * Z :=
  match fuel with
  | O => (k, fst (scaled vn vd n k) / snd (scaled vn vd n k), n)
  | S fuel' =>
    match shortestAt x vn vd n k with
    | Some (s, n') => (k, s, n')
    | None => shortest fuel' x vn vd n (k + 1)
    end
  end.

(** The layout of the digits [s] ([k] of them) at position [n]. *)
Definition layout (k s n : Z) : string :=
  let ds := decimal s in
  if (k <=? n) && (n <=? 21) then
    ds ++ Str.replicate (Z.to_nat (n - k)) "0"
  else if (0 <? n) && (n <=? 21) then
    Str.take (Z.to_nat n) ds ++ "." ++ Str.skip (Z.to_nat n) ds
  else if (-6 <? n) && (n <=? 0) then
    "0." ++ Str.replicate (Z.to_nat (- n)) "0" ++ ds
  else
    let e := n - 1 in
    let es := (if e <? 0 then "-" else "+") ++ decimal (Z.abs e) in
    if k =? 1 then ds ++ "e" ++ es
    else Str.take 1 ds ++ "." ++ Str.skip 1 ds ++ "e" ++ es.

(** The string of the positive finite number [m * 2^e]. *)
Definition positiveToString (m : positive) (e : Z) : string :=
  let x := S754_finite false m e in
  let '(vn, vd) :=
    if 0 <=? e then (Zpos m * 2 ^ e, 1) else (Zpos m, 2 ^ (- e)) in
  let '(k, s, n) := shortest 21 x vn vd (position vn vd) 1 in
  layout k s n.

(** The string of a number. *)
Definition toString (x : number) : string :=
  match x with
  | S754_nan => "NaN"
  | S754_zero _ => "0"
  | S754_infinity s => if s then "-Infinity" else "Infinity"
  | S754_finite s m e =>
    if s then "-" ++ positiveToString m e else positiveToString m e
  end.

End NumStr.

(** ** Results and errors *)

(** The outcome of a call that returns a value or throws. *)
Inductive result (E A : Type) : Type :=
| Ok (a : A)
| Throw (e : E).

Arguments Ok {E A} a.
Arguments Throw {E A} e.

(** The error codes of utils/constants.ts. *)
Module ERROR_CODES.
Module API_ERROR.
Definition RATE_LIMIT_EXCEEDED : string := "RATE_LIMIT_EXCEEDED".
Definition TIMEOUT : string := "TIMEOUT".
Definition UNKNOWN_ERROR : string := "UNKNOWN_ERROR".
End API_ERROR.
Module INTERNAL_ERROR.
Definition INTERNAL_SERVER_ERROR : string := "INTERNAL_SERVER_ERROR".
End INTERNAL_ERROR.
Module USER_ERROR.
Definition INVALID_COORDINATES : string := "INVALID_COORDINATES".
Definition BAD_USER_INPUT : string := "BAD_USER_INPUT".
End USER_ERROR.
End ERROR_CODES.

(** What a rejected [axios.get] throws: an axios error with its optional
    [code], the status and status text of its optional [response] and its
    message, or any other value. *)
Record AxiosError : Type := {
  ax_code : option string;
  ax_status : option Z;
  ax_statusText : option string;
  ax_message : string;
}.

Inductive thrown : Type :=
| IsAxiosError (e : AxiosError)
| OtherError.

Record OpenMeteoAPIError : Type := {
  message : string;
  code : option string;
  cause : option thrown;
}.

Definition newError (msg code : string) : OpenMeteoAPIError :=
  {| message := msg; code := Some code; cause := None |}.

Definition newErrorCaused (msg code : string) (c : thrown)
    : OpenMeteoAPIError :=
  {| message := msg; code := Some code; cause := Some c |}.

(** ** The OpenMeteo adapter (services/openMeteoAPI.ts) *)

Record City : Type := {
  id : string;
  city_name : string;
  country : string;
  latitude : number;
  longitude : number;
}.

(** The fields of a geocoding result that the adapter reads. *)
Record GeocodingResult : Type := {
  gr_name : string;
  gr_latitude : number;
  gr_longitude : number;
  gr_feature_code : string;
  gr_country : string;
}.

Record GeocodingResponse : Type := {
  results : option (list GeocodingResult);
  generationtime_ms : number;
}.

(** A GET request of the geocoding collaborator. *)
Record GeocodingRequest : Type := {
  rq_url : string;
  rq_name : string;
  rq_count : Z;
  rq_language : string;
  rq_format : string;
  rq_timeout : Z;
}.

Inductive response (A : Type) : Type :=
| Resolved (data : A)
| Rejected (error : thrown).

Arguments Resolved {A} data.
Arguments Rejected {A} error.

(** What [parseCityId] returns. *)
Record CityIdFields : Type := {
  p_latitude : number;
  p_longitude : number;
  p_name : string;
  p_country : string;
}.

(** [array.map((x, index) => f x index)] *)
Fixpoint mapIndexed (A B : Type) (f : A -> nat -> B) (index : nat)
    (l : list A) : list B :=
  match l with
  | [] => []
  | x :: l' => f x index :: mapIndexed f (S index) l'
  end.

(** The weather codes of utils/constants.ts.  The keys of the object are the
    decimal strings of these integers. *)
Definition WEATHER_CODES : list (Z * string) := [
  (0, "Clear sky"); (1, "Mainly clear"); (2, "Partly cloudy");
  (3, "Overcast"); (45, "Fog"); (48, "Depositing rime fog");
  (51, "Light drizzle"); (53, "Moderate drizzle"); (55, "Dense drizzle");
  (56, "Light freezing drizzle"); (57, "Dense freezing drizzle");
  (61, "Slight rain"); (63, "Moderate rain"); (65, "Heavy rain");
  (66, "Light freezing rain"); (67, "Heavy freezing rain");
  (71, "Slight snow fall"); (73, "Moderate snow fall");
  (75, "Heavy snow fall"); (77, "Snow grains");
  (80, "Slight rain showers"); (81, "Moderate rain showers");
  (82, "Violent rain showers"); (85, "Slight snow showers");
  (86, "Heavy snow showers"); (95, "Thunderstorm");
  (96, "Thunderstorm with slight hail"); (99, "Thunderstorm with heavy hail")
].

(** The fields of the forecast response that the adapter reads. *)
Record CurrentWeather : Type := {
  temperature_2m : number;
  relative_humidity_2m : number;
  cw_precipitation : number;
  cw_weather_code : number;
  wind_speed_10m : number;
}.

(** The daily series: parallel arrays, one entry per day. *)
Record DailyWeather : Type := {
  time : list string;
  dw_weather_code : list number;
  temperature_2m_max : list number;
  temperature_2m_min : list number;
  precipitation_sum : list number;
  wind_speed_10m_max : list number;
}.

Record WeatherResponse : Type := {
  current : CurrentWeather;
  daily : DailyWeather;
}.

(** A GET request of the forecast collaborator. *)
Record WeatherRequest : Type := {
  wq_url : string;
  wq_latitude : number;
  wq_longitude : number;
  wq_current : string;
  wq_daily : string;
  wq_timezone : string;
  wq_forecast_days : Z;
  wq_timeout : Z;
}.

(** A day of the forecast with its activities.  An entry read beyond the end
    of an array of the response is [undefined]: [None]. *)
Record ForecastDay : Type := {
  fd_date : string;
  fd_maxTemp : option number;
  fd_minTemp : option number;
  fd_conditions : string;
  fd_precipitation : option number;
  fd_windSpeed : option number;
  fd_activities : list Activity;
}.

Record Weather : Type := {
  w_temperature : number;
  w_conditions : string;
  w_humidity : number;
  w_windSpeed : number;
  w_precipitation : number;
  w_forecast : list ForecastDay;
}.

(** What [getWeatherByCityId] returns: the weather and the city without its
    id. *)
Record CityWeatherInfo : Type := {
  cw_weather : Weather;
  ci_name : string;
  ci_country : string;
  ci_latitude : number;
  ci_longitude : number;
}.

Module OpenMeteoAPI.
Import ERROR_CODES.

Definition GEOCODING_BASE_URL : string :=
  "https://geocoding-api.open-meteo.com/v1".
Definition REQUEST_TIMEOUT_MS : Z := 10000.
Definition MAX_RESULTS : Z := 10.

(** The double quote, which the messages below contain. *)
Definition dq : string := String (ascii_of_nat 34) EmptyString.

(** The messages of the three errors of [parseCityId]. *)
Definition ID_FORMAT_MESSAGE : string :=
  "Invalid city ID format. Expected format: "
    ++ dq ++ "lat,lon:name:country" ++ dq.

Definition COORDS_FORMAT_MESSAGE : string :=
  "Invalid coordinates in city ID. Expected format: "
    ++ dq ++ "lat,lon" ++ dq.

Definition COORDS_RANGE_MESSAGE : string :=
  "Invalid coordinates in city ID. Expected valid coordinates in the format: "
    ++ dq ++ "lat,lon" ++ dq.

(** [isValidCoordinate] *)
Definition isValidCoordinate (latitude longitude : number) : bool :=
  negb (isNaN latitude) && negb (isNaN longitude)
  && ge latitude (ofZ (-90)) && le latitude (ofZ 90)
  && ge longitude (ofZ (-180)) && le longitude (ofZ 180).

(** [!s] for an optional string: undefined and the empty string are falsy. *)
Definition falsy (s : option string) : bool :=
  match s with
  | None => true
  | Some EmptyString => true
  | Some _ => false
  end.

Definition orEmpty (s : option string) : string :=
  match s with Some t => t | None => EmptyString end.

(** [parseCityId] *)
Definition parseCityId (cityId : string)
    : result OpenMeteoAPIError CityIdFields :=
  let parts := Str.split ":" cityId in
  match parts with
  | [coords; name; country] =>
    let cs := Str.split "," coords in
    let latStr := nth_error cs 0 in
    let lonStr := nth_error cs 1 in
    if falsy latStr || falsy lonStr then
      Throw (newError COORDS_FORMAT_MESSAGE USER_ERROR.INVALID_COORDINATES)
    else
      let latitude := NumStr.parseFloat (orEmpty latStr) in
      let longitude := NumStr.parseFloat (orEmpty lonStr) in
      if negb (isValidCoordinate latitude longitude) then
        Throw (newError COORDS_RANGE_MESSAGE USER_ERROR.INVALID_COORDINATES)
      else
        Ok {| p_latitude := latitude; p_longitude := longitude;
              p_name := name; p_country := country |}
  | _ =>
    Throw (newError ID_FORMAT_MESSAGE USER_ERROR.INVALID_COORDINATES)
  end.

(** The feature codes of populated places that [searchCities] keeps. *)
Definition isPopulatedPlace (r : GeocodingResult) : bool :=
  let fc := gr_feature_code r in
  String.eqb fc "PPLA" || String.eqb fc "PPLA2" || String.eqb fc "PPLA3"
  || String.eqb fc "PPLA4" || String.eqb fc "PPLC" || String.eqb fc "PPL"
  || String.eqb fc "PPLF" || String.eqb fc "PPLG" || String.eqb fc "PPLL"
  || String.eqb fc "PPLR" || String.eqb fc "PPLS" || String.eqb fc "PPLW".

(** The city built from one geocoding result, with its id
    [`${latitude},${longitude}:${name}:${country}`]. *)
Definition toCity (r : GeocodingResult) : City :=
  {| id := NumStr.toString (gr_latitude r) ++ ","
           ++ NumStr.toString (gr_longitude r) ++ ":"
           ++ gr_name r ++ ":" ++ gr_country r;
     city_name := gr_name r;
     country := gr_country r;
     latitude := gr_latitude r;
     longitude := gr_longitude r |}.

(** The [catch] clause of [searchCities]. *)
Definition searchFailure (error : thrown) : OpenMeteoAPIError :=
  match error with
  | IsAxiosError e =>
    match ax_code e with
    | Some "ECONNABORTED" =>
      newError "Request timeout while searching cities" API_ERROR.TIMEOUT
    | _ =>
      match ax_status e with
      | Some 429 =>
        newError "Rate limit exceeded. Please try again later."
          API_ERROR.RATE_LIMIT_EXCEEDED
      | _ =>
        newErrorCaused
          ("Failed to search cities: "
             ++ (if falsy (ax_statusText e) then ax_message e
                 else orEmpty (ax_statusText e)))
          API_ERROR.UNKNOWN_ERROR error
      end
    end
  | OtherError =>
    newErrorCaused "Unknown error occurred while searching cities"
      API_ERROR.UNKNOWN_ERROR error
  end.

(** [searchCities].  [axios_get] is the geocoding collaborator: what a GET
    request resolves to or is rejected with.  The outcome comes with the
    requests that were sent, in order. *)
Definition searchCities
    (axios_get : GeocodingRequest -> response GeocodingResponse)
    (query : string)
    : list GeocodingRequest * result OpenMeteoAPIError (list City) :=
  if String.eqb query EmptyString
     || (Z.of_nat (String.length (Str.trim query)) <? 2) then
    ([], Throw (newError "Query must be at least 2 characters long"
                  USER_ERROR.BAD_USER_INPUT))
  else
    let request :=
      {| rq_url := GEOCODING_BASE_URL ++ "/search";
         rq_name := Str.trim query;
         rq_count := MAX_RESULTS;
         rq_language := "en";
         rq_format := "json";
         rq_timeout := REQUEST_TIMEOUT_MS |} in
    match axios_get request with
    | Resolved data =>
      match results data with
      | None => ([request], Ok [])
      | Some rs => ([request], Ok (map toCity (filter isPopulatedPlace rs)))
      end
    | Rejected error => ([request], Throw (searchFailure error))
    end.

Definition WEATHER_BASE_URL : string := "https://api.open-meteo.com/v1".

(** The property key and the text of a number that may be [undefined]. *)
Definition keyOf (code : option number) : string :=
  match code with
  | Some x => NumStr.toString x
  | None => "undefined"
  end.

(** [WEATHER_CODES[code]] *)
Definition weatherCodeLabel (code : option number) : option string :=
  match
    find (fun entry => String.eqb (NumStr.decimal (fst entry)) (keyOf code))
      WEATHER_CODES
  with
  | Some entry => Some (snd entry)
  | None => None
  end.

(** [getWeatherCondition] *)
Definition getWeatherCondition (code : option number) : string :=
  let label := weatherCodeLabel code in
  if falsy label then "Unknown condition (" ++ keyOf code ++ ")"
  else orEmpty label.

(** The value of a number that may be [undefined] in arithmetic and in
    comparisons: [undefined] counts as NaN. *)
Definition orNaN (x : option number) : number :=
  match x with Some v => v | None => NaN end.

(** The object [forecastDay] that [getWeatherData] builds for the day at
    [index], before its activities are attached. *)
Definition forecastDayAt (daily : DailyWeather) (date : string) (index : nat)
    : ForecastDay :=
  {| fd_date := date;
     fd_maxTemp := nth_error (temperature_2m_max daily) index;
     fd_minTemp := nth_error (temperature_2m_min daily) index;
     fd_conditions :=
       getWeatherCondition (nth_error (dw_weather_code daily) index);
     fd_precipitation := nth_error (precipitation_sum daily) index;
     fd_windSpeed := nth_error (wind_speed_10m_max daily) index;
     fd_activities := [] |}.

(** [forecastDay] as [rankActivitiesForDay] reads it. *)
Definition asDailyForecast (day : ForecastDay) : DailyForecast :=
  {| date := fd_date day;
     maxTemp := orNaN (fd_maxTemp day);
     minTemp := orNaN (fd_minTemp day);
     conditions := fd_conditions day;
     precipitation := orNaN (fd_precipitation day);
     windSpeed := orNaN (fd_windSpeed day) |}.

(** The callback of [daily.time.map] in [getWeatherData]. *)
Definition forecastOfDay (daily : DailyWeather) (date : string) (index : nat)
    : ForecastDay :=
  let forecastDay := forecastDayAt daily date index in
  let activities :=
    ActivityRankingService.rankActivitiesForDay
      (asDailyForecast forecastDay) 1 in
  {| fd_date := fd_date forecastDay;
     fd_maxTemp := fd_maxTemp forecastDay;
     fd_minTemp := fd_minTemp forecastDay;
     fd_conditions := fd_conditions forecastDay;
     fd_precipitation := fd_precipitation forecastDay;
     fd_windSpeed := fd_windSpeed forecastDay;
     fd_activities := activities |}.

(** The [catch] clause of [getWeatherData]. *)
Definition weatherFailure (error : thrown) : OpenMeteoAPIError :=
  match error with
  | IsAxiosError e =>
    match ax_code e with
    | Some "ECONNABORTED" =>
      newError "Request timeout while fetching weather data" API_ERROR.TIMEOUT
    | _ =>
      match ax_status e with
      | Some 429 =>
        newError "Rate limit exceeded. Please try again later."
          API_ERROR.RATE_LIMIT_EXCEEDED
      | _ =>
        newErrorCaused
          ("Failed to fetch weather data: "
             ++ (if falsy (ax_statusText e) then ax_message e
                 else orEmpty (ax_statusText e)))
          API_ERROR.UNKNOWN_ERROR error
      end
    end
  | OtherError =>
    newErrorCaused "Unknown error occurred while fetching weather data"
      API_ERROR.UNKNOWN_ERROR error
  end.

(** [getWeatherData].  [axios_get] is the forecast collaborator; the outcome
    comes with the requests that were sent, in order. *)
Definition getWeatherData
    (axios_get : WeatherRequest -> response WeatherResponse)
    (latitude longitude : number)
    : list WeatherRequest * result OpenMeteoAPIError Weather :=
  if negb (isValidCoordinate latitude longitude) then
    ([], Throw (newError "Invalid coordinates provided"
                  USER_ERROR.INVALID_COORDINATES))
  else
    let request :=
      {| wq_url := WEATHER_BASE_URL ++ "/forecast";
         wq_latitude := latitude;
         wq_longitude := longitude;
         wq_current :=
           Str.join ","
             ["temperature_2m"; "relative_humidity_2m"; "precipitation";
              "weather_code"; "wind_speed_10m"];
         wq_daily :=
           Str.join ","
             ["weather_code"; "temperature_2m_max"; "temperature_2m_min";
              "precipitation_sum"; "wind_speed_10m_max"];
         wq_timezone := "auto";
         wq_forecast_days := 7;
         wq_timeout := REQUEST_TIMEOUT_MS |} in
    match axios_get request with
    | Resolved data =>
      let forecast :=
        mapIndexed (forecastOfDay (daily data)) 0 (time (daily data)) in
      ([request],
       Ok {| w_temperature := temperature_2m (current data);
             w_conditions :=
               getWeatherCondition (Some (cw_weather_code (current data)));
             w_humidity := relative_humidity_2m (current data);
             w_windSpeed := wind_speed_10m (current data);
             w_precipitation := cw_precipitation (current data);
             w_forecast := forecast |})
    | Rejected error => ([request], Throw (weatherFailure error))
    end.

(** [getWeatherByCityId] *)
Definition getWeatherByCityId
    (axios_get : WeatherRequest -> response WeatherResponse)
    (cityId : string)
    : list WeatherRequest * result OpenMeteoAPIError CityWeatherInfo :=
  match parseCityId cityId with
  | Throw e => ([], Throw e)
  | Ok fields =>
    match getWeatherData axios_get (p_latitude fields) (p_longitude fields)
    with
    | (sent, Throw e) => (sent, Throw e)
    | (sent, Ok weather) =>
      (sent,
       Ok {| cw_weather := weather;
             ci_name := p_name fields;
             ci_country := p_country fields;
             ci_latitude := p_latitude fields;
             ci_longitude := p_longitude fields |})
    end
  end.

End OpenMeteoAPI.

(** ** The resolvers (schema/resolvers.ts)

    What the resolvers write to the console is not part of the embedding. *)

Record GraphQLError : Type := {
  g_message : string;
  g_code : option string;
  g_service : option string;
}.

(** What a [catch] clause of a resolver may receive. *)
Inductive raised : Type :=
| RaisedApiError (e : OpenMeteoAPIError)
| RaisedGraphQLError (g : GraphQLError)
| RaisedOther.

(** What [getCityWeather] returns. *)
Record CityWeather : Type := {
  cwr_city : City;
  cwr_weather : Weather;
}.

Module Resolvers.
Import ERROR_CODES.

(** The [catch] clause of the resolver [searchCities]. *)
Definition searchCitiesCatch (error : raised) : GraphQLError :=
  match error with
  | RaisedApiError e =>
    {| g_message := message e; g_code := code e;
       g_service := Some "OpenMeteo Geocoding API" |}
  | _ =>
    {| g_message := "Failed to search cities";
       g_code := Some INTERNAL_ERROR.INTERNAL_SERVER_ERROR;
       g_service := None |}
  end.

(** The resolver [searchCities]. *)
Definition searchCities
    (axios_get : GeocodingRequest -> response GeocodingResponse)
    (input : string)
    : list GeocodingRequest * result GraphQLError (list City) :=
  match OpenMeteoAPI.searchCities axios_get input with
  | (sent, Ok cities) => (sent, Ok cities)
  | (sent, Throw e) => (sent, Throw (searchCitiesCatch (RaisedApiError e)))
  end.

(** The [catch] clause of the resolver [getCityWeather]. *)
Definition getCityWeatherCatch (error : raised) : GraphQLError :=
  match error with
  | RaisedGraphQLError g => g
  | RaisedApiError e =>
    {| g_message := message e; g_code := code e;
       g_service := Some "OpenMeteo Weather API" |}
  | RaisedOther =>
    {| g_message := "Failed to get weather data";
       g_code := Some INTERNAL_ERROR.INTERNAL_SERVER_ERROR;
       g_service := None |}
  end.

(** The resolver [getCityWeather]. *)
Definition getCityWeather
    (axios_get : WeatherRequest -> response WeatherResponse)
    (cityId : string)
    : list WeatherRequest * result GraphQLError CityWeather :=
  match OpenMeteoAPI.getWeatherByCityId axios_get cityId with
  | (sent, Ok info) =>
    (sent,
     Ok {| cwr_city :=
             {| id := cityId;
                city_name := ci_name info;
                country := ci_country info;
                latitude := ci_latitude info;
                longitude := ci_longitude info |};
           cwr_weather := cw_weather info |})
  | (sent, Throw e) => (sent, Throw (getCityWeatherCatch (RaisedApiError e)))
  end.

End Resolvers.

(** * Vocabulary of the properties *)

Import ActivityRankingService.
Import OpenMeteoAPI.
Import NumStr.

(** A rounded result that is no NaN: its sign is [s] and, when it is finite and
    not zero, its exponent is at least [lo]. *)
Definition shaped (s : bool) (lo : Z) (r : number) : Prop :=
  match r with
  | S754_zero s' | S754_infinity s' => s' = s
  | S754_finite s' _ e => s' = s /\ lo <= e
  | S754_nan => False
  end.

(** Finite and not a zero. *)
Definition isNonZeroFinite (a : number) : bool :=
  match a with S754_finite _ _ _ => true | _ => false end.

(** [Math.max(MIN_SCORE, Math.min(MAX_SCORE, x))] *)
Definition clamp (x : number) : number :=
  Math_max MIN_SCORE (Math_min MAX_SCORE x).

(** The number is an integer from 0 to 100. *)
Definition isScore (x : number) : Prop :=
  exists n : Z, 0 <= n <= 100 /\ x = ofZ n.

(** The amounts that the rain and wind terms move the score by. *)
Definition rainImpactOf (config : ActivityConfig) : number :=
  mul (sub (ofZ 1) (rainTolerance config)) RAIN_IMPACT_MULTIPLIER.

Definition windImpactOf (config : ActivityConfig) : number :=
  sub (mul (windPreference config) WIND_IMPACT_MULTIPLIER) WIND_OFFSET.

(** A profile is tame when its temperature bounds and its rain and wind
    impacts are finite numbers. *)
Definition tame (config : ActivityConfig) : bool :=
  isFinite (idealTempMin config) && isFinite (idealTempMax config)
  && isFinite (rainImpactOf config) && isFinite (windImpactOf config).

(** The integers from 0 up to, but without, [n]. *)
Definition upto (n : nat) : list Z := map Z.of_nat (seq 0 n).

(** On the integers 0 to 100 the comparator of the ranking and the
    comparisons of numbers are those of the integers. *)
Definition scoresAgree (a b : Z) : bool :=
  Bool.eqb (gt (sub (ofZ b) (ofZ a)) (ofZ 0)) (a <? b)
  && Bool.eqb (lt (ofZ a) (ofZ b)) (a <? b)
  && Bool.eqb (ge (ofZ a) (ofZ b)) (b <=? a).

(** No activity stands before one with a strictly greater score. *)
Definition notBelow (a b : Activity) : Prop :=
  lt (suitabilityScore a) (suitabilityScore b) = false.

(** The activity's score is at least the other's. *)
Definition atLeast (a b : Activity) : Prop :=
  ge (suitabilityScore a) (suitabilityScore b) = true.

(** The activity has exactly the score [s]. *)
Definition tiedAt (s : number) (a : Activity) : bool :=
  same (suitabilityScore a) s.

(** A day with the given temperatures, precipitation and wind speed. *)
Definition dayOf (maxT minT precip wind : number) : DailyForecast :=
  {| date := "2025-06-01"; maxTemp := maxT; minTemp := minT;
     conditions := "Clear sky"; precipitation := precip; windSpeed := wind |}.

(** A mild, dry and calm day, and a day whose maximal temperature is NaN. *)
Definition mildDay : DailyForecast := dayOf (ofZ 22) (ofZ 18) (ofZ 0) (ofZ 5).
Definition nanDay : DailyForecast := dayOf NaN (ofZ 18) (ofZ 0) (ofZ 5).

(** A character that is neither of the separators of a city id, and a string
    of such characters. *)
Definition plainChar (a : ascii) : bool :=
  negb (Ascii.eqb a ":") && negb (Ascii.eqb a ",").

Definition plain (s : string) : bool := forallb plainChar (Str.chars s).

(** The position of the remainder [r] of a division by [D]: exact, or below,
    at or above the middle. *)
Definition locOf (D r : Z) : location :=
  if r =? 0 then loc_Exact else loc_Inexact (2 * r ?= D).

(** The record that stands for the fraction [N / D]: its integral part and
    the position of what is left. *)
Definition recOf (N D : Z) : shr_record :=
  shr_record_of_loc (N / D) (locOf D (N mod D)).

(** The last [k] decimal digits of [s], in front of [acc]. *)
Fixpoint digitsAcc (k : nat) (s : Z) (acc : string) : string :=
  match k with
  | O => acc
  | S k' => digitsAcc k' (s / 10) (String (digitChar (s mod 10)) acc)
  end.

(** [x] is a binary64 number: a finite [x] has the mantissa and the exponent
    of its normal form.  Every number of the language is one; the type of
    the embedding has other values as well. *)
Definition canonical (x : number) : bool := valid_binary prec emax x.

(** [x] without the sign of a zero: [-0] becomes [+0]. *)
Definition unsignedZero (x : number) : number :=
  match x with
  | S754_zero _ => S754_zero false
  | _ => x
  end.

(** [a === b] on numbers: [+0] and [-0] are equal, NaN equals nothing. *)
Definition strictEq (a b : number) : bool := SFeqb a b.

(** The coordinate check in the words of the specification: true
    iff both coordinates are finite numbers, [-90 <= lat <= 90] and
    [-180 <= lon <= 180]. *)
Definition validateCoordinate (lat lon : number) : bool :=
  isFinite lat && isFinite lon
  && le (ofZ (-90)) lat && le lat (ofZ 90)
  && le (ofZ (-180)) lon && le lon (ofZ 180).

(** A string after an optional sign. *)
Definition unsigned (s : string) : string :=
  match s with
  | String a t => if Ascii.eqb a "-" || Ascii.eqb a "+" then t else s
  | EmptyString => s
  end.

(** A numeric coordinate string in the words of the specification: the
    whole string is a decimal numeral, that is an optional sign, digits with
    an optional fraction (one digit at least), and an optional exponent. *)
Definition numeric (s : string) : bool :=
  let '(_, ci, r1) := NumStr.readDigits (unsigned s) 0 0 in
  let '(cf, r) :=
    match r1 with
    | String a r2 =>
      if Ascii.eqb a "." then
        let '(_, cf, r3) := NumStr.readDigits r2 0 0 in (cf, r3)
      else (0, r1)
    | EmptyString => (0, r1)
    end in
  negb ((ci =? 0) && (cf =? 0))
  && match r with
     | EmptyString => true
     | String a r' =>
       (Ascii.eqb a "e" || Ascii.eqb a "E")
       && (let '(_, ce, r4) := NumStr.readDigits (unsigned r') 0 0 in
           negb (ce =? 0) && String.eqb r4 EmptyString)
     end.

(** The first or the second coordinate string of the id is missing. *)
Definition missingCoordinate (cityId : string) : bool :=
  match Str.split ":" cityId with
  | coords :: _ =>
    falsy (nth_error (Str.split "," coords) 0)
    || falsy (nth_error (Str.split "," coords) 1)
  | [] => true
  end.

(** A geocoding collaborator whose every response lacks the [results] field. *)
Definition noResults (request : GeocodingRequest)
    : response GeocodingResponse :=
  Resolved {| results := None; generationtime_ms := ofZ 0 |}.

(** A geocoding result for London. *)
Definition London : GeocodingResult :=
  {| gr_name := "London"; gr_latitude := ofDec 515074 (-4);
     gr_longitude := ofDec (-1278) (-4); gr_feature_code := "PPLC";
     gr_country := "United Kingdom" |}.

(** The reasons of the four steps: the temperature step pushes one of its
    three tags onto the empty list, the later steps only append. *)
Definition isTemperatureTag (r : string) : bool :=
  String.eqb r "ideal temperature" || String.eqb r "too cold"
  || String.eqb r "too warm".

(** The two temperatures are infinite with opposite signs. *)
Definition oppositeInfinities (a b : number) : bool :=
  match a, b with
  | S754_infinity s, S754_infinity s' => xorb s s'
  | _, _ => false
  end.

(** The number of occurrences of [c] in [s]. *)
Definition occurrences (c : ascii) (s : string) : nat :=
  List.length (filter (Ascii.eqb c) (Str.chars s)).

(** One of the three codes of ERROR_CODES.API_ERROR. *)
Definition isApiCode (c : option string) : Prop :=
  c = Some ERROR_CODES.API_ERROR.TIMEOUT
  \/ c = Some ERROR_CODES.API_ERROR.RATE_LIMIT_EXCEEDED
  \/ c = Some ERROR_CODES.API_ERROR.UNKNOWN_ERROR.

(** The results of a response, none when the field is absent. *)
Definition resultsOf (data : GeocodingResponse) : list GeocodingResult :=
  match results data with Some rs => rs | None => [] end.

(** The id that belongs to the fields of a city. *)
Definition idOf (c : City) : string :=
  NumStr.toString (latitude c) ++ "," ++ NumStr.toString (longitude c)
  ++ ":" ++ city_name c ++ ":" ++ country c.

(** A collaborator that answers every geocoding request with London and a
    mountain of the same name. *)
Definition twoResults (request : GeocodingRequest)
    : response GeocodingResponse :=
  Resolved
    {| results :=
         Some [London;
               {| gr_name := "London Peak"; gr_latitude := ofDec 4412 (-2);
                  gr_longitude := ofDec (-12345) (-2);
                  gr_feature_code := "MT";
                  gr_country := "United States" |}];
       generationtime_ms := ofZ 1 |}.

(** The weather that [getWeatherData] builds from a response. *)
Definition weatherOf (data : WeatherResponse) : Weather :=
  {| w_temperature := temperature_2m (current data);
     w_conditions :=
       getWeatherCondition (Some (cw_weather_code (current data)));
     w_humidity := relative_humidity_2m (current data);
     w_windSpeed := wind_speed_10m (current data);
     w_precipitation := cw_precipitation (current data);
     w_forecast :=
       mapIndexed (forecastOfDay (daily data)) 0 (time (daily data)) |}.

(** A response with two days, the second of which has no temperatures. *)
Definition twoDaysData : WeatherResponse :=
  {| current :=
       {| temperature_2m := ofZ 21; relative_humidity_2m := ofZ 60;
          cw_precipitation := ofZ 0; cw_weather_code := ofZ 1;
          wind_speed_10m := ofZ 12 |};
     daily :=
       {| time := ["2025-06-01"; "2025-06-02"];
          dw_weather_code := [ofZ 0; ofZ 61];
          temperature_2m_max := [ofZ 22];
          temperature_2m_min := [ofZ 18];
          precipitation_sum := [ofZ 0; ofZ 4];
          wind_speed_10m_max := [ofZ 5; ofZ 30] |} |}.

(** A collaborator that answers every forecast request with these two
    days. *)
Definition twoDays (request : WeatherRequest) : response WeatherResponse :=
  Resolved twoDaysData.

(** The label of an integer code in the table WEATHER_CODES. *)
Definition labelOf (n : Z) : option string :=
  match find (fun entry => fst entry =? n) WEATHER_CODES with
  | Some entry => Some (snd entry)
  | None => None
  end.

(** [getWeatherCondition] agrees with the table at the integer [n]. *)
Definition conditionAgrees (n : Z) : bool :=
  String.eqb (getWeatherCondition (Some (ofZ n)))
    (match labelOf n with
     | Some label => label
     | None => "Unknown condition (" ++ NumStr.decimal n ++ ")"
     end).

(** The city that belongs to the fields of a decoded id. *)
Definition cityOf (cityId : string) (fields : CityIdFields) : City :=
  {| id := cityId; city_name := p_name fields; country := p_country fields;
     latitude := p_latitude fields; longitude := p_longitude fields |}.

(** * Properties *)

(** ** Facts about rounding *)

Lemma shr_1_nonneg (mrs : shr_record) :
  0 <= shr_m mrs -> 0 <= shr_m (shr_1 mrs).
Proof.
  destruct mrs as [m r s]; simpl.
  destruct m as [|[p|p|]|[p|p|]]; simpl; lia.
Qed.

Lemma iter_shr_1_nonneg (p : positive) :
  forall mrs, 0 <= shr_m mrs -> 0 <= shr_m (iter_pos shr_1 p mrs).
Proof.
  induction p as [p IH|p IH|]; intros mrs H; simpl.
  - apply IH, IH, shr_1_nonneg, H.
  - apply IH, IH, H.
  - apply shr_1_nonneg, H.
Qed.

Lemma shr_nonneg (mrs : shr_record) (e n : Z) :
  0 <= shr_m mrs ->
  0 <= shr_m (fst (shr mrs e n)) /\ e <= snd (shr mrs e n).
Proof.
  intros H. unfold shr. destruct n as [|p|p]; simpl.
  - lia.
  - split; [apply iter_shr_1_nonneg, H | lia].
  - lia.
Qed.

Lemma shr_fexp_nonneg (p e' m e : Z) (l : location) :
  0 <= m ->
  0 <= shr_m (fst (shr_fexp p e' m e l)) /\ e <= snd (shr_fexp p e' m e l).
Proof.
  intros H. unfold shr_fexp. apply shr_nonneg.
  destruct l as [|[ | | ]]; simpl; exact H.
Qed.

Lemma round_nearest_even_nonneg (m : Z) (l : location) :
  0 <= m -> 0 <= round_nearest_even m l.
Proof.
  intros H. unfold round_nearest_even.
  destruct l as [|[ | | ]]; try lia. destruct (Z.even m); lia.
Qed.

Lemma binary_round_aux_shaped (p e' : Z) (sx : bool) (mx ex : Z) (lx : location) :
  0 <= mx -> shaped sx ex (binary_round_aux p e' sx mx ex lx).
Proof.
  intros H. unfold binary_round_aux.
  pose proof (shr_fexp_nonneg p e' ex lx H) as H1.
  destruct (shr_fexp p e' mx ex lx) as [mrs1 e1]; simpl in H1.
  destruct H1 as [Hm1 He1].
  pose proof (round_nearest_even_nonneg (loc_of_shr_record mrs1) Hm1) as Hr.
  pose proof (shr_fexp_nonneg p e' e1 loc_Exact Hr) as H2.
  destruct (shr_fexp p e' _ e1 loc_Exact) as [mrs2 e2]; simpl in H2.
  destruct H2 as [Hm2 He2].
  destruct (shr_m mrs2) as [|q|q]; simpl.
  - reflexivity.
  - destruct (e2 <=? e' - p); simpl; [split; [reflexivity | lia] | reflexivity].
  - lia.
Qed.

Lemma binary_round_shaped (p e' : Z) (sx : bool) (mx : positive) (ex : Z) :
  shaped sx (Z.min ex (fexp p e' (Zpos (digits2_pos mx) + ex)))
    (binary_round p e' sx mx ex).
Proof.
  unfold binary_round, shl_align.
  set (f := fexp p e' (Zpos (digits2_pos mx) + ex)).
  assert (W : forall lo hi r, shaped sx hi r -> lo <= hi -> shaped sx lo r).
  { intros lo hi [s|s| |s m e]; simpl; intros; try assumption. split; [tauto|lia]. }
  destruct (f - ex) as [|d|d] eqn:E.
  - eapply W; [apply binary_round_aux_shaped; lia | lia].
  - eapply W; [apply binary_round_aux_shaped; lia | lia].
  - eapply W; [apply binary_round_aux_shaped; lia | lia].
Qed.

Lemma binary_normalize_notNaN (p e' m ex : Z) (sz : bool) :
  isNaN (binary_normalize p e' m ex sz) = false.
Proof.
  destruct m as [|q|q]; simpl; [reflexivity | |].
  - pose proof (binary_round_shaped p e' false q ex) as H.
    destruct (binary_round p e' false q ex); simpl in *; tauto.
  - pose proof (binary_round_shaped p e' true q ex) as H.
    destruct (binary_round p e' true q ex); simpl in *; tauto.
Qed.

Lemma add_notNaN (x y : number) :
  isNaN x = false -> isFinite y = true -> isNaN (add x y) = false.
Proof.
  destruct x as [sx|sx| |sx mx ex], y as [sy|sy| |sy my ey];
    simpl; try discriminate; intros _ _; try reflexivity.
  - destruct sx, sy; reflexivity.
  - apply binary_normalize_notNaN.
Qed.

Lemma sub_notNaN_r (x y : number) :
  isNaN x = false -> isFinite y = true -> isNaN (sub x y) = false.
Proof.
  destruct x as [sx|sx| |sx mx ex], y as [sy|sy| |sy my ey];
    simpl; try discriminate; intros _ _; try reflexivity.
  - destruct sx, sy; reflexivity.
  - apply binary_normalize_notNaN.
Qed.

Lemma sub_notNaN_l (x y : number) :
  isFinite x = true -> isNaN y = false -> isNaN (sub x y) = false.
Proof.
  destruct x as [sx|sx| |sx mx ex], y as [sy|sy| |sy my ey];
    simpl; try discriminate; intros _ _; try reflexivity.
  - destruct sx, sy; reflexivity.
  - apply binary_normalize_notNaN.
Qed.

Lemma mul_notNaN (x y : number) :
  isNaN x = false -> isNonZeroFinite y = true -> isNaN (mul x y) = false.
Proof.
  destruct x as [sx|sx| |sx mx ex], y as [sy|sy| |sy my ey];
    simpl; try discriminate; intros _ _; try reflexivity.
  pose proof (@binary_round_aux_shaped prec emax (xorb sx sy)
                (Zpos (mx * my)) (ex + ey) loc_Exact ltac:(lia)) as H.
  unfold mul, SFmul.
  destruct (binary_round_aux _ _ _ _ _ _); simpl in *; tauto.
Qed.

Lemma div_notNaN (x y : number) :
  isNaN x = false -> isNonZeroFinite y = true -> isNaN (div x y) = false.
Proof.
  destruct x as [sx|sx| |sx mx ex], y as [sy|sy| |sy my ey];
    simpl; try discriminate; intros _ _; try reflexivity.
  unfold div, SFdiv, SFdiv_core_binary.
  set (m' := match _ with Z0 => Zpos mx | Zpos _ => _ | Zneg _ => 0 end).
  assert (Hm : 0 <= m').
  { subst m'. destruct (_ - _ - _); try lia. apply Z.shiftl_nonneg. lia. }
  pose proof (Z.div_eucl_eq m' (Zpos my) ltac:(lia)) as E.
  pose proof (Z.mod_pos_bound m' (Zpos my) ltac:(lia)) as B.
  unfold Z.modulo in B.
  destruct (Z.div_eucl m' (Zpos my)) as [q r].
  assert (Hq : 0 <= q) by nia.
  match goal with |- isNaN (binary_round_aux ?a ?b ?c ?d ?e ?f) = false =>
    pose proof (@binary_round_aux_shaped a b c d e f Hq) as H;
    destruct (binary_round_aux a b c d e f) end; simpl in *; tauto.
Qed.

Lemma Math_min_notNaN (a b : number) :
  isNaN a = false -> isNaN b = false -> isNaN (Math_min a b) = false.
Proof.
  intros Ha Hb. unfold Math_min.
  destruct (SFcompare a b) as [[ | | ]|] eqn:E; try assumption.
  - destruct a as [[|]| | |]; assumption.
  - destruct a, b; simpl in *; discriminate.
Qed.

Lemma digits2_pos_size (p : positive) : digits2_pos p = Pos.size p.
Proof. induction p; simpl; congruence. Qed.

Lemma digits2_pos_large (p : positive) :
  128 <= Zpos p -> 8 <= Zpos (digits2_pos p).
Proof.
  intros H. rewrite digits2_pos_size.
  destruct (Z.le_gt_cases 8 (Zpos (Pos.size p))) as [L|L]; [exact L|].
  exfalso. pose proof (Pos.size_gt p) as G.
  apply Pos2Z.pos_lt_pos in G. rewrite Pos2Z.inj_pow in G.
  assert (K : 2 ^ Zpos (Pos.size p) <= 2 ^ 7) by (apply Z.pow_le_mono_r; lia).
  change (2 ^ 7) with 128 in K. lia.
Qed.

Lemma clamp_negative (r : number) (lo : Z) :
  shaped true lo r -> clamp r = ofZ 0.
Proof.
  destruct r as [s|s| |s m e]; simpl; intros H.
  - subst s. reflexivity.
  - subst s. reflexivity.
  - contradiction.
  - destruct H as [-> _]. reflexivity.
Qed.

Lemma clamp_large (r : number) :
  shaped false (-45) r -> clamp r = ofZ 0 \/ clamp r = ofZ 100.
Proof.
  destruct r as [s|s| |s m e]; simpl; intros H.
  - subst s. left. reflexivity.
  - subst s. right. reflexivity.
  - contradiction.
  - destruct H as [-> H]. right.
    unfold clamp, Math_min, MAX_SCORE. 
    change (ofZ 100) with (S754_finite false 7036874417766400 (-46)).
    unfold SFcompare.
    replace (-46 ?= e) with Lt by (symmetry; apply Z.compare_lt_iff; lia).
    reflexivity.
Qed.

Lemma clamp_small (p : positive) :
  Zpos p < 128 ->
  clamp (binary_round prec emax false p 0) = ofZ (Z.min (Zpos p) 100).
Proof.
  intros H.
  do 7 (try destruct p as [p|p|]); first [lia | vm_compute; reflexivity].
Qed.

Lemma clamp_normalize (n : Z) (s : bool) :
  isScore (clamp (binary_normalize prec emax n 0 s)).
Proof.
  destruct n as [|q|q]; simpl.
  - exists 0. split; [lia|]. destruct s; reflexivity.
  - destruct (Z.lt_ge_cases (Zpos q) 128) as [L|L].
    + exists (Z.min (Zpos q) 100). split; [lia|]. apply clamp_small, L.
    + pose proof (binary_round_shaped prec emax false q 0) as H.
      assert (H' : shaped false (-45) (binary_round prec emax false q 0)).
      { pose proof (digits2_pos_large L) as D.
        destruct (binary_round prec emax false q 0); simpl in *; try tauto.
        destruct H as [-> H]. split; [reflexivity|].
        unfold fexp, prec in H. lia. }
      destruct (@clamp_large _ H') as [-> | ->];
        [exists 0 | exists 100]; split; try reflexivity; lia.
  - exists 0. split; [lia|].
    eapply clamp_negative, binary_round_shaped.
Qed.

Lemma clamp_round (x : number) :
  isNaN x = false -> isScore (clamp (Math_round x)).
Proof.
  destruct x as [s|s| |s m e]; simpl; try discriminate; intros _.
  - exists 0. split; [lia|]. destruct s; reflexivity.
  - destruct s; [exists 0 | exists 100]; split; try reflexivity; lia.
  - apply clamp_normalize.
Qed.

Lemma clamp_round_NaN : clamp (Math_round NaN) = NaN.
Proof. reflexivity. Qed.

Lemma shipped_tame (config : ActivityConfig) :
  In config ACTIVITY_CONFIGS -> tame config = true.
Proof.
  intros [<-|[<-|[<-|[<-|[]]]]]; vm_compute; reflexivity.
Qed.

Lemma isFinite_notNaN (x : number) : isFinite x = true -> isNaN x = false.
Proof. destruct x; simpl; congruence. Qed.

Lemma temperatureTerm_notNaN (config : ActivityConfig) (avgTemp : number)
    (t : tally) :
  tame config = true -> isNaN avgTemp = false -> isFinite (fst t) = true ->
  isNaN (fst (temperatureTerm config avgTemp t)) = false.
Proof.
  unfold tame. intros T Ha Ht.
  apply andb_prop in T as [T _]. apply andb_prop in T as [T _].
  apply andb_prop in T as [Tmin Tmax].
  unfold temperatureTerm.
  destruct (ge avgTemp (idealTempMin config) && le avgTemp (idealTempMax config)).
  - simpl. apply add_notNaN; [apply isFinite_notNaN, Ht | reflexivity].
  - destruct (lt avgTemp (idealTempMin config)); simpl.
    + apply sub_notNaN_l; [exact Ht|].
      apply Math_min_notNaN; [reflexivity|].
      apply mul_notNaN; [|reflexivity].
      apply sub_notNaN_l; assumption.
    + apply sub_notNaN_l; [exact Ht|].
      apply Math_min_notNaN; [reflexivity|].
      apply mul_notNaN; [|reflexivity].
      apply sub_notNaN_r; assumption.
Qed.

Lemma rainTerm_notNaN (config : ActivityConfig) (hasRain : bool) (t : tally) :
  tame config = true -> isNaN (fst t) = false ->
  isNaN (fst (rainTerm config hasRain t)) = false.
Proof.
  unfold tame. intros T Ht.
  apply andb_prop in T as [T _]. apply andb_prop in T as [_ Tr].
  unfold rainTerm. fold (rainImpactOf config).
  assert (D : isNaN (sub (fst t) (rainImpactOf config)) = false)
    by (apply sub_notNaN_r; assumption).
  destruct hasRain.
  - destruct (gt _ _); simpl; [apply add_notNaN; [exact D|reflexivity]|].
    destruct (lt _ _); simpl; exact D.
  - destruct (lt _ _); simpl; [apply add_notNaN; [exact Ht|reflexivity]|exact Ht].
Qed.

Lemma windTerm_notNaN (config : ActivityConfig) (isWindy : bool) (t : tally) :
  tame config = true -> isNaN (fst t) = false ->
  isNaN (fst (windTerm config isWindy t)) = false.
Proof.
  unfold tame. intros T Ht. apply andb_prop in T as [_ Tw].
  unfold windTerm. fold (windImpactOf config).
  destruct isWindy; [|exact Ht].
  assert (D : isNaN (add (fst t) (windImpactOf config)) = false)
    by (apply add_notNaN; assumption).
  destruct (gt _ _); simpl; [exact D|]. destruct (lt _ _); simpl; exact D.
Qed.

Lemma indoorTerm_notNaN (config : ActivityConfig) (avgTemp : number) (t : tally) :
  isNaN (fst t) = false -> isNaN (fst (indoorTerm config avgTemp t)) = false.
Proof.
  intros Ht. unfold indoorTerm.
  destruct (Str.includes _ _); [|exact Ht].
  destruct (_ || _); [|exact Ht].
  simpl. apply add_notNaN; [exact Ht|reflexivity].
Qed.

Lemma finalTally_notNaN (config : ActivityConfig) (avgTemp : number)
    (hasRain isWindy : bool) :
  tame config = true -> isNaN avgTemp = false ->
  isNaN (fst (finalTally config avgTemp hasRain isWindy)) = false.
Proof.
  intros T Ha. unfold finalTally.
  apply indoorTerm_notNaN, windTerm_notNaN, rainTerm_notNaN; try exact T.
  apply temperatureTerm_notNaN; [exact T|exact Ha|reflexivity].
Qed.

(** With an average temperature that is NaN the score is NaN. *)
Lemma add_NaN_l (y : number) : add NaN y = NaN.
Proof. reflexivity. Qed.

Lemma sub_NaN_l (y : number) : sub NaN y = NaN.
Proof. reflexivity. Qed.

Lemma sub_NaN_r (x : number) : sub x NaN = NaN.
Proof. destruct x; reflexivity. Qed.

Lemma finalTally_NaN (config : ActivityConfig) (hasRain isWindy : bool) :
  fst (finalTally config NaN hasRain isWindy) = NaN.
Proof.
  unfold finalTally.
  assert (E1 : fst (temperatureTerm config NaN (BASE_SCORE, [])) = NaN).
  { unfold temperatureTerm, ge, le, lt.
    replace (SFleb (idealTempMin config) NaN) with false
      by (destruct (idealTempMin config); reflexivity).
    simpl. reflexivity. }
  set (t1 := temperatureTerm config NaN (BASE_SCORE, [])) in *.
  assert (E2 : fst (rainTerm config hasRain t1) = NaN).
  { unfold rainTerm, push, bump, drop. destruct hasRain.
    - destruct (gt _ _); cbn [fst snd]; rewrite E1; [reflexivity|].
      destruct (lt _ _); reflexivity.
    - destruct (lt _ _); cbn [fst snd]; rewrite E1; reflexivity. }
  set (t2 := rainTerm config hasRain t1) in *.
  assert (E3 : fst (windTerm config isWindy t2) = NaN).
  { unfold windTerm, push, bump. destruct isWindy; [|exact E2].
    destruct (gt _ _); cbn [fst snd]; rewrite ?E2; [reflexivity|].
    destruct (lt _ _); cbn [fst snd]; rewrite ?E2; reflexivity. }
  set (t3 := windTerm config isWindy t2) in *.
  unfold indoorTerm, push, bump. destruct (Str.includes _ _); [|exact E3].
  destruct (_ || _); [|exact E3]. cbn [fst snd]. rewrite E3. reflexivity.
Qed.

Lemma score_isScore (config : ActivityConfig) (avgTemp : number)
    (hasRain isWindy : bool) (p w : number) :
  tame config = true -> isNaN avgTemp = false ->
  isScore (suitabilityScore (scoreActivity config avgTemp hasRain isWindy p w)).
Proof.
  intros T Ha. simpl. apply clamp_round, finalTally_notNaN; assumption.
Qed.

Lemma score_NaN (config : ActivityConfig) (avgTemp : number)
    (hasRain isWindy : bool) (p w : number) :
  isNaN avgTemp = true ->
  suitabilityScore (scoreActivity config avgTemp hasRain isWindy p w) = NaN.
Proof.
  destruct avgTemp; try discriminate. intros _. simpl.
  rewrite finalTally_NaN. reflexivity.
Qed.

Lemma reasoningOf_nonempty (reasons : list string) :
  reasoningOf reasons <> EmptyString.
Proof.
  unfold reasoningOf. destruct (Str.join ", " reasons); discriminate.
Qed.

(** The temperature term always pushes its reason, so no activity is left
    without one. *)
Lemma finalTally_has_reason (config : ActivityConfig) (avgTemp : number)
    (hasRain isWindy : bool) :
  snd (finalTally config avgTemp hasRain isWindy) <> [].
Proof.
  assert (K : forall (t : tally) r, snd (push r t) <> []).
  { intros [sc rs] r. unfold push. cbn [fst snd]. destruct rs; discriminate. }
  unfold finalTally.
  set (t1 := temperatureTerm config avgTemp (BASE_SCORE, [])).
  assert (H1 : snd t1 <> []).
  { subst t1. unfold temperatureTerm.
    destruct (_ && _); [apply K|]. destruct (lt _ _); apply K. }
  set (t2 := rainTerm config hasRain t1).
  assert (H2 : snd t2 <> []).
  { subst t2. unfold rainTerm. destruct hasRain.
    - destruct (gt _ _); [apply K|]. destruct (lt _ _); [apply K | exact H1].
    - destruct (lt _ _); [apply K | exact H1]. }
  set (t3 := windTerm config isWindy t2).
  assert (H3 : snd t3 <> []).
  { subst t3. unfold windTerm. destruct isWindy; [|exact H2].
    destruct (gt _ _); [apply K|]. destruct (lt _ _); [apply K | exact H2]. }
  unfold indoorTerm. destruct (Str.includes _ _); [|exact H3].
  destruct (_ || _); [apply K | exact H3].
Qed.

(** ** Facts about [sort] and [slice] *)

Section SortFacts.
Variable A : Type.
Variable compareFn : A -> A -> number.

Lemma insert_perm (x : A) (l : list A) :
  Permutation (Arr.insert compareFn x l) (x :: l).
Proof.
  induction l as [|y l IH]; simpl; [reflexivity|].
  destruct (Arr.after compareFn x y); [|reflexivity].
  rewrite IH. apply perm_swap.
Qed.

Lemma sort_perm (l : list A) : Permutation (Arr.sort compareFn l) l.
Proof.
  induction l as [|x l IH]; simpl; [reflexivity|].
  rewrite insert_perm. apply perm_skip, IH.
Qed.

Lemma sort_length (l : list A) :
  List.length (Arr.sort compareFn l) = List.length l.
Proof. apply Permutation_length, sort_perm. Qed.

(** Sortedness: [P] holds of the elements, and on them the order [R] is
    transitive and agrees with the comparator. *)
Variable P : A -> Prop.
Variable R : A -> A -> Prop.
Hypothesis R_stay : forall x y,
  P x -> P y -> Arr.after compareFn x y = false -> R x y.
Hypothesis R_move : forall x y,
  P x -> P y -> Arr.after compareFn x y = true -> R y x.
Hypothesis R_trans : forall x y z,
  P x -> P y -> P z -> R x y -> R y z -> R x z.

Lemma insert_sorted (x : A) (l : list A) :
  P x -> Forall P l -> StronglySorted R l ->
  StronglySorted R (Arr.insert compareFn x l).
Proof.
  intros Px Pl Sl. induction l as [|y l IH]; simpl.
  - constructor; constructor.
  - inversion Pl as [|? ? Py Pl']; subst.
    inversion Sl as [|? ? Sl' Fy]; subst.
    destruct (Arr.after compareFn x y) eqn:E.
    + constructor; [apply IH; assumption|].
      eapply Permutation_Forall; [symmetry; apply insert_perm|].
      constructor; [apply R_move; assumption | exact Fy].
    + constructor; [exact Sl|].
      assert (Rxy : R x y) by (apply R_stay; assumption).
      constructor; [exact Rxy|].
      rewrite Forall_forall in *. intros z Hz.
      apply R_trans with y; auto.
Qed.

Lemma sort_sorted (l : list A) :
  Forall P l -> StronglySorted R (Arr.sort compareFn l).
Proof.
  induction l as [|x l IH]; intros Pl; simpl; [constructor|].
  inversion Pl; subst. apply insert_sorted; auto.
  eapply Permutation_Forall; [symmetry; apply sort_perm | assumption].
Qed.
End SortFacts.

Section Stability.
Variable A : Type.
Variable compareFn : A -> A -> number.

(** Stability: elements that the comparator ties pairwise keep their order. *)
Variable tied : A -> bool.
Hypothesis tied_stay : forall x y,
  tied x = true -> tied y = true -> Arr.after compareFn x y = false.

Lemma insert_filter (x : A) (l : list A) :
  filter tied (Arr.insert compareFn x l) = filter tied (x :: l).
Proof.
  induction l as [|y l IH]; [reflexivity|].
  simpl. destruct (Arr.after compareFn x y) eqn:E; [|reflexivity].
  simpl. rewrite IH. simpl.
  destruct (tied x) eqn:Tx, (tied y) eqn:Ty; try reflexivity.
  rewrite tied_stay in E by assumption. discriminate.
Qed.

Lemma sort_filter (l : list A) :
  filter tied (Arr.sort compareFn l) = filter tied l.
Proof.
  induction l as [|x l IH]; [reflexivity|].
  simpl Arr.sort. rewrite insert_filter. simpl. rewrite IH. reflexivity.
Qed.
End Stability.

Section SliceFacts.
Variable A : Type.

Lemma Forall_firstn (Q : A -> Prop) (n : nat) (l : list A) :
  Forall Q l -> Forall Q (firstn n l).
Proof.
  revert l. induction n as [|n IH]; intros l F; [constructor|].
  destruct F as [|x l Qx F]; simpl; constructor; [exact Qx | apply IH, F].
Qed.

Lemma firstn_sorted (R : A -> A -> Prop) (n : nat) (l : list A) :
  StronglySorted R l -> StronglySorted R (firstn n l).
Proof.
  revert l. induction n as [|n IH]; intros l S; [constructor|].
  destruct S as [|x l S F]; simpl; constructor;
    [apply IH, S | apply Forall_firstn, F].
Qed.

Lemma filter_firstn (p : A -> bool) (n : nat) (l : list A) :
  filter p (firstn n l)
  = firstn (List.length (filter p (firstn n l))) (filter p l).
Proof.
  revert l. induction n as [|n IH]; intros l; [reflexivity|].
  destruct l as [|x l]; [reflexivity|].
  simpl. destruct (p x); simpl; [f_equal|]; apply IH.
Qed.

Lemma slice0_length (l : list A) (top : Z) :
  0 <= top ->
  List.length (Arr.slice0 l top)
  = Z.to_nat (Z.min top (Z.of_nat (List.length l))).
Proof.
  intros H. unfold Arr.slice0.
  replace (top <? 0) with false by (symmetry; apply Z.ltb_ge, H).
  rewrite length_firstn. lia.
Qed.

Lemma slice0_negative (l : list A) (top : Z) :
  top < 0 ->
  Arr.slice0 l top = firstn (Z.to_nat (Z.of_nat (List.length l) + top)) l.
Proof.
  intros H. unfold Arr.slice0.
  replace (top <? 0) with true by (symmetry; apply Z.ltb_lt, H).
  f_equal. lia.
Qed.
End SliceFacts.

(** ** Comparing scores *)

Lemma in_upto (n : nat) (z : Z) : 0 <= z < Z.of_nat n -> In z (upto n).
Proof.
  intros H. unfold upto. apply in_map_iff. exists (Z.to_nat z).
  split; [lia|]. apply in_seq. lia.
Qed.

Lemma scoresAgree_all :
  forallb (fun a => forallb (scoresAgree a) (upto 101)) (upto 101) = true.
Proof. vm_compute. reflexivity. Qed.

Lemma scoresAgree_at (a b : Z) :
  0 <= a <= 100 -> 0 <= b <= 100 -> scoresAgree a b = true.
Proof.
  intros Ha Hb. pose proof scoresAgree_all as H.
  rewrite forallb_forall in H.
  assert (Ia : In a (upto 101)) by (apply in_upto; lia).
  assert (Ib : In b (upto 101)) by (apply in_upto; lia).
  specialize (H a Ia). rewrite forallb_forall in H. apply H, Ib.
Qed.

Lemma score_facts (a b : Z) :
  0 <= a <= 100 -> 0 <= b <= 100 ->
  gt (sub (ofZ b) (ofZ a)) (ofZ 0) = (a <? b)
  /\ lt (ofZ a) (ofZ b) = (a <? b)
  /\ ge (ofZ a) (ofZ b) = (b <=? a).
Proof.
  intros Ha Hb. pose proof (scoresAgree_at Ha Hb) as H. unfold scoresAgree in H.
  apply andb_prop in H as [H H3]. apply andb_prop in H as [H1 H2].
  repeat split; apply eqb_prop; assumption.
Qed.

Lemma sub_self_not_positive (s : number) : gt (sub s s) (ofZ 0) = false.
Proof.
  destruct s as [[|]|[|]| |sx m e]; try reflexivity.
  unfold sub, SFsub. rewrite Z.sub_diag. reflexivity.
Qed.

Lemma same_eq (a b : number) : same a b = true -> a = b.
Proof.
  destruct a as [s|s| |s m e], b as [s'|s'| |s' m' e']; simpl; try discriminate.
  - intros H. apply eqb_prop in H. congruence.
  - intros H. apply eqb_prop in H. congruence.
  - reflexivity.
  - intros H. apply andb_prop in H as [H He]. apply andb_prop in H as [Hs Hm].
    apply eqb_prop in Hs. apply Pos.eqb_eq in Hm. apply Z.eqb_eq in He. congruence.
Qed.

(** ** The ranking *)

Lemma scoreFor_isScore (forecast : DailyForecast) (config : ActivityConfig) :
  In config ACTIVITY_CONFIGS -> isNaN (avgTempOf forecast) = false ->
  isScore (suitabilityScore (scoreFor forecast config)).
Proof.
  intros Hc Ha. apply score_isScore; [apply shipped_tame, Hc | exact Ha].
Qed.

Lemma scored_isScore (forecast : DailyForecast) :
  isNaN (avgTempOf forecast) = false ->
  Forall (fun a => isScore (suitabilityScore a)) (scoredActivities forecast).
Proof.
  intros Ha. unfold scoredActivities. rewrite Forall_map, Forall_forall.
  intros c Hc. apply scoreFor_isScore; assumption.
Qed.

Lemma scored_NaN (forecast : DailyForecast) :
  isNaN (avgTempOf forecast) = true ->
  Forall (fun a => suitabilityScore a = NaN) (scoredActivities forecast).
Proof.
  intros Ha. unfold scoredActivities. rewrite Forall_map, Forall_forall.
  intros c _. apply score_NaN, Ha.
Qed.

Lemma scored_length (forecast : DailyForecast) :
  List.length (scoredActivities forecast) = 4%nat.
Proof. reflexivity. Qed.

Lemma ranking_length (forecast : DailyForecast) :
  List.length (ranking forecast) = 4%nat.
Proof. unfold ranking. rewrite sort_length. apply scored_length. Qed.

Lemma ranking_notBelow (forecast : DailyForecast) :
  StronglySorted notBelow (ranking forecast).
Proof.
  unfold ranking. destruct (isNaN (avgTempOf forecast)) eqn:Ha.
  - apply sort_sorted with (P := fun a => suitabilityScore a = NaN);
      [| | | apply scored_NaN, Ha];
      unfold notBelow; intros; repeat match goal with
        H : suitabilityScore _ = NaN |- _ => rewrite H; clear H end; reflexivity.
  - apply sort_sorted with (P := fun a => isScore (suitabilityScore a));
      [| | | apply scored_isScore, Ha]; unfold notBelow, Arr.after, byScoreDesc.
    + intros x y [nx [Hx ->]] [ny [Hy ->]].
      destruct (score_facts Hx Hy) as (-> & -> & _). trivial.
    + intros x y [nx [Hx ->]] [ny [Hy ->]].
      destruct (score_facts Hx Hy) as (-> & _ & _).
      destruct (score_facts Hy Hx) as (_ & -> & _). lia.
    + intros x y z [nx [Hx ->]] [ny [Hy ->]] [nz [Hz ->]].
      destruct (score_facts Hx Hy) as (_ & -> & _).
      destruct (score_facts Hy Hz) as (_ & -> & _).
      destruct (score_facts Hx Hz) as (_ & -> & _). lia.
Qed.

Lemma ranking_atLeast (forecast : DailyForecast) :
  isNaN (avgTempOf forecast) = false ->
  StronglySorted atLeast (ranking forecast).
Proof.
  intros Ha. unfold ranking.
  apply sort_sorted with (P := fun a => isScore (suitabilityScore a));
    [| | | apply scored_isScore, Ha]; unfold atLeast, Arr.after, byScoreDesc.
  - intros x y [nx [Hx ->]] [ny [Hy ->]].
    destruct (score_facts Hx Hy) as (-> & _ & ->). lia.
  - intros x y [nx [Hx ->]] [ny [Hy ->]].
    destruct (score_facts Hx Hy) as (-> & _ & _).
    destruct (score_facts Hy Hx) as (_ & _ & ->). lia.
  - intros x y z [nx [Hx ->]] [ny [Hy ->]] [nz [Hz ->]].
    destruct (score_facts Hx Hy) as (_ & _ & ->).
    destruct (score_facts Hy Hz) as (_ & _ & ->).
    destruct (score_facts Hx Hz) as (_ & _ & ->). lia.
Qed.

Lemma ranking_stable (forecast : DailyForecast) (s : number) :
  filter (tiedAt s) (ranking forecast)
  = filter (tiedAt s) (scoredActivities forecast).
Proof.
  unfold ranking. apply sort_filter.
  intros x y Hx Hy. apply same_eq in Hx, Hy.
  unfold Arr.after, byScoreDesc. rewrite Hx, Hy. apply sub_self_not_positive.
Qed.

(** ** A stable sort has one possible result *)

Section StableUnique.
Variable A : Type.

(** [tied x y]: the elements are tied.  When only tied elements are related
    by the order [R] both ways, there is one arrangement that is sorted by [R]
    and keeps every class of tied elements in a given order. *)
Variable tied : A -> A -> bool.
Variable P : A -> Prop.
Variable R : A -> A -> Prop.
Hypothesis tied_refl : forall x, tied x x = true.
Hypothesis R_antisym : forall x y,
  P x -> P y -> R x y -> R y x -> tied x y = true.

Lemma head_of_class (x : A) (l : list A) :
  filter (tied x) (x :: l) = x :: filter (tied x) l.
Proof. simpl. rewrite tied_refl. reflexivity. Qed.

Lemma in_of_class (x y : A) (l : list A) :
  In y (filter (tied x) l) -> In y l.
Proof. intros H. apply filter_In in H. tauto. Qed.

Lemma stable_sorted_unique (l1 : list A) :
  forall l2,
    Forall P l1 -> Forall P l2 ->
    StronglySorted R l1 -> StronglySorted R l2 ->
    (forall x, filter (tied x) l1 = filter (tied x) l2) ->
    l1 = l2.
Proof.
  induction l1 as [|x l1 IH]; intros l2 P1 P2 S1 S2 F.
  - destruct l2 as [|y l2]; [reflexivity|].
    specialize (F y). rewrite head_of_class in F. discriminate.
  - destruct l2 as [|y l2].
    { specialize (F x). rewrite head_of_class in F. discriminate. }
    inversion S1 as [|? ? S1' F1]; subst. inversion S2 as [|? ? S2' F2]; subst.
    inversion P1 as [|? ? Px P1']; subst. inversion P2 as [|? ? Py P2']; subst.
    rewrite Forall_forall in F1, F2.
    assert (Txy : tied x y = true).
    { assert (Ix : In x (y :: l2)).
      { apply in_of_class with x. rewrite <- F, head_of_class. left. reflexivity. }
      assert (Iy : In y (x :: l1)).
      { apply in_of_class with y. rewrite F, head_of_class. left. reflexivity. }
      destruct Ix as [<-|Ix]; [apply tied_refl|].
      destruct Iy as [->|Iy]; [apply tied_refl|].
      apply R_antisym; [exact Px | exact Py | apply F1, Iy | apply F2, Ix]. }
    assert (E : x = y).
    { pose proof (F x) as Fx. rewrite head_of_class in Fx.
      simpl in Fx. rewrite Txy in Fx. congruence. }
    subst y. f_equal. apply IH; try assumption.
    intros z. specialize (F z). simpl in F.
    destruct (tied z x); [congruence | exact F].
Qed.
End StableUnique.

Lemma same_refl (x : number) : same x x = true.
Proof.
  destruct x as [s|s| |s m e]; simpl; try reflexivity;
    rewrite ?eqb_reflx, ?Pos.eqb_refl, ?Z.eqb_refl; reflexivity.
Qed.

(** The ranking is the only arrangement of the scored activities that is
    sorted by descending score and keeps the activities of equal score in
    table order: what every stable sort has to return. *)
Lemma ranking_unique (forecast : DailyForecast) (l : list Activity) :
  isNaN (avgTempOf forecast) = false ->
  StronglySorted atLeast l ->
  (forall s, filter (tiedAt s) l
             = filter (tiedAt s) (scoredActivities forecast)) ->
  l = ranking forecast.
Proof.
  intros Ha Sl Fl.
  pose proof (scored_isScore forecast Ha) as Ps. rewrite Forall_forall in Ps.
  apply stable_sorted_unique
    with (tied := fun x y => tiedAt (suitabilityScore x) y)
         (P := fun a => isScore (suitabilityScore a)) (R := atLeast).
  - intros x. apply same_refl.
  - intros x y [nx [Hx Ex]] [ny [Hy Ey]]. unfold atLeast, tiedAt.
    rewrite Ex, Ey.
    destruct (score_facts Hx Hy) as (_ & _ & ->).
    destruct (score_facts Hy Hx) as (_ & _ & ->).
    intros H1 H2. replace ny with nx by lia. apply same_refl.
  - rewrite Forall_forall. intros a Ia. apply Ps.
    assert (I : In a (filter (tiedAt (suitabilityScore a)) l)).
    { apply filter_In. split; [exact Ia | apply same_refl]. }
    rewrite Fl in I. apply filter_In in I. tauto.
  - rewrite Forall_forall. intros a Ia. apply Ps.
    unfold ranking in Ia.
    eapply Permutation_in; [apply sort_perm | exact Ia].
  - exact Sl.
  - apply ranking_atLeast, Ha.
  - intros x. rewrite Fl. symmetry. apply ranking_stable.
Qed.

Lemma isScore_notNaN (x : number) : isScore x -> isNaN x = false.
Proof. intros [n [_ ->]]. apply binary_normalize_notNaN. Qed.

Lemma avgTemp_notNaN (forecast : DailyForecast) :
  isFinite (maxTemp forecast) = true -> isFinite (minTemp forecast) = true ->
  isNaN (avgTempOf forecast) = false.
Proof.
  intros Hmax Hmin. unfold avgTempOf.
  apply div_notNaN; [|reflexivity].
  apply add_notNaN; [apply isFinite_notNaN, Hmax | exact Hmin].
Qed.

(** C2, as stated, fails for a negative [top]: with [top = -1] three
    activities are returned, and [min (-1) 4] is not three. *)
Lemma rank_length_negative_top :
  Z.of_nat (List.length (rankActivitiesForDay mildDay (-1))) <> Z.min (-1) 4.
Proof. vm_compute. discriminate. Qed.

(** C2 (amended): for every forecast and every integer [top >= 0],
    [rankActivitiesForDay] returns [min top 4] activities, and no activity
    stands before one with a strictly greater score. *)
Theorem rank_sorted_length (forecast : DailyForecast) (top : Z) :
  0 <= top ->
  Z.of_nat (List.length (rankActivitiesForDay forecast top)) = Z.min top 4
  /\ StronglySorted notBelow (rankActivitiesForDay forecast top).
Proof.
  intros H. unfold rankActivitiesForDay. split.
  - rewrite slice0_length by exact H. rewrite ranking_length. lia.
  - unfold Arr.slice0. apply firstn_sorted, ranking_notBelow.
Qed.

(** C2 (amended) at the mild day and [top = 2]. *)
Lemma rank_sorted_length_witness :
  0 <= 2
  /\ Z.of_nat (List.length (rankActivitiesForDay mildDay 2)) = Z.min 2 4
  /\ StronglySorted notBelow (rankActivitiesForDay mildDay 2).
Proof. split; [lia | apply (@rank_sorted_length mildDay 2); lia]. Defined.

(** When the average temperature is a number the scores of the ranking are
    non-increasing in the order of numbers. *)
Lemma rank_atLeast (forecast : DailyForecast) (top : Z) :
  isNaN (avgTempOf forecast) = false ->
  StronglySorted atLeast (rankActivitiesForDay forecast top).
Proof.
  intros H. unfold rankActivitiesForDay, Arr.slice0.
  apply firstn_sorted, ranking_atLeast, H.
Qed.

(** C3, as stated, fails when a temperature of the day is NaN: every profile
    is then scored NaN, which is no integer in [0, 100]. *)
Lemma nan_day_scores :
  Forall (fun a => suitabilityScore a = NaN
                   /\ ~ isScore (suitabilityScore a))
         (scoredActivities nanDay).
Proof.
  assert (N : ~ isScore NaN) by (intros H; apply isScore_notNaN in H; discriminate).
  repeat constructor; exact N.
Qed.

(** C3 (amended): for every forecast whose average temperature is not NaN and
    every profile of the table, the scored activity has a score that is an
    integer in [0, 100] and a non-empty reasoning, which is the literal
    "standard conditions" when no reason was pushed. *)
Theorem score_in_range (forecast : DailyForecast) (config : ActivityConfig) :
  In config ACTIVITY_CONFIGS ->
  isNaN (avgTempOf forecast) = false ->
  isScore (suitabilityScore (scoreFor forecast config))
  /\ reasoning (scoreFor forecast config) <> EmptyString
  /\ (snd (finalTally config (avgTempOf forecast) (hasRainOf forecast)
             (isWindyOf forecast)) = []
      -> reasoning (scoreFor forecast config) = "standard conditions").
Proof.
  intros Hc Ha. split; [apply scoreFor_isScore; assumption|]. split.
  - apply reasoningOf_nonempty.
  - intros E. unfold scoreFor, scoreActivity. simpl. rewrite E. reflexivity.
Qed.

(** C3 (amended) at the mild day and the outdoor_sightseeing profile. *)
Lemma score_in_range_witness :
  In outdoor_sightseeing ACTIVITY_CONFIGS
  /\ isNaN (avgTempOf mildDay) = false
  /\ isScore (suitabilityScore (scoreFor mildDay outdoor_sightseeing))
  /\ reasoning (scoreFor mildDay outdoor_sightseeing) <> EmptyString
  /\ (snd (finalTally outdoor_sightseeing (avgTempOf mildDay)
             (hasRainOf mildDay) (isWindyOf mildDay)) = []
      -> reasoning (scoreFor mildDay outdoor_sightseeing)
         = "standard conditions").
Proof.
  assert (Hc : In outdoor_sightseeing ACTIVITY_CONFIGS) by (simpl; tauto).
  assert (Ha : isNaN (avgTempOf mildDay) = false) by (vm_compute; reflexivity).
  split; [exact Hc|]. split; [exact Ha|].
  exact (@score_in_range mildDay outdoor_sightseeing Hc Ha).
Defined.

(** C6: the activities of the result that have one and the same score are, in
    order, the first ones of the activities with that score in table order
    (skiing, surfing, indoor_sightseeing, outdoor_sightseeing). *)
Theorem ties_keep_table_order (forecast : DailyForecast) (top : Z) (s : number) :
  map name (scoredActivities forecast)
  = ["skiing"; "surfing"; "indoor_sightseeing"; "outdoor_sightseeing"]
  /\ filter (tiedAt s) (rankActivitiesForDay forecast top)
     = firstn (List.length (filter (tiedAt s) (rankActivitiesForDay forecast top)))
         (filter (tiedAt s) (scoredActivities forecast)).
Proof.
  split; [reflexivity|].
  unfold rankActivitiesForDay, Arr.slice0.
  rewrite <- ranking_stable. apply filter_firstn.
Qed.

(** C7: on a day with maximum 22, minimum 18, no precipitation and wind speed
    5, [rankActivitiesForDay] with [top = 1] returns one activity,
    outdoor_sightseeing, whose score (90) is greater than 80. *)
Theorem mild_day_outdoor_first (d c : string) :
  exists a : Activity,
    rankActivitiesForDay
      {| date := d; maxTemp := ofZ 22; minTemp := ofZ 18; conditions := c;
         precipitation := ofZ 0; windSpeed := ofZ 5 |} 1 = [a]
    /\ name a = "outdoor_sightseeing"
    /\ suitabilityScore a = ofZ 90
    /\ gt (suitabilityScore a) (ofZ 80) = true.
Proof.
  eexists. split; [vm_compute; reflexivity|].
  repeat split.
Qed.

(** C10, as stated, fails at [top = -4]: the result is the empty array. *)
Lemma rank_minus_four_empty : rankActivitiesForDay mildDay (-4) = [].
Proof. reflexivity. Qed.

(** C10 (amended): for [-4 <= top <= -1], [rankActivitiesForDay] returns the
    first [4 + top] activities of the sorted ranking (which is what
    [top = 4] returns); the result is empty exactly when [top = -4]. *)
Theorem rank_negative_top (forecast : DailyForecast) (top : Z) :
  -4 <= top <= -1 ->
  rankActivitiesForDay forecast 4 = ranking forecast
  /\ rankActivitiesForDay forecast top
     = firstn (Z.to_nat (4 + top)) (ranking forecast)
  /\ Z.of_nat (List.length (rankActivitiesForDay forecast top)) = 4 + top
  /\ (rankActivitiesForDay forecast top = [] <-> top = -4).
Proof.
  intros H. unfold rankActivitiesForDay.
  assert (E4 : Arr.slice0 (ranking forecast) 4 = ranking forecast).
  { unfold Arr.slice0. rewrite ranking_length. apply firstn_all2.
    rewrite ranking_length. simpl. lia. }
  rewrite E4, slice0_negative by lia. rewrite ranking_length.
  assert (L : List.length (firstn (Z.to_nat (Z.of_nat 4 + top)) (ranking forecast))
              = Z.to_nat (4 + top)).
  { rewrite length_firstn, ranking_length. lia. }
  split; [reflexivity|]. split; [reflexivity|]. split; [rewrite L; lia|].
  split.
  - intros E. rewrite E in L. change (0%nat = Z.to_nat (4 + top)) in L. lia.
  - intros ->. reflexivity.
Qed.

(** C10 (amended) at the mild day and [top = -1]: three activities. *)
Lemma rank_negative_top_witness :
  -4 <= -1 <= -1
  /\ Z.of_nat (List.length (rankActivitiesForDay mildDay (-1))) = 3.
Proof.
  assert (H : -4 <= -1 <= -1) by lia.
  split; [exact H|].
  exact (proj1 (proj2 (proj2 (@rank_negative_top mildDay (-1) H)))).
Defined.

(** ** Facts about strings *)

Lemma append_assoc (a b c : string) : (a ++ b) ++ c = a ++ (b ++ c).
Proof. induction a as [|x a IH]; simpl; [reflexivity | rewrite IH; reflexivity]. Qed.

Lemma chars_append (a b : string) :
  Str.chars (a ++ b) = (Str.chars a ++ Str.chars b)%list.
Proof. induction a as [|x a IH]; simpl; [reflexivity | rewrite IH; reflexivity]. Qed.

Lemma lacks_append (c : ascii) (a b : string) :
  Str.lacks c (a ++ b) = Str.lacks c a && Str.lacks c b.
Proof.
  unfold Str.lacks. rewrite chars_append, existsb_app, negb_orb. reflexivity.
Qed.

Lemma lacks_cons (c x : ascii) (s : string) :
  Str.lacks c (String x s) = negb (Ascii.eqb c x) && Str.lacks c s.
Proof. unfold Str.lacks. simpl. apply negb_orb. Qed.

Lemma split_lacks (c : ascii) (s : string) :
  Str.lacks c s = true -> Str.split c s = [s].
Proof.
  induction s as [|x s IH]; [reflexivity|].
  rewrite lacks_cons. intros H. apply andb_prop in H as [Hx Hs].
  simpl. rewrite Ascii.eqb_sym. apply negb_true_iff in Hx. rewrite Hx.
  rewrite (IH Hs). reflexivity.
Qed.

Lemma split_at (c : ascii) (a rest : string) :
  Str.lacks c a = true ->
  Str.split c (a ++ String c rest) = a :: Str.split c rest.
Proof.
  induction a as [|x a IH].
  - intros _. simpl. rewrite Ascii.eqb_refl. reflexivity.
  - rewrite lacks_cons. intros H. apply andb_prop in H as [Hx Ha].
    simpl. rewrite Ascii.eqb_sym. apply negb_true_iff in Hx. rewrite Hx.
    rewrite (IH Ha). reflexivity.
Qed.

(** The parts of an id "a,b:name:country". *)
Lemma split_id (a b name country : string) :
  Str.lacks ":" a = true -> Str.lacks ":" b = true ->
  Str.lacks ":" name = true -> Str.lacks ":" country = true ->
  Str.split ":" (a ++ "," ++ b ++ ":" ++ name ++ ":" ++ country)
  = [a ++ "," ++ b; name; country].
Proof.
  intros Ha Hb Hn Hc.
  change (a ++ "," ++ b ++ ":" ++ name ++ ":" ++ country)
    with (a ++ (String "," b ++ String ":" (name ++ String ":" country))).
  rewrite <- append_assoc.
  rewrite split_at by (rewrite lacks_append, lacks_cons, Ha, Hb; reflexivity).
  rewrite split_at by exact Hn. rewrite split_lacks by exact Hc. reflexivity.
Qed.

Lemma split_coords (a b : string) :
  Str.lacks "," a = true -> Str.lacks "," b = true ->
  Str.split "," (a ++ "," ++ b) = [a; b].
Proof.
  intros Ha Hb. change (a ++ "," ++ b) with (a ++ String "," b).
  rewrite split_at by exact Ha. rewrite split_lacks by exact Hb. reflexivity.
Qed.

(** [parseCityId] on an id of the shape "a,b:name:country". *)
Lemma parseCityId_shape (a b name country : string) :
  Str.lacks ":" a = true -> Str.lacks "," a = true ->
  Str.lacks ":" b = true -> Str.lacks "," b = true ->
  Str.lacks ":" name = true -> Str.lacks ":" country = true ->
  parseCityId (a ++ "," ++ b ++ ":" ++ name ++ ":" ++ country)
  = if falsy (Some a) || falsy (Some b) then
      Throw (newError COORDS_FORMAT_MESSAGE
               ERROR_CODES.USER_ERROR.INVALID_COORDINATES)
    else if negb (isValidCoordinate (NumStr.parseFloat a) (NumStr.parseFloat b))
    then Throw (newError COORDS_RANGE_MESSAGE
                  ERROR_CODES.USER_ERROR.INVALID_COORDINATES)
    else Ok {| p_latitude := NumStr.parseFloat a;
               p_longitude := NumStr.parseFloat b;
               p_name := name; p_country := country |}.
Proof.
  intros Ha Ha' Hb Hb' Hn Hc. unfold parseCityId.
  rewrite split_id by assumption. rewrite split_coords by assumption.
  reflexivity.
Qed.

(** ** The string of a number has no separator of the id *)

Lemma plain_append (a b : string) : plain (a ++ b) = plain a && plain b.
Proof. unfold plain. rewrite chars_append. apply forallb_app. Qed.

Lemma plain_cons (x : ascii) (s : string) :
  plain (String x s) = plainChar x && plain s.
Proof. reflexivity. Qed.

Lemma plain_take (n : nat) (s : string) :
  plain s = true -> plain (Str.take n s) = true.
Proof.
  revert s. induction n as [|n IH]; intros [|x s]; try reflexivity.
  unfold plain. simpl. intros H. apply andb_prop in H as [Hx Hs].
  rewrite Hx. apply IH, Hs.
Qed.

Lemma plain_skip (n : nat) (s : string) :
  plain s = true -> plain (Str.skip n s) = true.
Proof.
  revert s. induction n as [|n IH]; intros [|x s]; try (intros H; exact H).
  unfold plain. simpl. intros H. apply andb_prop in H as [_ Hs]. apply IH, Hs.
Qed.

Lemma plain_replicate (n : nat) (a : ascii) :
  plainChar a = true -> plain (Str.replicate n a) = true.
Proof.
  intros H. induction n as [|n IH]; [reflexivity|].
  unfold plain in *. simpl. rewrite H. exact IH.
Qed.

Lemma plain_digitChar (d : Z) :
  0 <= d < 10 -> plainChar (NumStr.digitChar d) = true.
Proof.
  intros H.
  assert (E : d = 0 \/ d = 1 \/ d = 2 \/ d = 3 \/ d = 4 \/ d = 5 \/ d = 6
              \/ d = 7 \/ d = 8 \/ d = 9) by lia.
  repeat (destruct E as [-> | E]; [reflexivity|]). subst d. reflexivity.
Qed.

Lemma plain_decimalFuel (fuel : nat) :
  forall (n : Z) (acc : string),
    plain acc = true -> plain (NumStr.decimalFuel fuel n acc) = true.
Proof.
  induction fuel as [|fuel IH]; intros n acc H; simpl; [exact H|].
  assert (H' : plain (String (NumStr.digitChar (n mod 10)) acc) = true).
  { rewrite plain_cons, H, plain_digitChar; [reflexivity|].
    apply Z.mod_pos_bound. lia. }
  destruct (n <? 10); [exact H' | apply IH, H'].
Qed.

Lemma plain_decimal (n : Z) : plain (NumStr.decimal n) = true.
Proof. apply plain_decimalFuel. reflexivity. Qed.

Lemma plain_layout (k s n : Z) : plain (NumStr.layout k s n) = true.
Proof.
  unfold NumStr.layout.
  pose proof (plain_decimal s) as Hs.
  assert (Hd : plain "." = true) by reflexivity.
  assert (He : plain "e" = true) by reflexivity.
  assert (Hz : plain "0." = true) by reflexivity.
  assert (Hg : forall e : Z, plain (if e <? 0 then "-" else "+") = true)
    by (intros e; destruct (e <? 0); reflexivity).
  assert (Hr : forall j, plain (Str.replicate j "0") = true)
    by (intros j; apply plain_replicate; reflexivity).
  assert (Ht : forall j, plain (Str.take j (NumStr.decimal s)) = true)
    by (intros j; apply plain_take, Hs).
  assert (Hk : forall j, plain (Str.skip j (NumStr.decimal s)) = true)
    by (intros j; apply plain_skip, Hs).
  destruct ((k <=? n) && (n <=? 21));
    [rewrite plain_append, Hs, Hr; reflexivity|].
  destruct ((0 <? n) && (n <=? 21));
    [rewrite !plain_append, Ht, Hd, Hk; reflexivity|].
  destruct ((-6 <? n) && (n <=? 0));
    [rewrite !plain_append, Hz, Hr, Hs; reflexivity|].
  cbv zeta.
  destruct (k =? 1);
    rewrite !plain_append, ?Hs, ?Ht, ?Hk, ?Hd, ?He, ?Hg, ?plain_decimal;
    reflexivity.
Qed.

Lemma plain_positiveToString (m : positive) (e : Z) :
  plain (NumStr.positiveToString m e) = true.
Proof.
  unfold NumStr.positiveToString.
  destruct (if 0 <=? e then _ else _) as [vn vd].
  destruct (NumStr.shortest _ _ _ _ _ _) as [[k s] n].
  apply plain_layout.
Qed.

Lemma plain_toString (x : number) : plain (NumStr.toString x) = true.
Proof.
  destruct x as [s|[|]| |[|] m e];
    [reflexivity | reflexivity | reflexivity | reflexivity | | ];
    unfold NumStr.toString.
  - change ("-" ++ NumStr.positiveToString m e)
      with (String "-" (NumStr.positiveToString m e)).
    rewrite plain_cons. apply plain_positiveToString.
  - apply plain_positiveToString.
Qed.

Lemma plain_lacks (s : string) :
  plain s = true -> Str.lacks ":" s = true /\ Str.lacks "," s = true.
Proof.
  unfold plain, Str.lacks. induction (Str.chars s) as [|x l IH].
  - intros _. split; reflexivity.
  - cbn [forallb existsb]. intros H.
    apply andb_prop in H as [Hx Hl]. destruct (IH Hl) as [I1 I2].
    unfold plainChar in Hx. apply andb_prop in Hx as [H1 H2].
    rewrite !negb_orb, I1, I2, (Ascii.eqb_sym ":" x), (Ascii.eqb_sym "," x), H1, H2.
    split; reflexivity.
Qed.

(** ** Rounding to the nearest number *)

Lemma halve (N D : Z) :
  0 <= N -> 0 < D ->
  N / (2 * D) = (N / D) / 2
  /\ N mod (2 * D) = D * ((N / D) mod 2) + N mod D.
Proof.
  intros HN HD.
  pose proof (Z.div_mod N D ltac:(lia)) as E.
  pose proof (Z.mod_pos_bound N D HD) as B.
  pose proof (Z.div_mod (N / D) 2 ltac:(lia)) as E2.
  pose proof (Z.mod_pos_bound (N / D) 2 ltac:(lia)) as B2.
  assert (N = (2 * D) * ((N / D) / 2) + (D * ((N / D) mod 2) + N mod D)) by nia.
  split.
  - symmetry. apply Z.div_unique with (r := D * ((N / D) mod 2) + N mod D);
      [left; nia | assumption].
  - symmetry. apply Z.mod_unique with (q := (N / D) / 2);
      [left; nia | assumption].
Qed.

Lemma shr_1_recOf (N D : Z) :
  0 <= N -> 0 < D -> shr_1 (recOf N D) = recOf N (2 * D).
Proof.
  intros HN HD. unfold recOf.
  destruct (halve HN HD) as [Hq Hr]. rewrite Hq, Hr.
  pose proof (Z.mod_pos_bound N D HD) as B.
  pose proof (Z.div_pos N D HN HD) as Q.
  set (q := N / D) in *. set (r := N mod D) in *.
  unfold locOf.
  destruct q as [|[p|p|]|p]; try lia.
  - change (0 / 2) with 0. change (0 mod 2) with 0.
    replace (D * 0 + r) with r by lia.
    destruct (r =? 0) eqn:R; [reflexivity|].
    apply Z.eqb_neq in R.
    replace (2 * r ?= 2 * D) with Lt by (symmetry; apply Z.compare_lt_iff; lia).
    destruct (2 * r ?= D); reflexivity.
  - replace (Z.pos p~1 / 2) with (Z.pos p)
      by (apply Z.div_unique with (r := 1); lia).
    replace (Z.pos p~1 mod 2) with 1
      by (apply Z.mod_unique with (q := Z.pos p); lia).
    replace (D * 1 + r =? 0) with false by (symmetry; apply Z.eqb_neq; lia).
    destruct (r =? 0) eqn:R.
    + apply Z.eqb_eq in R.
      replace (2 * (D * 1 + r) ?= 2 * D) with Eq
        by (symmetry; apply Z.compare_eq_iff; lia).
      reflexivity.
    + apply Z.eqb_neq in R.
      replace (2 * (D * 1 + r) ?= 2 * D) with Gt
        by (symmetry; apply Z.compare_gt_iff; lia).
      destruct (2 * r ?= D); reflexivity.
  - replace (Z.pos p~0 / 2) with (Z.pos p)
      by (apply Z.div_unique with (r := 0); lia).
    replace (Z.pos p~0 mod 2) with 0
      by (apply Z.mod_unique with (q := Z.pos p); lia).
    replace (D * 0 + r) with r by lia.
    destruct (r =? 0) eqn:R; [reflexivity|].
    apply Z.eqb_neq in R.
    replace (2 * r ?= 2 * D) with Lt by (symmetry; apply Z.compare_lt_iff; lia).
    destruct (2 * r ?= D); reflexivity.
  - change (1 / 2) with 0. change (1 mod 2) with 1.
    replace (D * 1 + r =? 0) with false by (symmetry; apply Z.eqb_neq; lia).
    destruct (r =? 0) eqn:R.
    + apply Z.eqb_eq in R.
      replace (2 * (D * 1 + r) ?= 2 * D) with Eq
        by (symmetry; apply Z.compare_eq_iff; lia).
      reflexivity.
    + apply Z.eqb_neq in R.
      replace (2 * (D * 1 + r) ?= 2 * D) with Gt
        by (symmetry; apply Z.compare_gt_iff; lia).
      destruct (2 * r ?= D); reflexivity.
Qed.

Lemma iter_shr_1_recOf (p : positive) (N : Z) :
  0 <= N -> forall D, 0 < D ->
  iter_pos shr_1 p (recOf N D) = recOf N (D * 2 ^ Z.pos p).
Proof.
  intros HN. induction p as [p IH|p IH|]; intros D HD; cbn [iter_pos].
  - rewrite shr_1_recOf by assumption.
    assert (P : 0 < 2 ^ Z.pos p) by (apply Z.pow_pos_nonneg; lia).
    rewrite IH by lia. rewrite IH by nia.
    f_equal. replace (Z.pos p~1) with (Z.pos p + Z.pos p + 1) by lia.
    rewrite !Z.pow_add_r by lia. change (2 ^ 1) with 2. ring.
  - assert (P : 0 < 2 ^ Z.pos p) by (apply Z.pow_pos_nonneg; lia).
    rewrite IH by lia. rewrite IH by nia.
    f_equal. replace (Z.pos p~0) with (Z.pos p + Z.pos p) by lia.
    rewrite !Z.pow_add_r by lia. ring.
  - rewrite shr_1_recOf by assumption. f_equal. change (2 ^ 1) with 2. ring.
Qed.

(** Shifting right by [n] places divides by [2 ^ n]. *)
Lemma shr_recOf (N D e n : Z) :
  0 <= N -> 0 < D -> 0 <= n ->
  shr (recOf N D) e n = (recOf N (D * 2 ^ n), e + n).
Proof.
  intros HN HD Hn. unfold shr. destruct n as [|p|p]; try lia.
  - rewrite Z.pow_0_r, Z.mul_1_r, Z.add_0_r. reflexivity.
  - rewrite iter_shr_1_recOf by assumption. reflexivity.
Qed.

Lemma shr_m_recOf (N D : Z) : shr_m (recOf N D) = N / D.
Proof. unfold recOf. destruct (locOf D (N mod D)) as [|[ | | ]]; reflexivity. Qed.

Lemma loc_recOf (N D : Z) :
  loc_of_shr_record (recOf N D) = locOf D (N mod D).
Proof. unfold recOf. destruct (locOf D (N mod D)) as [|[ | | ]]; reflexivity. Qed.

(** The number of binary digits. *)
Lemma digits2_pos_spec (p : positive) :
  2 ^ (Z.pos (digits2_pos p) - 1) <= Z.pos p < 2 ^ Z.pos (digits2_pos p).
Proof.
  induction p as [p IH|p IH|]; cbn [digits2_pos].
  - rewrite Pos2Z.inj_succ. replace (Z.succ (Z.pos (digits2_pos p)) - 1)
      with (Z.succ (Z.pos (digits2_pos p) - 1)) by lia.
    rewrite !Z.pow_succ_r by lia. lia.
  - rewrite Pos2Z.inj_succ. replace (Z.succ (Z.pos (digits2_pos p)) - 1)
      with (Z.succ (Z.pos (digits2_pos p) - 1)) by lia.
    rewrite !Z.pow_succ_r by lia. lia.
  - change (2 ^ (1 - 1)) with 1. change (2 ^ 1) with 2. lia.
Qed.

Lemma Zdigits2_spec (q : Z) :
  0 < q -> 2 ^ (Zdigits2 q - 1) <= q < 2 ^ Zdigits2 q /\ 0 < Zdigits2 q.
Proof.
  destruct q as [|p|p]; try lia. intros _. cbn [Zdigits2].
  split; [apply digits2_pos_spec | lia].
Qed.

Lemma fexp_eq (t : Z) : fexp prec emax t = Z.max (t - 53) (-1074).
Proof. reflexivity. Qed.

(** Powers of two compare like their exponents. *)
Lemma pow2_lt (a b : Z) : 0 <= a -> 2 ^ a < 2 ^ b -> a < b.
Proof.
  intros Ha H. destruct (Z_lt_le_dec a b) as [L|L]; [exact L|].
  destruct (Z_lt_le_dec b 0) as [B|B].
  - rewrite (Z.pow_neg_r 2 b B) in H.
    pose proof (Z.pow_pos_nonneg 2 a ltac:(lia) Ha). lia.
  - pose proof (Z.pow_le_mono_r 2 b a ltac:(lia) L). lia.
Qed.

Lemma pow2_le_lt (a b : Z) : 0 <= b -> 2 ^ a < 2 ^ b -> a < b.
Proof.
  intros Hb H. destruct (Z_lt_le_dec a b) as [L|L]; [exact L|].
  pose proof (Z.pow_le_mono_r 2 b a ltac:(lia) L). lia.
Qed.

(** What the rounding returns for a fraction that lies just below or at a
    number: [N / D * 2 ^ e'] is at most [m * 2 ^ e] and above it minus a
    quarter of [2 ^ e]. *)
Lemma round_to (sx : bool) (m : positive) (e N D e' : Z) :
  bounded prec emax m e = true ->
  0 <= N -> 0 < D -> e' <= e ->
  e' <= fexp prec emax (Zdigits2 (N / D) + e') ->
  N <= Z.pos m * 2 ^ (e - e') * D ->
  (4 * Z.pos m - 1) * 2 ^ (e - e') * D < 4 * N ->
  binary_round_aux prec emax sx (N / D) e' (locOf D (N mod D))
  = S754_finite sx m e.
Proof.
  intros Hb HN HD He Hs H2 H3.
  unfold bounded, canonical_mantissa in Hb.
  apply andb_prop in Hb as [Hc Hmax].
  apply Z.eqb_eq in Hc. rewrite fexp_eq in Hc.
  pose proof (digits2_pos_spec m) as Dm.
  set (dm := Z.pos (digits2_pos m)) in *.
  assert (Hdm : 0 < dm) by (unfold dm; lia).
  set (g := e - e') in *.
  assert (Hg : 0 <= g) by (unfold g; lia).
  assert (HP : 0 < 2 ^ g) by (apply Z.pow_pos_nonneg; lia).
  pose proof (Z.div_mod N D ltac:(lia)) as Edm.
  pose proof (Z.mod_pos_bound N D HD) as Bdm.
  pose proof (Z.div_pos N D HN HD) as Hq.
  set (q := N / D) in *.
  set (e1 := fexp prec emax (Zdigits2 q + e')) in *.
  assert (E1 : e1 = Z.max (Zdigits2 q + e' - 53) (-1074)) by reflexivity.
  (* e1 is e or e - 1 *)
  assert (A : e1 <= e).
  { destruct (Z.eq_dec q 0) as [Q0|Q0].
    - rewrite Q0 in E1. cbn [Zdigits2] in E1. lia.
    - destruct (@Zdigits2_spec q ltac:(lia)) as [[Dq1 Dq2] Dq0].
      assert (q < 2 ^ (dm + g)).
      { rewrite Z.pow_add_r by lia. nia. }
      assert (Zdigits2 q - 1 < dm + g).
      { apply pow2_le_lt; [lia|]. lia. }
      lia. }
  assert (B : e = -1074 \/ (dm = 53 /\ 2 ^ 51 * 2 ^ g <= q /\ -1074 < e)).
  { destruct (Z.eq_dec e (-1074)) as [E|E]; [left; exact E | right].
    assert (dm = 53) by lia. split; [assumption|]. split; [|lia].
    assert (2 ^ 52 <= Z.pos m).
    { replace 52 with (dm - 1) by lia. apply Dm. }
    destruct (Z_lt_le_dec q (2 ^ 51 * 2 ^ g)) as [L|L]; [|exact L].
    exfalso.
    assert (4 * (q + 1) * D <= 2 ^ 53 * 2 ^ g * D).
    { change (2 ^ 53) with (4 * 2 ^ 51). nia. }
    assert ((2 ^ 54 - 1) * 2 ^ g * D <= (4 * Z.pos m - 1) * 2 ^ g * D).
    { change (2 ^ 54) with (4 * 2 ^ 52). nia. }
    assert (4 * N < 4 * (q + 1) * D) by nia.
    assert (2 ^ 53 * 2 ^ g * D < (2 ^ 54 - 1) * 2 ^ g * D).
    { assert (0 < 2 ^ g * D) by nia.
      change (2 ^ 53) with 9007199254740992.
      change (2 ^ 54) with 18014398509481984. nia. }
    lia. }
  assert (C : e1 = e \/ (e1 = e - 1 /\ dm = 53 /\ -1074 < e
                         /\ 2 ^ 51 * 2 ^ g <= q < 2 ^ 52 * 2 ^ g)).
  { destruct B as [B|(B1 & B2 & B3)]; [left; lia|].
    destruct (@Zdigits2_spec q ltac:(nia)) as [[Dq1 Dq2] Dq0].
    assert (51 + g < Zdigits2 q).
    { apply pow2_le_lt; [lia|]. rewrite Z.pow_add_r by lia. lia. }
    destruct (Z.eq_dec e1 e) as [E|E]; [left; exact E | right].
    assert (Zdigits2 q = 52 + g) by (unfold g in *; lia).
    split; [unfold g in *; lia|]. split; [assumption|]. split; [assumption|].
    split; [assumption|].
    replace (2 ^ 52 * 2 ^ g) with (2 ^ Zdigits2 q); [exact Dq2|].
    replace (Zdigits2 q) with (52 + g) by lia.
    rewrite Z.pow_add_r by lia. reflexivity. }
  unfold binary_round_aux, shr_fexp.
  fold q. fold e1.
  change (shr_record_of_loc q (locOf D (N mod D))) with (recOf N D).
  rewrite shr_recOf by lia.
  rewrite shr_m_recOf, loc_recOf.
  replace (e' + (e1 - e')) with e1 by lia.
  destruct C as [C|(C1 & C2 & C3 & C4 & C5)].
  - (* the same exponent *)
    rewrite C. fold g.
    assert (R : round_nearest_even (N / (D * 2 ^ g))
                  (locOf (D * 2 ^ g) (N mod (D * 2 ^ g))) = Z.pos m).
    { destruct (Z.eq_dec N (Z.pos m * 2 ^ g * D)) as [X|X].
      - replace (N / (D * 2 ^ g)) with (Z.pos m)
          by (apply Z.div_unique with (r := 0); [left; nia | nia]).
        replace (N mod (D * 2 ^ g)) with 0
          by (apply Z.mod_unique with (q := Z.pos m); [left; nia | nia]).
        reflexivity.
      - replace (N / (D * 2 ^ g)) with (Z.pos m - 1)
          by (apply Z.div_unique with (r := N - (Z.pos m - 1) * (D * 2 ^ g));
              [left; nia | nia]).
        replace (N mod (D * 2 ^ g)) with (N - (Z.pos m - 1) * (D * 2 ^ g))
          by (apply Z.mod_unique with (q := Z.pos m - 1); [left; nia | nia]).
        unfold locOf.
        replace (N - (Z.pos m - 1) * (D * 2 ^ g) =? 0) with false
          by (symmetry; apply Z.eqb_neq; nia).
        replace (2 * (N - (Z.pos m - 1) * (D * 2 ^ g)) ?= D * 2 ^ g) with Gt
          by (symmetry; apply Z.compare_gt_iff; nia).
        cbn [round_nearest_even]. lia. }
    rewrite R. cbn [Zdigits2 shr_record_of_loc].
    rewrite fexp_eq. fold dm. rewrite Hc.
    replace (e - e) with 0 by lia. cbn [shr shr_m].
    rewrite Hmax. reflexivity.
  - (* one exponent below: the number is a power of two *)
    rewrite C1.
    assert (Hg1 : 1 <= g) by (unfold g in *; lia).
    replace (e - 1 - e') with (g - 1) by (unfold g; lia).
    assert (P2 : 2 ^ g = 2 * 2 ^ (g - 1)).
    { replace g with (Z.succ (g - 1)) at 1 by lia.
      rewrite Z.pow_succ_r by lia. reflexivity. }
    assert (HP' : 0 < 2 ^ (g - 1)) by (apply Z.pow_pos_nonneg; lia).
    set (P' := 2 ^ (g - 1)) in *.
    assert (M : Z.pos m = 2 ^ 52).
    { assert (2 ^ 52 <= Z.pos m).
      { replace 52 with (dm - 1) by lia. apply Dm. }
      assert (N < 2 ^ 52 * 2 ^ g * D) by nia.
      assert ((4 * Z.pos m - 1) * (2 ^ g * D) < 4 * 2 ^ 52 * (2 ^ g * D)) by nia.
      assert (0 < 2 ^ g * D) by nia.
      assert (4 * Z.pos m - 1 < 4 * 2 ^ 52) by nia.
      lia. }
    assert (NX : N < Z.pos m * 2 ^ g * D) by (rewrite M; nia).
    assert (R : round_nearest_even (N / (D * P'))
                  (locOf (D * P') (N mod (D * P'))) = Z.pos m~0).
    { replace (N / (D * P')) with (2 * Z.pos m - 1)
        by (apply Z.div_unique with (r := N - (2 * Z.pos m - 1) * (D * P'));
            [left; nia | nia]).
      replace (N mod (D * P')) with (N - (2 * Z.pos m - 1) * (D * P'))
        by (apply Z.mod_unique with (q := 2 * Z.pos m - 1); [left; nia | nia]).
      unfold locOf.
      replace (N - (2 * Z.pos m - 1) * (D * P') =? 0) with false
        by (symmetry; apply Z.eqb_neq; nia).
      replace (2 * (N - (2 * Z.pos m - 1) * (D * P')) ?= D * P') with Gt
        by (symmetry; apply Z.compare_gt_iff; nia).
      cbn [round_nearest_even]. lia. }
    rewrite R. cbn [Zdigits2 digits2_pos shr_record_of_loc].
    rewrite fexp_eq. rewrite Pos2Z.inj_succ. fold dm.
    replace (Z.max (Z.succ dm + (e - 1) - 53) (-1074) - (e - 1)) with 1 by lia.
    cbn [shr iter_pos shr_1 shr_m].
    replace (e - 1 + 1) with e by lia.
    rewrite Hmax. reflexivity.
Qed.

Lemma div_eucl_eq (a b : Z) : Z.div_eucl a b = (a / b, a mod b).
Proof. unfold Z.div, Z.modulo. destruct (Z.div_eucl a b). reflexivity. Qed.

(** The decimal [s * 10 ^ (- j)] reads as the number [m * 2 ^ e] when it
    lies at most a quarter of [2 ^ e] below it. *)
Lemma ofDec_near (m : positive) (e s j : Z) :
  bounded prec emax m e = true ->
  e <= 0 -> 0 < s -> 0 < j ->
  s * 2 ^ (- e) <= Z.pos m * 10 ^ j ->
  (4 * Z.pos m - 1) * 10 ^ j < 4 * (s * 2 ^ (- e)) ->
  ofDec s (- j) = S754_finite false m e.
Proof.
  intros Hb He Hs Hj H2 H3.
  assert (Hb' := Hb). unfold bounded, canonical_mantissa in Hb'.
  apply andb_prop in Hb' as [Hc _]. apply Z.eqb_eq in Hc. rewrite fexp_eq in Hc.
  pose proof (digits2_pos_spec m) as Dm.
  set (dm := Z.pos (digits2_pos m)) in *.
  assert (Hdm : 0 < dm) by (unfold dm; lia).
  assert (HT : 0 < 10 ^ j) by (apply Z.pow_pos_nonneg; lia).
  assert (HE : 0 < 2 ^ (- e)) by (apply Z.pow_pos_nonneg; lia).
  destruct (@Zdigits2_spec s Hs) as [[Ds1 Ds2] Ds0].
  destruct (@Zdigits2_spec (10 ^ j) HT) as [[Dt1 Dt2] Dt0].
  unfold ofDec. destruct s as [|p|p]; try lia.
  replace (0 <=? - j) with false by (symmetry; apply Z.leb_gt; lia).
  rewrite Z.opp_involutive. cbn [Z.abs]. change (Z.pos p <? 0) with false.
  unfold SFdiv_core_binary.
  set (d1 := Zdigits2 (Z.pos p)) in *. set (d2 := Zdigits2 (10 ^ j)) in *.
  set (T := 10 ^ j) in *.
  replace (d1 + 0 - (d2 + 0)) with (d1 - d2) by lia.
  replace (0 - 0) with 0 by lia.
  set (e' := Z.min (fexp prec emax (d1 - d2)) 0).
  assert (E' : e' = Z.min (Z.max (d1 - d2 - 53) (-1074)) 0) by reflexivity.
  clearbody e'.
  replace (0 - e') with (- e') by lia.
  assert (He'0 : e' <= 0) by lia.
  assert (HE' : 0 < 2 ^ (- e')) by (apply Z.pow_pos_nonneg; lia).
  assert (Hm' : match - e' with
                | 0 => Z.pos p
                | Z.pos _ => Z.shiftl (Z.pos p) (- e')
                | Z.neg _ => 0
                end = Z.pos p * 2 ^ (- e')).
  { pose proof (Z.shiftl_mul_pow2 (Z.pos p) (- e') ltac:(lia)) as S.
    remember (- e') as u eqn:U.
    destruct u as [|u|u]; [rewrite Z.pow_0_r; lia | exact S | lia]. }
  rewrite Hm'. set (N := Z.pos p * 2 ^ (- e')).
  rewrite div_eucl_eq.
  assert (L : new_location T (N mod T) = locOf T (N mod T)).
  { unfold new_location. unfold T at 1. rewrite Z.even_pow by lia.
    reflexivity. }
  rewrite L.
  (* the exponent of the quotient is at most that of the number *)
  assert (Hd : d1 - d2 <= dm + e).
  { assert (2 ^ (d1 - 1) * 2 ^ (- e) < 2 ^ dm * 2 ^ d2).
    { assert (2 ^ (d1 - 1) * 2 ^ (- e) <= Z.pos p * 2 ^ (- e))
        by (apply Z.mul_le_mono_nonneg_r; lia).
      assert (Z.pos m * T < 2 ^ dm * 2 ^ d2)
        by (apply Z.mul_lt_mono_nonneg; lia).
      lia. }
    rewrite <- !Z.pow_add_r in H by lia.
    apply pow2_le_lt in H; lia. }
  assert (He' : e' <= e) by (clear - Hd Hc E'; lia).
  assert (X : 2 ^ (- e') = 2 ^ (e - e') * 2 ^ (- e)).
  { rewrite <- Z.pow_add_r by lia. f_equal. lia. }
  assert (HG : 0 < 2 ^ (e - e')) by (apply Z.pow_pos_nonneg; lia).
  assert (HN : 0 <= N) by (unfold N; apply Z.mul_nonneg_nonneg; lia).
  apply round_to; try assumption; try lia.
  - (* the quotient has 53 digits at least, or the exponent is the least *)
    rewrite fexp_eq.
    destruct (Z.eq_dec e' (-1074)) as [M|M]; [lia|].
    assert (e' <= d1 - d2 - 53) by lia.
    assert (2 ^ 52 <= N / T).
    { apply Z.div_le_lower_bound; [lia|].
      assert (2 ^ (52 + d2) <= N).
      { unfold N.
        assert (2 ^ (d1 - 1) * 2 ^ (- e') <= Z.pos p * 2 ^ (- e')) by nia.
        rewrite <- Z.pow_add_r in H0 by lia.
        assert (2 ^ (52 + d2) <= 2 ^ (d1 - 1 + - e'))
          by (apply Z.pow_le_mono_r; lia).
        lia. }
      rewrite Z.pow_add_r in H0 by lia. nia. }
    destruct (@Zdigits2_spec (N / T) ltac:(lia)) as [[Dq1 Dq2] Dq0].
    assert (52 < Zdigits2 (N / T)) by (apply pow2_le_lt; lia).
    lia.
  - unfold N. rewrite X.
    replace (Z.pos p * (2 ^ (e - e') * 2 ^ (- e)))
      with (2 ^ (e - e') * (Z.pos p * 2 ^ (- e))) by ring.
    replace (Z.pos m * 2 ^ (e - e') * T)
      with (2 ^ (e - e') * (Z.pos m * T)) by ring.
    apply Z.mul_le_mono_nonneg_l; lia.
  - unfold N. rewrite X.
    replace (4 * (Z.pos p * (2 ^ (e - e') * 2 ^ (- e))))
      with (2 ^ (e - e') * (4 * (Z.pos p * 2 ^ (- e)))) by ring.
    replace ((4 * Z.pos m - 1) * 2 ^ (e - e') * T)
      with (2 ^ (e - e') * ((4 * Z.pos m - 1) * T)) by ring.
    apply Z.mul_lt_mono_pos_l; lia.
Qed.

(** ** Decimal digits *)

Lemma digitChar_spec (d : Z) :
  0 <= d < 10 ->
  isDigit (digitChar d) = true /\ digitVal (digitChar d) = d
  /\ Str.isWhiteSpace (digitChar d) = false
  /\ Ascii.eqb (digitChar d) "." = false
  /\ Ascii.eqb (digitChar d) "-" = false
  /\ Ascii.eqb (digitChar d) "+" = false
  /\ Ascii.eqb (digitChar d) "I" = false.
Proof.
  intros H.
  assert (C : d = 0 \/ d = 1 \/ d = 2 \/ d = 3 \/ d = 4 \/ d = 5 \/ d = 6
              \/ d = 7 \/ d = 8 \/ d = 9) by lia.
  repeat destruct C as [C|C]; subst d; vm_compute; repeat split.
Qed.

Lemma decimalFuel_digitsAcc (k : nat) :
  forall (fuel : nat) (n : Z) (acc : string),
    (k <= fuel)%nat -> (1 <= k)%nat ->
    0 <= n < 10 ^ Z.of_nat k ->
    ((1 < k)%nat -> 10 ^ (Z.of_nat k - 1) <= n) ->
    decimalFuel fuel n acc = digitsAcc k n acc.
Proof.
  induction k as [|k IH]; intros fuel n acc Hf Hk Hn Hlo; [lia|].
  destruct fuel as [|fuel]; [lia|].
  cbn [decimalFuel digitsAcc].
  destruct k as [|k].
  - change (10 ^ Z.of_nat 1) with 10 in Hn.
    replace (n <? 10) with true by (symmetry; apply Z.ltb_lt; lia).
    reflexivity.
  - assert (P : 10 ^ (Z.of_nat (S (S k)) - 1) = 10 * 10 ^ (Z.of_nat (S k) - 1)).
    { replace (Z.of_nat (S (S k)) - 1) with (Z.succ (Z.of_nat (S k) - 1)) by lia.
      apply Z.pow_succ_r. lia. }
    assert (P' : 10 ^ Z.of_nat (S (S k)) = 10 * 10 ^ Z.of_nat (S k)).
    { replace (Z.of_nat (S (S k))) with (Z.succ (Z.of_nat (S k))) by lia.
      apply Z.pow_succ_r. lia. }
    assert (P0 : 0 < 10 ^ (Z.of_nat (S k) - 1))
      by (apply Z.pow_pos_nonneg; lia).
    specialize (Hlo ltac:(lia)).
    replace (n <? 10) with false by (symmetry; apply Z.ltb_ge; lia).
    apply IH; try lia.
    + split; [apply Z.div_pos; lia|].
      apply Z.div_lt_upper_bound; lia.
    + intros _. apply Z.div_le_lower_bound; lia.
Qed.

(** The number of decimal digits of a positive integer. *)
Lemma digits_exist (n : Z) :
  0 < n -> exists k : nat, (1 <= k)%nat /\ 10 ^ (Z.of_nat k - 1) <= n < 10 ^ Z.of_nat k.
Proof.
  intros H.
  assert (G : forall b : nat, forall n, 0 < n < 10 ^ Z.of_nat b ->
              exists k : nat, (1 <= k)%nat
                /\ 10 ^ (Z.of_nat k - 1) <= n < 10 ^ Z.of_nat k).
  { induction b as [|b IH]; intros n' Hn.
    - change (10 ^ Z.of_nat 0) with 1 in Hn. lia.
    - destruct (Z_lt_le_dec n' (10 ^ Z.of_nat b)) as [L|L].
      + apply IH. lia.
      + exists (S b). split; [lia|].
        replace (Z.of_nat (S b) - 1) with (Z.of_nat b) by lia. lia. }
  apply (G (Z.to_nat n)). split; [lia|].
  rewrite Z2Nat.id by lia.
  assert (forall t, 0 <= t -> t < 10 ^ t).
  { intros t Ht. apply Z.pow_gt_lin_r; lia. }
  apply H0. lia.
Qed.

Lemma decimal_digitsAcc (k : nat) (n : Z) :
  (1 <= k)%nat -> 10 ^ (Z.of_nat k - 1) <= n < 10 ^ Z.of_nat k ->
  decimal n = digitsAcc k n EmptyString.
Proof.
  intros Hk Hn. unfold decimal.
  assert (P0 : 0 < 10 ^ (Z.of_nat k - 1)) by (apply Z.pow_pos_nonneg; lia).
  apply decimalFuel_digitsAcc; try lia.
  assert (Z.of_nat k - 1 <= Z.log2 n).
  { apply Z.log2_le_pow2; [lia|].
    assert (2 ^ (Z.of_nat k - 1) <= 10 ^ (Z.of_nat k - 1))
      by (apply Z.pow_le_mono_l; lia).
    lia. }
  lia.
Qed.

Lemma digitsAcc_app (k : nat) :
  forall (s : Z) (acc : string),
    digitsAcc k s acc = digitsAcc k s EmptyString ++ acc.
Proof.
  induction k as [|k IH]; intros s acc; cbn [digitsAcc]; [reflexivity|].
  rewrite IH. rewrite (IH _ (String _ EmptyString)).
  rewrite append_assoc. reflexivity.
Qed.

Lemma digitsAcc_length (k : nat) :
  forall (s : Z) (acc : string),
    String.length (digitsAcc k s acc) = (k + String.length acc)%nat.
Proof.
  induction k as [|k IH]; intros s acc; cbn [digitsAcc]; [reflexivity|].
  rewrite IH. cbn [String.length]. lia.
Qed.

Lemma readDigits_digitsAcc (k : nat) :
  forall (s : Z) (rest : string) (a c : Z),
    0 <= s < 10 ^ Z.of_nat k ->
    readDigits (digitsAcc k s rest) a c
    = readDigits rest (a * 10 ^ Z.of_nat k + s) (c + Z.of_nat k).
Proof.
  induction k as [|k IH]; intros s rest a c Hs; cbn [digitsAcc].
  - change (10 ^ Z.of_nat 0) with 1 in *. f_equal; lia.
  - assert (P : 10 ^ Z.of_nat (S k) = 10 * 10 ^ Z.of_nat k).
    { replace (Z.of_nat (S k)) with (Z.succ (Z.of_nat k)) by lia.
      apply Z.pow_succ_r. lia. }
    pose proof (Z.div_mod s 10 ltac:(lia)) as E.
    pose proof (Z.mod_pos_bound s 10 ltac:(lia)) as B.
    rewrite IH.
    + cbn [readDigits].
      destruct (digitChar_spec B) as (D1 & D2 & _). rewrite D1, D2.
      f_equal; [rewrite P; lia | lia].
    + split; [apply Z.div_pos; lia|].
      apply Z.div_lt_upper_bound; lia.
Qed.

(** The first character of a non-empty run of digits. *)
Lemma digitsAcc_head (k : nat) :
  forall (s : Z) (acc : string),
    (1 <= k)%nat -> 0 <= s ->
    exists d t, 0 <= d < 10 /\ digitsAcc k s acc = String (digitChar d) t.
Proof.
  induction k as [|k IH]; intros s acc Hk Hs; [lia|].
  cbn [digitsAcc]. destruct k as [|k].
  - exists (s mod 10). eexists. split; [apply Z.mod_pos_bound; lia | reflexivity].
  - apply IH; [lia | apply Z.div_pos; lia].
Qed.

(** A run of [a + b] digits splits into its first [a] and its last [b]. *)
Lemma digitsAcc_split (a b : nat) :
  forall (s : Z) (acc : string),
    0 <= s ->
    digitsAcc (a + b) s acc
    = digitsAcc a (s / 10 ^ Z.of_nat b) (digitsAcc b (s mod 10 ^ Z.of_nat b) acc).
Proof.
  induction b as [|b IH]; intros s acc Hs.
  - rewrite Nat.add_0_r. change (10 ^ Z.of_nat 0) with 1.
    rewrite Z.div_1_r. reflexivity.
  - rewrite Nat.add_succ_r. cbn [digitsAcc].
    assert (P : 10 ^ Z.of_nat (S b) = 10 * 10 ^ Z.of_nat b).
    { replace (Z.of_nat (S b)) with (Z.succ (Z.of_nat b)) by lia.
      apply Z.pow_succ_r. lia. }
    assert (P0 : 0 < 10 ^ Z.of_nat b) by (apply Z.pow_pos_nonneg; lia).
    rewrite IH by (apply Z.div_pos; lia).
    rewrite P.
    rewrite Z.div_div by lia.
    replace ((s mod (10 * 10 ^ Z.of_nat b)) / 10)
      with ((s / 10) mod 10 ^ Z.of_nat b).
    + replace ((s mod (10 * 10 ^ Z.of_nat b)) mod 10) with (s mod 10).
      * reflexivity.
      * rewrite Z.rem_mul_r by lia.
        rewrite (Z.mul_comm 10), Z.mod_add by lia.
        rewrite Z.mod_mod by lia. reflexivity.
    + rewrite Z.rem_mul_r by lia.
      rewrite (Z.mul_comm 10), Z.div_add by lia.
      rewrite (Z.div_small (s mod 10) 10) by (apply Z.mod_pos_bound; lia).
      reflexivity.
Qed.

Lemma take_app (a b : string) :
  Str.take (String.length a) (a ++ b) = a.
Proof. induction a as [|x a IH]; [destruct b; reflexivity|]. simpl. rewrite IH. reflexivity. Qed.

Lemma skip_app (a b : string) :
  Str.skip (String.length a) (a ++ b) = b.
Proof. induction a as [|x a IH]; [destruct b; reflexivity|]. simpl. exact IH. Qed.

(** ** Reading the string of a number *)

Lemma replicate_zero (z : nat) (acc : string) :
  Str.replicate z "0" ++ acc = digitsAcc z 0 acc.
Proof.
  revert acc. induction z as [|z IH]; intros acc; [reflexivity|].
  cbn [digitsAcc]. change (0 / 10) with 0. change (digitChar (0 mod 10)) with "0"%char.
  rewrite <- IH.
  clear IH. induction z as [|z IH]; [reflexivity|].
  cbn [Str.replicate append]. f_equal. exact IH.
Qed.

Lemma ofDec_nonneg_exp (s z : Z) :
  0 < s -> 0 <= z ->
  ofDec s z = binary_normalize prec emax (s * 10 ^ z) 0 false.
Proof.
  intros Hs Hz. unfold ofDec. destruct s as [|p|p]; try lia.
  replace (0 <=? z) with true by (symmetry; apply Z.leb_le; lia).
  reflexivity.
Qed.

(** [parseFloat] on a string that begins with a digit, with and without a
    minus sign in front. *)
Lemma parseFloat_digit_first (d : Z) (t : string) :
  0 <= d < 10 ->
  parseFloat (String (digitChar d) t)
  = match readUnsigned (String (digitChar d) t) with
    | None => NaN
    | Some (m, k) => ofDec m k
    end
  /\ parseFloat (String "-" (String (digitChar d) t))
     = match readUnsigned (String (digitChar d) t) with
       | None => NaN
       | Some (m, k) => SFopp (ofDec m k)
       end.
Proof.
  intros Hd. destruct (digitChar_spec Hd) as (_ & _ & W & _ & M & P & I).
  assert (Pf : prefix "Infinity" (String (digitChar d) t) = false).
  { cbn [prefix]. destruct (ascii_dec "I" (digitChar d)) as [E|E]; [|reflexivity].
    rewrite <- E in I. discriminate. }
  split.
  - unfold parseFloat. cbn [Str.trimStart]. rewrite W, M, P. cbv iota beta.
    rewrite Pf.
    destruct (readUnsigned _) as [[m k]|]; reflexivity.
  - unfold parseFloat. cbn [Str.trimStart].
    change (Str.isWhiteSpace "-") with false. cbv iota beta.
    rewrite Ascii.eqb_refl. cbv iota beta. rewrite Pf.
    destruct (readUnsigned _) as [[m k]|]; reflexivity.
Qed.

(** The exponent part that [layout] writes. *)
Lemma readExponent_written (e : Z) :
  e <> 0 ->
  readExponent
    (String "e" ((if e <? 0 then "-" else "+") ++ decimal (Z.abs e))) = e.
Proof.
  intros He.
  destruct (@digits_exist (Z.abs e) ltac:(lia)) as [ke [Hk Hke]].
  rewrite (decimal_digitsAcc Hk Hke).
  unfold readExponent. rewrite Ascii.eqb_refl. cbn [orb].
  destruct (e <? 0) eqn:S.
  - cbn [append]. rewrite Ascii.eqb_refl. cbv iota beta.
    rewrite readDigits_digitsAcc by lia. cbn [readDigits].
    replace (0 + Z.of_nat ke =? 0) with false by (symmetry; apply Z.eqb_neq; lia).
    apply Z.ltb_lt in S. lia.
  - cbn [append]. replace (Ascii.eqb "+" "-") with false by reflexivity.
    rewrite Ascii.eqb_refl. cbv iota beta.
    rewrite readDigits_digitsAcc by lia. cbn [readDigits].
    replace (0 + Z.of_nat ke =? 0) with false by (symmetry; apply Z.eqb_neq; lia).
    apply Z.ltb_ge in S. lia.
Qed.

Lemma append_empty_r (s : string) : s ++ EmptyString = s.
Proof. induction s as [|x s IH]; simpl; congruence. Qed.

Lemma take_length_app (n : nat) (a b : string) :
  String.length a = n -> Str.take n (a ++ b) = a.
Proof. intros <-. apply take_app. Qed.

Lemma skip_length_app (n : nat) (a b : string) :
  String.length a = n -> Str.skip n (a ++ b) = b.
Proof. intros <-. apply skip_app. Qed.

Lemma pow10_pos (t : Z) : 0 <= t -> 0 < 10 ^ t.
Proof. intros H. apply Z.pow_pos_nonneg; lia. Qed.

(** What [readUnsigned] finds in the layout of [k] digits [s] at position
    [n], and how the layout begins. *)
Lemma readUnsigned_layout (k s n : Z) :
  1 <= k -> 10 ^ (k - 1) <= s < 10 ^ k ->
  (exists m' k',
     readUnsigned (layout k s n) = Some (m', k')
     /\ ofDec m' k' = ofDec s (n - k))
  /\ exists d t, 0 <= d < 10 /\ layout k s n = String (digitChar d) t.
Proof.
  intros Hk Hs.
  set (kk := Z.to_nat k).
  assert (Kk : Z.of_nat kk = k) by (unfold kk; lia).
  assert (Hkk : (1 <= kk)%nat) by lia.
  assert (Hs0 : 0 < s).
  { pose proof (pow10_pos (t := k - 1) ltac:(lia)). lia. }
  assert (Ds : decimal s = digitsAcc kk s EmptyString).
  { apply decimal_digitsAcc; [exact Hkk | rewrite Kk; exact Hs]. }
  unfold layout. rewrite Ds.
  destruct ((k <=? n) && (n <=? 21)) eqn:B1.
  { (* an integer *)
    apply andb_prop in B1 as [B1 B1']. apply Z.leb_le in B1, B1'.
    set (z := Z.to_nat (n - k)).
    assert (Zz : Z.of_nat z = n - k) by (unfold z; lia).
    rewrite <- (append_empty_r (Str.replicate z "0")).
    rewrite replicate_zero. rewrite <- digitsAcc_app.
    split.
    - unfold readUnsigned.
      rewrite readDigits_digitsAcc by (rewrite Kk; lia).
      rewrite readDigits_digitsAcc
        by (split; [lia | apply pow10_pos; lia]).
      cbn [readDigits].
      replace (0 + Z.of_nat kk + Z.of_nat z =? 0) with false
        by (symmetry; apply Z.eqb_neq; lia).
      eexists. eexists. split; [reflexivity|].
      rewrite Zz.
      assert (0 < 10 ^ (n - k)) by (apply pow10_pos; lia).
      rewrite ofDec_nonneg_exp by nia.
      rewrite ofDec_nonneg_exp by lia.
      f_equal. rewrite Z.pow_0_r. lia.
    - apply digitsAcc_head; lia. }
  destruct ((0 <? n) && (n <=? 21)) eqn:B2.
  { (* digits around a point *)
    apply andb_prop in B2 as [B2 B2']. apply Z.ltb_lt in B2. apply Z.leb_le in B2'.
    assert (Hn : n < k).
    { destruct (Z_lt_le_dec n k) as [L|L]; [exact L|].
      replace (k <=? n) with true in B1 by (symmetry; apply Z.leb_le; lia).
      replace (n <=? 21) with true in B1 by (symmetry; apply Z.leb_le; lia).
      discriminate. }
    set (a := Z.to_nat n). set (b := Z.to_nat (k - n)).
    assert (Za : Z.of_nat a = n) by (unfold a; lia).
    assert (Zb : Z.of_nat b = k - n) by (unfold b; lia).
    assert (Kab : kk = (a + b)%nat) by lia.
    assert (Pb : 0 < 10 ^ Z.of_nat b) by (apply pow10_pos; lia).
    assert (Sp : digitsAcc kk s EmptyString
                 = digitsAcc a (s / 10 ^ Z.of_nat b) EmptyString
                   ++ digitsAcc b (s mod 10 ^ Z.of_nat b) EmptyString).
    { rewrite Kab, digitsAcc_split by lia. apply digitsAcc_app. }
    assert (La : String.length (digitsAcc a (s / 10 ^ Z.of_nat b) EmptyString) = a).
    { rewrite digitsAcc_length. cbn [String.length]. lia. }
    rewrite Sp.
    rewrite (@take_length_app _ _ _ La), (@skip_length_app _ _ _ La).
    rewrite <- digitsAcc_app.
    assert (Hhi : 0 <= s / 10 ^ Z.of_nat b < 10 ^ Z.of_nat a).
    { split; [apply Z.div_pos; lia|].
      apply Z.div_lt_upper_bound; [lia|].
      rewrite <- Z.pow_add_r by lia.
      replace (Z.of_nat b + Z.of_nat a) with k by lia. lia. }
    split.
    - unfold readUnsigned.
      rewrite readDigits_digitsAcc by exact Hhi.
      cbn [append readDigits].
      replace (isDigit ".") with false by reflexivity.
      rewrite Ascii.eqb_refl.
      rewrite readDigits_digitsAcc by (apply Z.mod_pos_bound; lia).
      cbn [readDigits].
      replace ((0 + Z.of_nat a =? 0) && (0 + Z.of_nat b =? 0)) with false
        by (symmetry; apply andb_false_iff; left; apply Z.eqb_neq; lia).
      eexists. eexists. split; [reflexivity|].
      cbn [readExponent].
      pose proof (Z.div_mod s (10 ^ Z.of_nat b) ltac:(lia)).
      f_equal; lia.
    - apply digitsAcc_head; [lia | apply Z.div_pos; lia]. }
  destruct ((-6 <? n) && (n <=? 0)) eqn:B3.
  { (* zeros after the point *)
    apply andb_prop in B3 as [B3 B3']. apply Z.ltb_lt in B3. apply Z.leb_le in B3'.
    set (z := Z.to_nat (- n)).
    assert (Zz : Z.of_nat z = - n) by (unfold z; lia).
    split.
    - unfold readUnsigned. cbn [append readDigits].
      replace (isDigit "0") with true by reflexivity.
      replace (isDigit ".") with false by reflexivity.
      rewrite Ascii.eqb_refl.
      rewrite replicate_zero.
      rewrite readDigits_digitsAcc by (split; [lia | apply pow10_pos; lia]).
      rewrite readDigits_digitsAcc by (rewrite Kk; lia).
      cbn [readDigits].
      replace ((0 + 1 =? 0) && (0 + Z.of_nat z + Z.of_nat kk =? 0)) with false
        by reflexivity.
      eexists. eexists. split; [reflexivity|].
      change (digitVal "0") with 0. cbn [readExponent].
      f_equal; lia.
    - exists 0. eexists. split; [lia | reflexivity]. }
  (* an exponent *)
  assert (He : n - 1 <> 0).
  { intros E. replace n with 1 in B2 by lia. discriminate. }
  set (es := (if n - 1 <? 0 then "-" else "+") ++ decimal (Z.abs (n - 1))).
  pose proof (readExponent_written He) as RE. fold es in RE.
  destruct (k =? 1) eqn:K1.
  { apply Z.eqb_eq in K1.
    assert (kk = 1%nat) by lia.
    split.
    - unfold readUnsigned.
      change (digitsAcc kk s EmptyString ++ "e" ++ es)
        with (digitsAcc kk s EmptyString ++ String "e" es).
      rewrite <- digitsAcc_app.
      rewrite readDigits_digitsAcc by (rewrite Kk; lia).
      cbn [readDigits].
      replace (isDigit "e") with false by reflexivity.
      replace (Ascii.eqb "e" ".") with false by reflexivity.
      replace (0 + Z.of_nat kk =? 0) with false
        by (symmetry; apply Z.eqb_neq; lia).
      eexists. eexists. split; [reflexivity|].
      rewrite RE. f_equal; lia.
    - change (digitsAcc kk s EmptyString ++ "e" ++ es)
        with (digitsAcc kk s EmptyString ++ String "e" es).
      rewrite <- digitsAcc_app. apply digitsAcc_head; lia. }
  apply Z.eqb_neq in K1.
  set (b := Z.to_nat (k - 1)).
  assert (Zb : Z.of_nat b = k - 1) by (unfold b; lia).
  assert (Kab : kk = (1 + b)%nat) by lia.
  assert (Pb : 0 < 10 ^ Z.of_nat b) by (apply pow10_pos; lia).
  assert (Sp : digitsAcc kk s EmptyString
               = digitsAcc 1 (s / 10 ^ Z.of_nat b) EmptyString
                 ++ digitsAcc b (s mod 10 ^ Z.of_nat b) EmptyString).
  { rewrite Kab, digitsAcc_split by lia. apply digitsAcc_app. }
  assert (La : String.length (digitsAcc 1 (s / 10 ^ Z.of_nat b) EmptyString)
               = 1%nat) by reflexivity.
  rewrite Sp.
  change (Z.to_nat 1) with 1%nat.
  rewrite (@take_length_app _ _ _ La), (@skip_length_app _ _ _ La).
  change (digitsAcc b (s mod 10 ^ Z.of_nat b) EmptyString ++ "e" ++ es)
    with (digitsAcc b (s mod 10 ^ Z.of_nat b) EmptyString ++ String "e" es).
  rewrite <- (digitsAcc_app b).
  rewrite <- digitsAcc_app.
  assert (Hhi : 0 <= s / 10 ^ Z.of_nat b < 10 ^ Z.of_nat 1).
  { split; [apply Z.div_pos; lia|].
    apply Z.div_lt_upper_bound; [lia|].
    rewrite <- Z.pow_add_r by lia.
    replace (Z.of_nat b + Z.of_nat 1) with k by lia. lia. }
  split.
  - unfold readUnsigned.
    rewrite readDigits_digitsAcc by exact Hhi.
    cbn [append readDigits].
    replace (isDigit ".") with false by reflexivity.
    rewrite Ascii.eqb_refl.
    rewrite readDigits_digitsAcc by (apply Z.mod_pos_bound; lia).
    cbn [readDigits].
    replace (isDigit "e") with false by reflexivity.
    replace ((0 + Z.of_nat 1 =? 0) && (0 + Z.of_nat b =? 0)) with false
      by reflexivity.
    eexists. eexists. split; [reflexivity|].
    rewrite RE.
    pose proof (Z.div_mod s (10 ^ Z.of_nat b) ltac:(lia)).
    f_equal; lia.
  - apply digitsAcc_head; [lia | apply Z.div_pos; lia].
Qed.

(** [parseFloat] reads the layout of the digits [s] at position [n] as the
    decimal [s * 10 ^ (n - k)]. *)
Lemma parseFloat_layout (k s n : Z) :
  1 <= k -> 10 ^ (k - 1) <= s < 10 ^ k ->
  parseFloat (layout k s n) = ofDec s (n - k)
  /\ parseFloat ("-" ++ layout k s n) = SFopp (ofDec s (n - k)).
Proof.
  intros Hk Hs.
  destruct (readUnsigned_layout n Hk Hs)
    as [[m' [k' [R E]]] [d [t [Hd L]]]].
  destruct (parseFloat_digit_first t Hd) as [P1 P2].
  rewrite L in *. cbn [append]. rewrite P1, P2, R, E. split; reflexivity.
Qed.

(** ** The digits that [toString] finds *)

Lemma leadingZeros_spec (vn vd : Z) :
  0 < vn -> 0 < vd ->
  forall (fuel : nat) (j : Z),
    1 <= j -> (1 <= fuel)%nat ->
    vn * 10 ^ (j - 1) < vd ->
    vd <= vn * 10 ^ (j + Z.of_nat fuel - 1) ->
    j <= leadingZeros fuel vn vd j
    /\ vd <= vn * 10 ^ (leadingZeros fuel vn vd j)
    /\ vn * 10 ^ (leadingZeros fuel vn vd j - 1) < vd.
Proof.
  intros Hn Hd. induction fuel as [|fuel IH]; intros j Hj Hf Hlo Hhi; [lia|].
  cbn [leadingZeros].
  destruct (vd <=? vn * 10 ^ j) eqn:E.
  - apply Z.leb_le in E. split; [lia|]. split; assumption.
  - apply Z.leb_gt in E.
    destruct fuel as [|fuel].
    + replace (j + Z.of_nat 1 - 1) with j in Hhi by lia. lia.
    + assert (A1 : vn * 10 ^ (j + 1 - 1) < vd)
        by (replace (j + 1 - 1) with j by lia; exact E).
      assert (A2 : vd <= vn * 10 ^ (j + 1 + Z.of_nat (S fuel) - 1)).
      { replace (j + 1 + Z.of_nat (S fuel) - 1)
          with (j + Z.of_nat (S (S fuel)) - 1) by lia.
        exact Hhi. }
      destruct (IH (j + 1) ltac:(lia) ltac:(lia) A1 A2) as (I1 & I2 & I3).
      split; [lia|]. split; assumption.
Qed.

(** The decimal position of a positive fraction. *)
Lemma position_spec (vn vd : Z) :
  0 < vn -> 0 < vd -> vd <= vn * 10 ^ 400 ->
  (1 <= position vn vd
   /\ 10 ^ (position vn vd - 1) * vd <= vn < 10 ^ position vn vd * vd)
  \/ (position vn vd <= 0
      /\ vd <= vn * 10 ^ (1 - position vn vd)
      /\ vn * 10 ^ (- position vn vd) < vd).
Proof.
  intros Hn Hd Hb. unfold position.
  destruct (vd <=? vn) eqn:E.
  - apply Z.leb_le in E. left.
    assert (Q : 0 < vn / vd) by (apply Z.div_str_pos; lia).
    destruct (digits_exist Q) as [k [Hk Hq]].
    rewrite (decimal_digitsAcc Hk Hq), digitsAcc_length.
    cbn [String.length]. rewrite Nat.add_0_r.
    split; [lia|].
    pose proof (Z.div_mod vn vd ltac:(lia)).
    pose proof (Z.mod_pos_bound vn vd Hd).
    assert (0 < 10 ^ (Z.of_nat k - 1)) by (apply pow10_pos; lia).
    nia.
  - apply Z.leb_gt in E. right.
    assert (A1 : vn * 10 ^ (1 - 1) < vd)
      by (change (10 ^ (1 - 1)) with 1; lia).
    assert (A2 : vd <= vn * 10 ^ (1 + Z.of_nat 400 - 1))
      by (change (1 + Z.of_nat 400 - 1) with 400; exact Hb).
    destruct (@leadingZeros_spec vn vd Hn Hd 400%nat 1 ltac:(lia) ltac:(lia)
                A1 A2) as (I1 & I2 & I3).
    set (J := leadingZeros 400 vn vd 1) in *.
    split; [lia|]. split.
    + replace (1 - (1 - J)) with J by lia. exact I2.
    + replace (- (1 - J)) with (J - 1) by lia. exact I3.
Qed.

Lemma shortestAt_sound (x : number) (vn vd n k s n' : Z) :
  shortestAt x vn vd n k = Some (s, n') -> readsBack x k s n' = true.
Proof.
  unfold shortestAt. destruct (scaled vn vd n k) as [N D].
  cbv zeta.
  destruct (if N / D + 1 =? 10 ^ k then (10 ^ (k - 1), n + 1)
            else (N / D + 1, n)) as [hs hn].
  cbn [fst snd].
  destruct (readsBack x k (N / D) n) eqn:Lo;
    destruct (readsBack x k hs hn) eqn:Hi; cbn [andb].
  - match goal with |- (if ?c then _ else _) = _ -> _ => destruct c end;
      intros E; inversion E; subst; assumption.
  - intros E; inversion E; subst. exact Lo.
  - intros E; inversion E; subst. exact Hi.
  - discriminate.
Qed.

Lemma shortestAt_complete (x : number) (vn vd n k : Z) :
  readsBack x k (fst (scaled vn vd n k) / snd (scaled vn vd n k)) n = true ->
  shortestAt x vn vd n k <> None.
Proof.
  unfold shortestAt. destruct (scaled vn vd n k) as [N D].
  cbn [fst snd]. cbv zeta. intros Lo. rewrite Lo. cbn [andb].
  repeat match goal with
         | |- (if ?c then _ else _) <> _ => destruct c
         end; discriminate.
Qed.

Lemma shortest_found (x : number) (vn vd n : Z) :
  forall (fuel : nat) (k : Z),
    (1 <= fuel)%nat ->
    shortestAt x vn vd n (k + Z.of_nat fuel - 1) <> None ->
    exists k' s n',
      shortest fuel x vn vd n k = (k', s, n')
      /\ readsBack x k' s n' = true /\ k <= k'.
Proof.
  induction fuel as [|fuel IH]; intros k Hf Hlast; [lia|].
  cbn [shortest].
  destruct (shortestAt x vn vd n k) as [[s n']|] eqn:E.
  - exists k, s, n'. split; [reflexivity|].
    split; [apply (shortestAt_sound _ _ _ _ _ E) | lia].
  - destruct fuel as [|fuel].
    + replace (k + Z.of_nat 1 - 1) with k in Hlast by lia. congruence.
    + assert (A : shortestAt x vn vd n (k + 1 + Z.of_nat (S fuel) - 1) <> None).
      { replace (k + 1 + Z.of_nat (S fuel) - 1)
          with (k + Z.of_nat (S (S fuel)) - 1) by lia.
        exact Hlast. }
      destruct (IH (k + 1) ltac:(lia) A) as [k' [s [n' (I1 & I2 & I3)]]].
      exists k', s, n'. split; [exact I1|]. split; [exact I2 | lia].
Qed.

Lemma bounded_facts (m : positive) (e : Z) :
  bounded prec emax m e = true ->
  -1074 <= e /\ Z.pos m < 2 ^ 53.
Proof.
  intros Hb. unfold bounded, canonical_mantissa in Hb.
  apply andb_prop in Hb as [Hc _]. apply Z.eqb_eq in Hc. rewrite fexp_eq in Hc.
  pose proof (digits2_pos_spec m) as [_ Dm].
  split; [lia|].
  assert (2 ^ Z.pos (digits2_pos m) <= 2 ^ 53)
    by (apply Z.pow_le_mono_r; lia).
  lia.
Qed.

(** With twenty-one digits the decimal just below a number reads back as
    the number. *)
Lemma last_candidate (m : positive) (e : Z) :
  bounded prec emax m e = true -> e < 0 ->
  shortestAt (S754_finite false m e) (Z.pos m) (2 ^ (- e))
    (position (Z.pos m) (2 ^ (- e))) 21 <> None.
Proof.
  intros Hb He.
  destruct (@bounded_facts m e Hb) as [Hmin Hm].
  set (vn := Z.pos m) in *. set (vd := 2 ^ (- e)).
  assert (Hvn : 0 < vn) by (unfold vn; lia).
  assert (Hvd : 0 < vd) by (apply Z.pow_pos_nonneg; lia).
  assert (Hvd1 : 1 <= vd) by lia.
  assert (Hvd2 : vd <= 2 ^ 1074) by (apply Z.pow_le_mono_r; lia).
  assert (C1 : 2 ^ 1074 <= 10 ^ 400) by (apply Z.leb_le; vm_compute; reflexivity).
  assert (C2 : 2 ^ 53 < 10 ^ 16) by (apply Z.ltb_lt; vm_compute; reflexivity).
  assert (C3 : 4 * 2 ^ 53 < 10 ^ 20) by (apply Z.ltb_lt; vm_compute; reflexivity).
  assert (Hb400 : vd <= vn * 10 ^ 400) by nia.
  pose proof (@position_spec vn vd Hvn Hvd Hb400) as PS.
  set (n := position vn vd) in *.
  assert (Hn : n <= 16).
  { destruct PS as [(P1 & P2 & P3)|(P1 & _)]; [|lia].
    destruct (Z_lt_le_dec 16 n) as [L|L]; [|exact L].
    assert (10 ^ 16 <= 10 ^ (n - 1)) by (apply Z.pow_le_mono_r; lia).
    nia. }
  set (j := 21 - n).
  assert (Hj : 0 < j) by (unfold j; lia).
  assert (Pj : 0 < 10 ^ j) by (apply pow10_pos; lia).
  (* the quotient and what is left *)
  pose proof (Z.div_mod (vn * 10 ^ j) vd ltac:(lia)) as Edm.
  pose proof (Z.mod_pos_bound (vn * 10 ^ j) vd Hvd) as Bdm.
  set (lo := vn * 10 ^ j / vd) in *.
  set (r := (vn * 10 ^ j) mod vd) in *.
  assert (F : 10 ^ 20 * vd <= vn * 10 ^ j < 10 ^ 21 * vd /\ 4 * vd < 10 ^ j).
  { destruct PS as [(P1 & P2 & P3)|(P1 & P2 & P3)].
    - assert (X1 : 10 ^ 20 = 10 ^ j * 10 ^ (n - 1)).
      { rewrite <- Z.pow_add_r by lia. f_equal; unfold j; lia. }
      assert (X2 : 10 ^ 21 = 10 ^ j * 10 ^ n).
      { rewrite <- Z.pow_add_r by lia. f_equal; unfold j; lia. }
      assert (0 < 10 ^ (n - 1)) by (apply pow10_pos; lia).
      rewrite X1, X2. split; [nia|].
      destruct (Z_lt_le_dec (4 * vd) (10 ^ j)) as [L|L]; [exact L|].
      exfalso.
      assert (10 ^ j * 10 ^ (n - 1) <= 4 * vd * 10 ^ (n - 1))
        by (apply Z.mul_le_mono_nonneg_r; lia).
      nia.
    - assert (X1 : 10 ^ j = 10 ^ 20 * 10 ^ (1 - n)).
      { rewrite <- Z.pow_add_r by lia. f_equal; unfold j; lia. }
      assert (X2 : 10 ^ j = 10 ^ 21 * 10 ^ (- n)).
      { rewrite <- Z.pow_add_r by lia. f_equal; unfold j; lia. }
      assert (0 < 10 ^ (1 - n)) by (apply pow10_pos; lia).
      assert (0 < 10 ^ (- n)) by (apply pow10_pos; lia).
      split; [split|].
      + rewrite X1. nia.
      + rewrite X2. nia.
      + rewrite X1. nia. }
  destruct F as [[F1 F2] F3].
  assert (L1 : 10 ^ 20 <= lo).
  { unfold lo. apply Z.div_le_lower_bound; lia. }
  assert (L2 : lo < 10 ^ 21).
  { unfold lo. apply Z.div_lt_upper_bound; lia. }
  apply shortestAt_complete. unfold scaled.
  replace (0 <=? n - 21) with false by (symmetry; apply Z.leb_gt; lia).
  cbn [fst snd]. replace (21 - n) with j by reflexivity. fold lo.
  unfold readsBack.
  replace (10 ^ (21 - 1) <=? lo) with true by (symmetry; apply Z.leb_le; exact L1).
  replace (lo <? 10 ^ 21) with true by (symmetry; apply Z.ltb_lt; exact L2).
  cbn [andb].
  replace (n - 21) with (- j) by (unfold j; lia).
  assert (0 < 10 ^ 20) by (apply pow10_pos; lia).
  rewrite (@ofDec_near m e lo j); try assumption; try (fold vd; fold vn; lia).
  apply same_refl.
Qed.

(** The string of a positive number below [2 ^ 52] reads back as the
    number, and with a minus sign in front as its opposite. *)
Lemma positiveToString_reads (m : positive) (e : Z) :
  bounded prec emax m e = true -> e < 0 ->
  parseFloat (positiveToString m e) = S754_finite false m e
  /\ parseFloat ("-" ++ positiveToString m e) = S754_finite true m e.
Proof.
  intros Hb He.
  pose proof (@last_candidate m e Hb He) as Last.
  unfold positiveToString.
  replace (0 <=? e) with false by (symmetry; apply Z.leb_gt; lia).
  destruct (@shortest_found (S754_finite false m e) (Z.pos m) (2 ^ (- e))
              (position (Z.pos m) (2 ^ (- e))) 21 1 ltac:(lia) Last)
    as [k [s [n (E & R & K)]]].
  rewrite E.
  unfold readsBack in R. apply andb_prop in R as [R R3].
  apply andb_prop in R as [R1 R2].
  apply Z.leb_le in R1. apply Z.ltb_lt in R2. apply same_eq in R3.
  destruct (@parseFloat_layout k s n ltac:(lia) (conj R1 R2)) as [P1 P2].
  rewrite P1, P2, R3. split; reflexivity.
Qed.

(** ** The string of a coordinate reads back *)

(** The string of a number below [2 ^ 52] in size reads back as the number,
    but for the sign of a zero. *)
Lemma toString_reads (x : number) :
  canonical x = true -> isFinite x = true ->
  (forall s m e, x = S754_finite s m e -> e < 0) ->
  parseFloat (toString x) = unsignedZero x.
Proof.
  intros C F E. destruct x as [s|s| |s m e]; try discriminate.
  - reflexivity.
  - specialize (E s m e eq_refl).
    destruct (@positiveToString_reads m e C E) as [P1 P2].
    cbn [toString unsignedZero]. destruct s; assumption.
Qed.

(** A number between a negative and a positive number of negative exponent
    has a negative exponent itself. *)
Lemma exponent_between (x : number) (mh ml : positive) (eh el : Z) :
  eh < 0 -> el < 0 ->
  le x (S754_finite false mh eh) = true ->
  ge x (S754_finite true ml el) = true ->
  forall s m e, x = S754_finite s m e -> e < 0.
Proof.
  intros Hh Hl L G s m e ->. unfold le, ge, SFleb, SFcompare in *.
  destruct s.
  - destruct (el ?= e) eqn:C; [| discriminate |].
    + apply Z.compare_eq_iff in C; lia.
    + apply -> Z.compare_gt_iff in C; lia.
  - destruct (e ?= eh) eqn:C; [| | discriminate].
    + apply Z.compare_eq_iff in C; lia.
    + apply -> Z.compare_lt_iff in C; lia.
Qed.

Lemma valid_exponents (latitude longitude : number) :
  isValidCoordinate latitude longitude = true ->
  isFinite latitude = true /\ isFinite longitude = true
  /\ (forall s m e, latitude = S754_finite s m e -> e < 0)
  /\ (forall s m e, longitude = S754_finite s m e -> e < 0).
Proof.
  unfold isValidCoordinate. intros H.
  apply andb_prop in H as [H H6]. apply andb_prop in H as [H H5].
  apply andb_prop in H as [H H4]. apply andb_prop in H as [H H3].
  apply andb_prop in H as [H1 H2].
  assert (E1 : ofZ 90 = S754_finite false 6333186975989760 (-46))
    by (vm_compute; reflexivity).
  assert (E2 : ofZ (-90) = S754_finite true 6333186975989760 (-46))
    by (vm_compute; reflexivity).
  assert (E3 : ofZ 180 = S754_finite false 6333186975989760 (-45))
    by (vm_compute; reflexivity).
  assert (E4 : ofZ (-180) = S754_finite true 6333186975989760 (-45))
    by (vm_compute; reflexivity).
  rewrite E1 in H4. rewrite E2 in H3. rewrite E3 in H6. rewrite E4 in H5.
  split; [|split; [|split]].
  - destruct latitude as [s|[|]| |s m e]; try reflexivity; discriminate.
  - destruct longitude as [s|[|]| |s m e]; try reflexivity; discriminate.
  - eapply exponent_between; [| | exact H4 | exact H3]; lia.
  - eapply exponent_between; [| | exact H6 | exact H5]; lia.
Qed.

Lemma valid_unsignedZero (latitude longitude : number) :
  isValidCoordinate (unsignedZero latitude) (unsignedZero longitude)
  = isValidCoordinate latitude longitude.
Proof.
  unfold isValidCoordinate, ge, le.
  destruct latitude as [s|s| |s m e], longitude as [s'|s'| |s' m' e'];
    reflexivity.
Qed.

Lemma strictEq_unsignedZero (x : number) :
  isNaN x = false -> strictEq (unsignedZero x) x = true.
Proof.
  unfold strictEq, SFeqb, SFcompare.
  destruct x as [s|[|]| |[|] m e]; try discriminate; intros _;
    try reflexivity; cbn [unsignedZero];
    rewrite Z.compare_refl, Pos.compare_cont_refl; reflexivity.
Qed.

(** The strings of valid coordinates read back as the coordinates, but for
    the sign of a zero, and none of them is empty. *)
Lemma coordinates_read (latitude longitude : number) :
  canonical latitude = true -> canonical longitude = true ->
  isValidCoordinate latitude longitude = true ->
  parseFloat (toString latitude) = unsignedZero latitude
  /\ parseFloat (toString longitude) = unsignedZero longitude
  /\ toString latitude <> EmptyString
  /\ toString longitude <> EmptyString.
Proof.
  intros C1 C2 V. destruct (valid_exponents _ _ V) as (F1 & F2 & X1 & X2).
  pose proof (toString_reads C1 F1 X1) as R1.
  pose proof (toString_reads C2 F2 X2) as R2.
  split; [exact R1|]. split; [exact R2|].
  split; intros E.
  - rewrite E in R1. destruct latitude; discriminate.
  - rewrite E in R2. destruct longitude; discriminate.
Qed.

(** ** The city-id codec *)

Lemma isValidCoordinate_validateCoordinate (lat lon : number) :
  isValidCoordinate lat lon = validateCoordinate lat lon.
Proof.
  unfold isValidCoordinate, validateCoordinate, ge.
  destruct lat as [s|[|]| |s m e], lon as [s'|[|]| |s' m' e'];
    cbn [isNaN isFinite negb andb]; try reflexivity;
    rewrite ?andb_false_r; reflexivity.
Qed.

Lemma valid_notNaN (lat lon : number) :
  isValidCoordinate lat lon = true -> isNaN lat = false /\ isNaN lon = false.
Proof.
  unfold isValidCoordinate. intros H.
  do 4 (apply andb_prop in H as [H _]). apply andb_prop in H as [H1 H2].
  split; apply negb_true_iff; assumption.
Qed.

Lemma parseFloat_empty : NumStr.parseFloat EmptyString = NaN.
Proof. reflexivity. Qed.

(** C1: the id that [searchCities] builds for a geocoding result with valid
    coordinates and colon-free name and country is decoded by [parseCityId]
    to the four fields of the result: the name and the country as they are,
    and each coordinate as its string reads back.  What its string reads
    back as is the coordinate itself but for the sign of a zero, and it is
    equal to the coordinate as a number ([===]).  The coordinates are
    binary64 numbers, as every number of the language is. *)
Theorem city_id_round_trip (r : GeocodingResult) :
  canonical (gr_latitude r) = true ->
  canonical (gr_longitude r) = true ->
  isValidCoordinate (gr_latitude r) (gr_longitude r) = true ->
  Str.lacks ":" (gr_name r) = true ->
  Str.lacks ":" (gr_country r) = true ->
  parseCityId (id (toCity r))
  = Ok {| p_latitude := NumStr.parseFloat (NumStr.toString (gr_latitude r));
          p_longitude := NumStr.parseFloat (NumStr.toString (gr_longitude r));
          p_name := gr_name r;
          p_country := gr_country r |}
  /\ NumStr.parseFloat (NumStr.toString (gr_latitude r))
     = unsignedZero (gr_latitude r)
  /\ NumStr.parseFloat (NumStr.toString (gr_longitude r))
     = unsignedZero (gr_longitude r)
  /\ strictEq (NumStr.parseFloat (NumStr.toString (gr_latitude r)))
       (gr_latitude r) = true
  /\ strictEq (NumStr.parseFloat (NumStr.toString (gr_longitude r)))
       (gr_longitude r) = true.
Proof.
  intros C1 C2 V Hn Hc.
  destruct (@coordinates_read _ _ C1 C2 V) as (Rlat & Rlon & Elat & Elon).
  destruct (valid_notNaN _ _ V) as [Nlat Nlon].
  split; [|split; [exact Rlat|split; [exact Rlon|]]].
  - unfold toCity. cbn [id].
    destruct (plain_lacks _ (plain_toString (gr_latitude r))) as [La La'].
    destruct (plain_lacks _ (plain_toString (gr_longitude r))) as [Lo Lo'].
    rewrite parseCityId_shape by assumption.
    rewrite Rlat, Rlon, valid_unsignedZero, V.
    destruct (NumStr.toString (gr_latitude r)); [contradiction|].
    destruct (NumStr.toString (gr_longitude r)); [contradiction|].
    reflexivity.
  - rewrite Rlat, Rlon. split; apply strictEq_unsignedZero; assumption.
Qed.

(** C1 at London, whose id is "51.5074,-0.1278:London:United Kingdom". *)
Lemma city_id_round_trip_witness :
  id (toCity London) = "51.5074,-0.1278:London:United Kingdom"
  /\ canonical (gr_latitude London) = true
  /\ canonical (gr_longitude London) = true
  /\ isValidCoordinate (gr_latitude London) (gr_longitude London) = true
  /\ parseCityId (id (toCity London))
     = Ok {| p_latitude := ofDec 515074 (-4);
             p_longitude := ofDec (-1278) (-4);
             p_name := "London"; p_country := "United Kingdom" |}.
Proof.
  split; [vm_compute; reflexivity|].
  split; [vm_compute; reflexivity|].
  split; [vm_compute; reflexivity|].
  split; [vm_compute; reflexivity|].
  exact (proj1 (@city_id_round_trip London eq_refl eq_refl eq_refl eq_refl
                  eq_refl)).
Defined.

(** The sign of a zero is what the id does not keep: the latitude [-0] is
    written "0" and decoded as [+0], which is equal to [-0] as a number. *)
Example negative_zero_latitude :
  parseCityId
    (id (toCity {| gr_name := "Null Island"; gr_latitude := S754_zero true;
                   gr_longitude := S754_zero false;
                   gr_feature_code := "PPL"; gr_country := "Nowhere" |}))
  = Ok {| p_latitude := S754_zero false; p_longitude := S754_zero false;
          p_name := "Null Island"; p_country := "Nowhere" |}
  /\ strictEq (S754_zero false) (S754_zero true) = true.
Proof. split; vm_compute; reflexivity. Qed.

(** C4, as stated, fails: an id that is not three colon-separated parts is
    rejected with the code INVALID_COORDINATES, the very code of the range
    failure of "999,999:Atlantis:Ocean"; no other code tells them apart. *)
Lemma format_error_code_not_distinct :
  ~ (exists e, parseCityId "invalid-format" = Throw e
               /\ code e <> Some ERROR_CODES.USER_ERROR.INVALID_COORDINATES)
  /\ (exists e1 e2,
        parseCityId "invalid-format" = Throw e1
        /\ parseCityId "999,999:Atlantis:Ocean" = Throw e2
        /\ code e1 = code e2).
Proof.
  split.
  - intros [e [E N]]. vm_compute in E. inversion E; subst. apply N. reflexivity.
  - eexists. eexists. repeat split; vm_compute; reflexivity.
Qed.

(** C4 (amended): an id that does not split on ':' into exactly three parts,
    or whose first part split on ',' lacks a non-empty first or second piece,
    is rejected with an error whose code is INVALID_COORDINATES and whose
    message is one of the two format messages, not the message of the range
    failure. *)
Theorem malformed_id_rejected (cityId : string) :
  List.length (Str.split ":" cityId) <> 3%nat
  \/ missingCoordinate cityId = true ->
  exists e,
    parseCityId cityId = Throw e
    /\ code e = Some ERROR_CODES.USER_ERROR.INVALID_COORDINATES
    /\ (message e = ID_FORMAT_MESSAGE \/ message e = COORDS_FORMAT_MESSAGE)
    /\ message e <> COORDS_RANGE_MESSAGE.
Proof.
  unfold parseCityId, missingCoordinate.
  assert (D1 : ID_FORMAT_MESSAGE <> COORDS_RANGE_MESSAGE)
    by (vm_compute; discriminate).
  assert (D2 : COORDS_FORMAT_MESSAGE <> COORDS_RANGE_MESSAGE)
    by (vm_compute; discriminate).
  destruct (Str.split ":" cityId) as [|coords [|nm [|ctry [|x rest]]]];
    intros H;
    try (eexists; repeat split; [left; reflexivity | exact D1]).
  destruct H as [H|H]; [exfalso; apply H; reflexivity|].
  rewrite H. eexists. repeat split; [right; reflexivity | exact D2].
Qed.

(** C4 (amended) at the id "invalid-format". *)
Lemma malformed_id_rejected_witness :
  List.length (Str.split ":" "invalid-format") <> 3%nat
  /\ exists e,
       parseCityId "invalid-format" = Throw e
       /\ code e = Some ERROR_CODES.USER_ERROR.INVALID_COORDINATES
       /\ (message e = ID_FORMAT_MESSAGE \/ message e = COORDS_FORMAT_MESSAGE)
       /\ message e <> COORDS_RANGE_MESSAGE.
Proof.
  assert (H : List.length (Str.split ":" "invalid-format") <> 3%nat)
    by (vm_compute; discriminate).
  split; [exact H|].
  exact (@malformed_id_rejected "invalid-format" (or_introl H)).
Defined.

(** C5, as stated, fails: the coordinate strings "12abc" and "4.5e1xyz" are
    not numeric, yet the id "12abc,4.5e1xyz:N:C" is accepted, with the
    coordinates 12 and 45: [parseFloat] reads the numeral in front of a
    string and ignores what follows it. *)
Lemma trailing_text_accepted :
  numeric "12abc" = false /\ numeric "4.5e1xyz" = false
  /\ numeric "12" = true /\ numeric "4.5e1" = true
  /\ parseCityId "12abc,4.5e1xyz:N:C"
     = Ok {| p_latitude := ofZ 12; p_longitude := ofZ 45;
             p_name := "N"; p_country := "C" |}.
Proof. repeat split; vm_compute; reflexivity. Qed.

(** C5 (amended): an id of the shape "a,b:name:country", with no colon and
    no comma in [a] and [b] and no colon in the name and the country, is
    rejected with INVALID_COORDINATES iff [parseFloat] finds no numeral in
    front of [a] or of [b] (it returns NaN), or the parsed pair is not a
    valid coordinate. *)
Theorem shaped_id_rejected_iff (a b name country : string) :
  Str.lacks ":" a = true -> Str.lacks "," a = true ->
  Str.lacks ":" b = true -> Str.lacks "," b = true ->
  Str.lacks ":" name = true -> Str.lacks ":" country = true ->
  (exists e,
     parseCityId (a ++ "," ++ b ++ ":" ++ name ++ ":" ++ country) = Throw e
     /\ code e = Some ERROR_CODES.USER_ERROR.INVALID_COORDINATES)
  <-> (isNaN (NumStr.parseFloat a) = true
       \/ isNaN (NumStr.parseFloat b) = true
       \/ validateCoordinate (NumStr.parseFloat a) (NumStr.parseFloat b)
          = false).
Proof.
  intros Ha Ha' Hb Hb' Hn Hc.
  rewrite parseCityId_shape by assumption.
  rewrite <- isValidCoordinate_validateCoordinate.
  destruct a as [|x a]; [|destruct b as [|y b]].
  - split; [intros _; left; reflexivity|].
    intros _. eexists. split; reflexivity.
  - split; [intros _; right; left; reflexivity|].
    intros _. eexists. split; reflexivity.
  - cbn [falsy orb].
    destruct (isValidCoordinate _ _) eqn:V; cbn [negb].
    + split; [intros [e [E _]]; discriminate|].
      destruct (valid_notNaN _ _ V) as [N1 N2].
      intros [H|[H|H]]; congruence.
    + split; [intros _; right; right; reflexivity|].
      intros _. eexists. split; reflexivity.
Qed.

(** C5 at the id "999,999:Atlantis:Ocean": it is rejected with
    INVALID_COORDINATES, since 999 is no latitude. *)
Lemma shaped_id_rejected_iff_witness :
  validateCoordinate (NumStr.parseFloat "999") (NumStr.parseFloat "999")
  = false
  /\ exists e,
       parseCityId "999,999:Atlantis:Ocean" = Throw e
       /\ code e = Some ERROR_CODES.USER_ERROR.INVALID_COORDINATES.
Proof.
  assert (H : validateCoordinate (NumStr.parseFloat "999")
                (NumStr.parseFloat "999") = false)
    by (vm_compute; reflexivity).
  split; [exact H|].
  exact (proj2 (@shaped_id_rejected_iff "999" "999" "Atlantis" "Ocean"
                  eq_refl eq_refl eq_refl eq_refl eq_refl eq_refl)
               (or_intror (or_intror H))).
Defined.

(** ** The geocoding adapter *)

(** C8: a query whose trimmed length is below two is rejected with
    BAD_USER_INPUT, and no request is sent. *)
Theorem short_query_rejected
    (axios_get : GeocodingRequest -> response GeocodingResponse)
    (query : string) :
  Z.of_nat (String.length (Str.trim query)) < 2 ->
  fst (searchCities axios_get query) = []
  /\ exists e,
       snd (searchCities axios_get query) = Throw e
       /\ code e = Some ERROR_CODES.USER_ERROR.BAD_USER_INPUT.
Proof.
  intros H. unfold searchCities.
  replace (Z.of_nat (String.length (Str.trim query)) <? 2) with true
    by (symmetry; apply Z.ltb_lt, H).
  rewrite orb_true_r. split; [reflexivity|].
  eexists. split; reflexivity.
Qed.

(** C8 at the query "a". *)
Lemma short_query_rejected_witness :
  Z.of_nat (String.length (Str.trim "a")) < 2
  /\ fst (searchCities noResults "a") = []
  /\ exists e,
       snd (searchCities noResults "a") = Throw e
       /\ code e = Some ERROR_CODES.USER_ERROR.BAD_USER_INPUT.
Proof.
  assert (H : Z.of_nat (String.length (Str.trim "a")) < 2)
    by (vm_compute; reflexivity).
  split; [exact H|].
  exact (@short_query_rejected noResults "a" H).
Defined.

Example empty_query_rejected :
  searchCities noResults EmptyString
  = ([], Throw (newError "Query must be at least 2 characters long"
                  ERROR_CODES.USER_ERROR.BAD_USER_INPUT)).
Proof. reflexivity. Qed.

(** C9: when the response to the request that was sent has no [results]
    field, [searchCities] returns the empty array. *)
Theorem absent_results_empty
    (axios_get : GeocodingRequest -> response GeocodingResponse)
    (query : string) (request : GeocodingRequest) (data : GeocodingResponse) :
  fst (searchCities axios_get query) = [request] ->
  axios_get request = Resolved data ->
  results data = None ->
  snd (searchCities axios_get query) = Ok [].
Proof.
  unfold searchCities.
  destruct (String.eqb query EmptyString || _); [discriminate|].
  match goal with |- context [axios_get ?rq] => set (sent := rq) end.
  intros S R N.
  assert (E : sent = request).
  { destruct (axios_get sent) as [d|err]; [destruct (results d)|];
      simpl in S; congruence. }
  rewrite E, R, N. reflexivity.
Qed.

(** C9 at the query "Nowhere" and a service that answers without results. *)
Lemma absent_results_empty_witness :
  fst (searchCities noResults "Nowhere")
  = [{| rq_url := "https://geocoding-api.open-meteo.com/v1/search";
        rq_name := "Nowhere"; rq_count := 10; rq_language := "en";
        rq_format := "json"; rq_timeout := 10000 |}]
  /\ snd (searchCities noResults "Nowhere") = Ok [].
Proof.
  split; [reflexivity|].
  apply (@absent_results_empty noResults "Nowhere"
           {| rq_url := "https://geocoding-api.open-meteo.com/v1/search";
              rq_name := "Nowhere"; rq_count := 10; rq_language := "en";
              rq_format := "json"; rq_timeout := 10000 |}
           {| results := None; generationtime_ms := ofZ 0 |});
    reflexivity.
Defined.

(** ** More about the ranking *)

Lemma sort_untouched (A : Type) (compareFn : A -> A -> number) (l : list A) :
  (forall x y, In x l -> In y l -> Arr.after compareFn x y = false) ->
  Arr.sort compareFn l = l.
Proof.
  induction l as [|x l IH]; intros H; [reflexivity|].
  simpl. rewrite IH by (intros; apply H; right; assumption).
  destruct l as [|y l]; [reflexivity|].
  simpl. rewrite H; [reflexivity | left; reflexivity | right; left; reflexivity].
Qed.

Lemma ranking_of_NaN (forecast : DailyForecast) :
  isNaN (avgTempOf forecast) = true ->
  ranking forecast = scoredActivities forecast.
Proof.
  intros Ha. unfold ranking. apply sort_untouched.
  pose proof (scored_NaN forecast Ha) as N. rewrite Forall_forall in N.
  intros x y Hx Hy. unfold Arr.after, byScoreDesc.
  rewrite (N x Hx), (N y Hy). reflexivity.
Qed.

Lemma ranking_perm (forecast : DailyForecast) :
  Permutation (ranking forecast) (scoredActivities forecast).
Proof. apply sort_perm. Qed.

Lemma score_NaN_iff (forecast : DailyForecast) (config : ActivityConfig) :
  In config ACTIVITY_CONFIGS ->
  isNaN (suitabilityScore (scoreFor forecast config))
  = isNaN (avgTempOf forecast).
Proof.
  intros Hc. destruct (isNaN (avgTempOf forecast)) eqn:Ha.
  - unfold scoreFor. rewrite score_NaN by exact Ha. reflexivity.
  - apply isScore_notNaN, scoreFor_isScore; assumption.
Qed.

Lemma ge_score_refl (x : number) : isScore x -> ge x x = true.
Proof.
  intros [n [Hn ->]]. destruct (score_facts Hn Hn) as (_ & _ & ->). lia.
Qed.

Lemma ranking_head_best (forecast : DailyForecast) :
  isNaN (avgTempOf forecast) = false ->
  exists best rest,
    ranking forecast = best :: rest
    /\ forall a, In a (scoredActivities forecast) ->
                 ge (suitabilityScore best) (suitabilityScore a) = true.
Proof.
  intros Ha.
  pose proof (ranking_length forecast) as L.
  pose proof (ranking_atLeast forecast Ha) as S.
  pose proof (ranking_perm forecast) as Pm.
  pose proof (scored_isScore forecast Ha) as Ps. rewrite Forall_forall in Ps.
  destruct (ranking forecast) as [|best rest]; [discriminate|].
  exists best, rest. split; [reflexivity|].
  intros a Ia. inversion S as [|? ? _ F]; subst. rewrite Forall_forall in F.
  apply (Permutation_in _ (Permutation_sym Pm)) in Ia.
  destruct Ia as [<-|Ia]; [|apply F, Ia].
  apply ge_score_refl, Ps.
  apply (Permutation_in _ Pm). left. reflexivity.
Qed.

Lemma prefix_append (a b : string) : prefix a (a ++ b) = true.
Proof.
  induction a as [|x a IH]; simpl; [destruct b; reflexivity|].
  destruct (ascii_dec x x) as [_|N]; [exact IH | exfalso; apply N; reflexivity].
Qed.

Lemma concat_starts (sep x : string) (rest : list string) :
  exists tail, String.concat sep (x :: rest) = x ++ tail.
Proof.
  destruct rest as [|y rest]; simpl.
  - exists EmptyString. induction x as [|c x IH]; simpl; congruence.
  - eexists. reflexivity.
Qed.

Lemma temperatureTerm_tag (config : ActivityConfig) (avgTemp : number)
    (t : tally) :
  exists tag, isTemperatureTag tag = true
              /\ snd (temperatureTerm config avgTemp t) = (snd t ++ [tag])%list.
Proof.
  unfold temperatureTerm.
  destruct (_ && _); [exists "ideal temperature"; split; reflexivity|].
  destruct (lt _ _); [exists "too cold" | exists "too warm"]; split; reflexivity.
Qed.

Lemma rainTerm_appends (config : ActivityConfig) (hasRain : bool) (t : tally) :
  exists more, snd (rainTerm config hasRain t) = (snd t ++ more)%list.
Proof.
  unfold rainTerm. destruct hasRain.
  - destruct (gt _ _); [eexists; reflexivity|].
    destruct (lt _ _); [eexists; reflexivity|].
    exists []. simpl. rewrite app_nil_r. reflexivity.
  - destruct (lt _ _); [eexists; reflexivity|].
    exists []. rewrite app_nil_r. reflexivity.
Qed.

Lemma windTerm_appends (config : ActivityConfig) (isWindy : bool) (t : tally) :
  exists more, snd (windTerm config isWindy t) = (snd t ++ more)%list.
Proof.
  unfold windTerm. destruct isWindy.
  - destruct (gt _ _); [eexists; reflexivity|].
    destruct (lt _ _); [eexists; reflexivity|].
    exists []. simpl. rewrite app_nil_r. reflexivity.
  - exists []. rewrite app_nil_r. reflexivity.
Qed.

Lemma indoorTerm_appends (config : ActivityConfig) (avgTemp : number)
    (t : tally) :
  exists more, snd (indoorTerm config avgTemp t) = (snd t ++ more)%list.
Proof.
  unfold indoorTerm.
  destruct (Str.includes _ _); [|exists []; rewrite app_nil_r; reflexivity].
  destruct (_ || _); [eexists; reflexivity|].
  exists []. rewrite app_nil_r. reflexivity.
Qed.

Lemma finalTally_reasons (config : ActivityConfig) (avgTemp : number)
    (hasRain isWindy : bool) :
  exists tag more,
    isTemperatureTag tag = true
    /\ snd (finalTally config avgTemp hasRain isWindy) = tag :: more.
Proof.
  unfold finalTally.
  destruct (temperatureTerm_tag config avgTemp (BASE_SCORE, [])) as [tag [T E1]].
  set (t1 := temperatureTerm config avgTemp (BASE_SCORE, [])) in *.
  destruct (rainTerm_appends config hasRain t1) as [m2 E2].
  set (t2 := rainTerm config hasRain t1) in *.
  destruct (windTerm_appends config isWindy t2) as [m3 E3].
  set (t3 := windTerm config isWindy t2) in *.
  destruct (indoorTerm_appends config avgTemp t3) as [m4 E4].
  exists tag, (m2 ++ m3 ++ m4)%list. split; [exact T|].
  rewrite E4, E3, E2, E1. simpl. rewrite <- !app_assoc. reflexivity.
Qed.

Lemma avgTemp_NaN_iff (forecast : DailyForecast) :
  isNaN (avgTempOf forecast)
  = isNaN (maxTemp forecast) || isNaN (minTemp forecast)
    || oppositeInfinities (maxTemp forecast) (minTemp forecast).
Proof.
  unfold avgTempOf.
  destruct (maxTemp forecast) as [s|[|]| |s m e] eqn:Ea,
           (minTemp forecast) as [s'|[|]| |s' m' e'] eqn:Eb;
    try reflexivity;
    try (destruct s; reflexivity);
    try (destruct s'; reflexivity);
    try (destruct s, s'; reflexivity).
  all: cbn [isNaN oppositeInfinities orb].
  all: apply div_notNaN; [|reflexivity].
  all: apply add_notNaN; reflexivity.
Qed.

(** X1: when the average temperature is a number and at least one activity
    is asked for, the first activity returned has a score at least as high as
    that of every profile of the table. *)
Theorem top_choice_is_best (forecast : DailyForecast) (top : Z) :
  isNaN (avgTempOf forecast) = false ->
  1 <= top ->
  exists best rest,
    rankActivitiesForDay forecast top = best :: rest
    /\ forall config, In config ACTIVITY_CONFIGS ->
         ge (suitabilityScore best)
            (suitabilityScore (scoreFor forecast config)) = true.
Proof.
  intros Ha Ht.
  destruct (ranking_head_best forecast Ha) as [best [rest [E B]]].
  pose proof (ranking_length forecast) as L.
  unfold rankActivitiesForDay, Arr.slice0. rewrite E in *.
  replace (top <? 0) with false by (symmetry; apply Z.ltb_ge; lia).
  rewrite L.
  destruct (Z.to_nat (Z.min top (Z.of_nat 4))) as [|n] eqn:N; [lia|].
  exists best, (firstn n rest). split; [reflexivity|].
  intros config Hc. apply B. unfold scoredActivities. apply in_map, Hc.
Qed.

(** X1 on the mild day with [top = 1]. *)
Lemma top_choice_is_best_witness :
  isNaN (avgTempOf mildDay) = false
  /\ 1 <= 1
  /\ exists best rest,
       rankActivitiesForDay mildDay 1 = best :: rest
       /\ forall config, In config ACTIVITY_CONFIGS ->
            ge (suitabilityScore best)
               (suitabilityScore (scoreFor mildDay config)) = true.
Proof.
  assert (Ha : isNaN (avgTempOf mildDay) = false) by (vm_compute; reflexivity).
  assert (Ht : 1 <= 1) by lia.
  split; [exact Ha|]. split; [exact Ht|].
  exact (@top_choice_is_best mildDay 1 Ha Ht).
Defined.

(** X2: asked for four activities or more, [rankActivitiesForDay] returns
    every profile of the table exactly once: a permutation of the scored
    activities. *)
Theorem full_ranking_is_permutation (forecast : DailyForecast) (top : Z) :
  4 <= top ->
  Permutation (rankActivitiesForDay forecast top) (scoredActivities forecast)
  /\ Permutation (map name (rankActivitiesForDay forecast top))
       ["skiing"; "surfing"; "indoor_sightseeing"; "outdoor_sightseeing"].
Proof.
  intros H.
  assert (E : rankActivitiesForDay forecast top = ranking forecast).
  { unfold rankActivitiesForDay, Arr.slice0.
    replace (top <? 0) with false by (symmetry; apply Z.ltb_ge; lia).
    apply firstn_all2. rewrite ranking_length. lia. }
  rewrite E. split; [apply ranking_perm|].
  change ["skiing"; "surfing"; "indoor_sightseeing"; "outdoor_sightseeing"]
    with (map name (scoredActivities forecast)).
  apply Permutation_map, ranking_perm.
Qed.

(** X2 on the mild day with [top = 7]. *)
Lemma full_ranking_is_permutation_witness :
  4 <= 7
  /\ Permutation (rankActivitiesForDay mildDay 7) (scoredActivities mildDay)
  /\ Permutation (map name (rankActivitiesForDay mildDay 7))
       ["skiing"; "surfing"; "indoor_sightseeing"; "outdoor_sightseeing"].
Proof.
  assert (H : 4 <= 7) by lia.
  split; [exact H|]. exact (@full_ranking_is_permutation mildDay 7 H).
Defined.

(** X3: asking for more activities only appends: for [0 <= k <= k'] the
    result for [k] is the first [k] activities of the result for [k']. *)
Theorem fewer_is_prefix_of_more (forecast : DailyForecast) (k k' : Z) :
  0 <= k <= k' ->
  rankActivitiesForDay forecast k
  = firstn (Z.to_nat k) (rankActivitiesForDay forecast k').
Proof.
  intros H. unfold rankActivitiesForDay, Arr.slice0.
  replace (k <? 0) with false by (symmetry; apply Z.ltb_ge; lia).
  replace (k' <? 0) with false by (symmetry; apply Z.ltb_ge; lia).
  rewrite firstn_firstn, ranking_length. f_equal. lia.
Qed.

(** X3 on the mild day with [k = 1] and [k' = 3]. *)
Lemma fewer_is_prefix_of_more_witness :
  0 <= 1 <= 3
  /\ rankActivitiesForDay mildDay 1
     = firstn (Z.to_nat 1) (rankActivitiesForDay mildDay 3).
Proof.
  assert (H : 0 <= 1 <= 3) by lia.
  split; [exact H|]. exact (@fewer_is_prefix_of_more mildDay 1 3 H).
Defined.

(** X4: the score of every profile is NaN exactly when a temperature of the
    day is NaN or the two temperatures are infinite with opposite signs (the
    average temperature is then NaN); precipitation and wind speed, even when
    they are NaN, never make a score NaN. *)
Theorem score_nan_iff_temperature_nan (forecast : DailyForecast) :
  Forall (fun a =>
            isNaN (suitabilityScore a)
            = isNaN (maxTemp forecast) || isNaN (minTemp forecast)
              || oppositeInfinities (maxTemp forecast) (minTemp forecast))
         (scoredActivities forecast).
Proof.
  unfold scoredActivities. rewrite Forall_map, Forall_forall.
  intros config Hc. rewrite <- avgTemp_NaN_iff. apply score_NaN_iff, Hc.
Qed.

(** X5: when the average temperature is NaN the comparator ties all
    activities, the sort leaves the table order, and the first activity is
    skiing with the score NaN. *)
Theorem nan_average_keeps_table_order (forecast : DailyForecast) :
  isNaN (avgTempOf forecast) = true ->
  rankActivitiesForDay forecast 4 = scoredActivities forecast
  /\ rankActivitiesForDay forecast 1 = [scoreFor forecast skiing]
  /\ suitabilityScore (scoreFor forecast skiing) = NaN.
Proof.
  intros Ha. unfold rankActivitiesForDay.
  rewrite (ranking_of_NaN forecast Ha).
  split; [reflexivity|]. split; [reflexivity|].
  unfold scoreFor. apply score_NaN, Ha.
Qed.

(** X5 on the day whose maximal temperature is NaN. *)
Lemma nan_average_keeps_table_order_witness :
  isNaN (avgTempOf nanDay) = true
  /\ rankActivitiesForDay nanDay 4 = scoredActivities nanDay
  /\ rankActivitiesForDay nanDay 1 = [scoreFor nanDay skiing]
  /\ suitabilityScore (scoreFor nanDay skiing) = NaN.
Proof.
  assert (Ha : isNaN (avgTempOf nanDay) = true) by reflexivity.
  split; [exact Ha|]. exact (@nan_average_keeps_table_order nanDay Ha).
Defined.

(** X6: for every profile and every input the reasoning starts with one of
    the three temperature tags; the fallback "standard conditions" is never
    returned. *)
Theorem reasoning_starts_with_temperature_tag (config : ActivityConfig)
    (avgTemp : number) (hasRain isWindy : bool) (p w : number) :
  let r := reasoning (scoreActivity config avgTemp hasRain isWindy p w) in
  (prefix "ideal temperature" r || prefix "too cold" r
   || prefix "too warm" r) = true
  /\ r <> "standard conditions".
Proof.
  cbv zeta. unfold scoreActivity. cbn [reasoning].
  destruct (finalTally_reasons config avgTemp hasRain isWindy)
    as [tag [more [T E]]].
  rewrite E. unfold reasoningOf, Str.join.
  destruct (concat_starts ", " tag more) as [tail ->].
  unfold isTemperatureTag in T.
  apply orb_prop in T as [T|T]; [apply orb_prop in T as [T|T]|];
    apply String.eqb_eq in T; subst tag.
  - change ("ideal temperature" ++ tail)
      with (String "i" ("deal temperature" ++ tail)).
    cbv iota. split; [|discriminate].
    change (String "i" ("deal temperature" ++ tail))
      with ("ideal temperature" ++ tail).
    rewrite prefix_append. reflexivity.
  - change ("too cold" ++ tail) with (String "t" ("oo cold" ++ tail)).
    cbv iota. split; [|discriminate].
    change (String "t" ("oo cold" ++ tail)) with ("too cold" ++ tail).
    rewrite prefix_append, orb_true_r. reflexivity.
  - change ("too warm" ++ tail) with (String "t" ("oo warm" ++ tail)).
    cbv iota. split; [|discriminate].
    change (String "t" ("oo warm" ++ tail)) with ("too warm" ++ tail).
    rewrite prefix_append. rewrite orb_true_r. reflexivity.
Qed.

(** ** More about the city-id codec *)

Lemma split_parts_lack (c : ascii) (s : string) :
  Forall (fun p => Str.lacks c p = true) (Str.split c s).
Proof.
  induction s as [|x s IH]; simpl.
  - constructor; [reflexivity | constructor].
  - destruct (Ascii.eqb x c) eqn:E.
    + constructor; [reflexivity | exact IH].
    + destruct (Str.split c s) as [|p ps].
      * constructor; [|constructor].
        rewrite lacks_cons, Ascii.eqb_sym, E. reflexivity.
      * inversion IH; subst. constructor; [|assumption].
        rewrite lacks_cons, Ascii.eqb_sym, E. assumption.
Qed.

Lemma split_length (c : ascii) (s : string) :
  List.length (Str.split c s) = S (occurrences c s).
Proof.
  unfold occurrences. induction s as [|x s IH]; [reflexivity|].
  cbn [Str.split Str.chars list_ascii_of_string filter].
  fold (Str.chars s). rewrite (Ascii.eqb_sym c x).
  destruct (Ascii.eqb x c); cbn [List.length]; [rewrite IH; reflexivity|].
  destruct (Str.split c s) as [|p ps]; [discriminate | exact IH].
Qed.

Lemma occurrences_append (c : ascii) (a b : string) :
  occurrences c (a ++ b) = (occurrences c a + occurrences c b)%nat.
Proof.
  unfold occurrences. rewrite chars_append, filter_app, length_app. reflexivity.
Qed.

Lemma occurrences_cons (c x : ascii) (s : string) :
  occurrences c (String x s)
  = ((if Ascii.eqb c x then 1 else 0) + occurrences c s)%nat.
Proof.
  unfold occurrences. cbn [Str.chars list_ascii_of_string filter].
  fold (Str.chars s). destruct (Ascii.eqb c x); reflexivity.
Qed.

Lemma lacks_false_occurs (c : ascii) (s : string) :
  Str.lacks c s = false -> (1 <= occurrences c s)%nat.
Proof.
  unfold Str.lacks, occurrences. induction (Str.chars s) as [|x l IH].
  - discriminate.
  - cbn [existsb filter]. destruct (Ascii.eqb c x); cbn [List.length orb].
    + intros _. lia.
    + exact IH.
Qed.

Lemma parseCityId_not_three (cityId : string) :
  List.length (Str.split ":" cityId) <> 3%nat ->
  parseCityId cityId
  = Throw (newError ID_FORMAT_MESSAGE
             ERROR_CODES.USER_ERROR.INVALID_COORDINATES).
Proof.
  unfold parseCityId.
  destruct (Str.split ":" cityId) as [|p1 [|p2 [|p3 [|p4 ps]]]];
    intros H; try reflexivity.
  exfalso. apply H. reflexivity.
Qed.

(** [parseCityId] on an id whose three parts and two first coordinate strings
    are known. *)
Lemma parseCityId_parts (cityId coords name country a b : string) :
  Str.split ":" cityId = [coords; name; country] ->
  nth_error (Str.split "," coords) 0 = Some a ->
  nth_error (Str.split "," coords) 1 = Some b ->
  parseCityId cityId
  = if falsy (Some a) || falsy (Some b) then
      Throw (newError COORDS_FORMAT_MESSAGE
               ERROR_CODES.USER_ERROR.INVALID_COORDINATES)
    else if negb (isValidCoordinate (NumStr.parseFloat a) (NumStr.parseFloat b))
    then Throw (newError COORDS_RANGE_MESSAGE
                  ERROR_CODES.USER_ERROR.INVALID_COORDINATES)
    else Ok {| p_latitude := NumStr.parseFloat a;
               p_longitude := NumStr.parseFloat b;
               p_name := name; p_country := country |}.
Proof.
  intros Hs Ha Hb. unfold parseCityId. rewrite Hs, Ha, Hb. reflexivity.
Qed.

(** What a successful [parseCityId] tells. *)
Lemma parseCityId_ok (cityId : string) (fields : CityIdFields) :
  parseCityId cityId = Ok fields ->
  isValidCoordinate (p_latitude fields) (p_longitude fields) = true
  /\ exists coords,
       Str.split ":" cityId = [coords; p_name fields; p_country fields].
Proof.
  unfold parseCityId.
  destruct (Str.split ":" cityId) as [|p1 [|p2 [|p3 [|p4 ps]]]];
    try discriminate.
  destruct (falsy _ || falsy _); [discriminate|].
  destruct (isValidCoordinate _ _) eqn:V; [|discriminate].
  cbn [negb]. intros E. inversion E; subst. cbn [p_latitude p_longitude p_name p_country].
  split; [exact V|]. exists p1. reflexivity.
Qed.

Lemma parseCityId_code (cityId : string) (e : OpenMeteoAPIError) :
  parseCityId cityId = Throw e ->
  code e = Some ERROR_CODES.USER_ERROR.INVALID_COORDINATES.
Proof.
  unfold parseCityId.
  destruct (Str.split ":" cityId) as [|p1 [|p2 [|p3 [|p4 ps]]]];
    try (intros E; inversion E; reflexivity).
  destruct (falsy _ || falsy _); [intros E; inversion E; reflexivity|].
  destruct (negb _); intros E; inversion E; reflexivity.
Qed.

Lemma valid_finite (lat lon : number) :
  isValidCoordinate lat lon = true ->
  isFinite lat = true /\ isFinite lon = true.
Proof.
  rewrite isValidCoordinate_validateCoordinate. unfold validateCoordinate.
  intros H. do 4 (apply andb_prop in H as [H _]).
  apply andb_prop in H. exact H.
Qed.

(** The id of a city decodes to its fields (the statement of the round trip,
    for use in what follows). *)
Lemma toCity_decodes (r : GeocodingResult) :
  isValidCoordinate (gr_latitude r) (gr_longitude r) = true ->
  Str.lacks ":" (gr_name r) = true ->
  Str.lacks ":" (gr_country r) = true ->
  NumStr.parseFloat (NumStr.toString (gr_latitude r)) = gr_latitude r ->
  NumStr.parseFloat (NumStr.toString (gr_longitude r)) = gr_longitude r ->
  parseCityId (id (toCity r))
  = Ok {| p_latitude := gr_latitude r; p_longitude := gr_longitude r;
          p_name := gr_name r; p_country := gr_country r |}.
Proof.
  intros V Hn Hc Rlat Rlon.
  unfold toCity. cbn [id].
  destruct (plain_lacks _ (plain_toString (gr_latitude r))) as [La La'].
  destruct (plain_lacks _ (plain_toString (gr_longitude r))) as [Lo Lo'].
  rewrite parseCityId_shape by assumption.
  rewrite Rlat, Rlon, V.
  destruct (valid_notNaN _ _ V) as [Nlat Nlon].
  destruct (NumStr.toString (gr_latitude r)) eqn:Ea;
    [rewrite parseFloat_empty in Rlat; rewrite <- Rlat in Nlat; discriminate|].
  destruct (NumStr.toString (gr_longitude r)) eqn:Eo;
    [rewrite parseFloat_empty in Rlon; rewrite <- Rlon in Nlon; discriminate|].
  reflexivity.
Qed.

(** X7: whatever id [parseCityId] accepts, the coordinates it returns are
    finite and within range, the name and the country it returns contain no
    colon, and they are the second and third colon-separated parts of the
    id. *)
Theorem decoded_fields_are_valid (cityId : string) (fields : CityIdFields) :
  parseCityId cityId = Ok fields ->
  isValidCoordinate (p_latitude fields) (p_longitude fields) = true
  /\ isFinite (p_latitude fields) = true
  /\ isFinite (p_longitude fields) = true
  /\ Str.lacks ":" (p_name fields) = true
  /\ Str.lacks ":" (p_country fields) = true
  /\ exists coords,
       Str.split ":" cityId = [coords; p_name fields; p_country fields].
Proof.
  intros H. destruct (parseCityId_ok _ H) as [V [coords S]].
  destruct (valid_finite _ _ V) as [F1 F2].
  pose proof (split_parts_lack ":" cityId) as L. rewrite S in L.
  inversion L as [|? ? _ L1]; subst. inversion L1 as [|? ? Ln L2]; subst.
  inversion L2 as [|? ? Lc _]; subst.
  repeat split; try assumption. exists coords. exact S.
Qed.

(** X7 at the id of Cape Town. *)
Lemma decoded_fields_are_valid_witness :
  parseCityId "-33.92584,18.42322:Cape Town:South Africa"
  = Ok {| p_latitude := ofDec (-3392584) (-5);
          p_longitude := ofDec 1842322 (-5);
          p_name := "Cape Town"; p_country := "South Africa" |}
  /\ isFinite (ofDec (-3392584) (-5)) = true
  /\ Str.lacks ":" "Cape Town" = true.
Proof.
  assert (H : parseCityId "-33.92584,18.42322:Cape Town:South Africa"
              = Ok {| p_latitude := ofDec (-3392584) (-5);
                      p_longitude := ofDec 1842322 (-5);
                      p_name := "Cape Town"; p_country := "South Africa" |})
    by (vm_compute; reflexivity).
  split; [exact H|].
  pose proof (decoded_fields_are_valid _ H) as (_ & F & _ & L & _).
  split; [exact F | exact L].
Defined.

(** X8: a colon in the name or in the country of a geocoding result makes
    the id of its city undecodable: the id has more than three parts and
    [parseCityId] rejects it with the id format message. *)
Theorem colon_in_name_breaks_id (r : GeocodingResult) :
  Str.lacks ":" (gr_name r) = false \/ Str.lacks ":" (gr_country r) = false ->
  parseCityId (id (toCity r))
  = Throw (newError ID_FORMAT_MESSAGE
             ERROR_CODES.USER_ERROR.INVALID_COORDINATES).
Proof.
  intros H. apply parseCityId_not_three. rewrite split_length.
  unfold toCity. cbn [id].
  change (NumStr.toString (gr_latitude r) ++ "," ++
          NumStr.toString (gr_longitude r) ++ ":" ++
          gr_name r ++ ":" ++ gr_country r)
    with (NumStr.toString (gr_latitude r) ++
          String "," (NumStr.toString (gr_longitude r) ++
          String ":" (gr_name r ++ String ":" (gr_country r)))).
  rewrite occurrences_append, occurrences_cons, occurrences_append,
    occurrences_cons, occurrences_append, occurrences_cons.
  rewrite Ascii.eqb_refl.
  destruct H as [H|H]; apply lacks_false_occurs in H; lia.
Qed.

(** X8 at a result whose name is "St: Louis". *)
Lemma colon_in_name_breaks_id_witness :
  exists e,
    parseCityId
      (id (toCity {| gr_name := "St: Louis"; gr_latitude := ofDec 3863 (-2);
                     gr_longitude := ofDec (-902) (-1);
                     gr_feature_code := "PPL";
                     gr_country := "United States" |})) = Throw e
    /\ message e = ID_FORMAT_MESSAGE.
Proof.
  eexists. split.
  - apply colon_in_name_breaks_id. left. vm_compute. reflexivity.
  - reflexivity.
Defined.

(** X9: [parseCityId] reads the first two comma-separated pieces of the
    coordinate part and ignores any further piece. *)
Theorem extra_comma_pieces_ignored (a b junk name country : string) :
  Str.lacks ":" a = true -> Str.lacks "," a = true ->
  Str.lacks ":" b = true -> Str.lacks "," b = true ->
  Str.lacks ":" junk = true ->
  Str.lacks ":" name = true -> Str.lacks ":" country = true ->
  parseCityId (a ++ "," ++ b ++ "," ++ junk ++ ":" ++ name ++ ":" ++ country)
  = parseCityId (a ++ "," ++ b ++ ":" ++ name ++ ":" ++ country).
Proof.
  intros Ha Ha' Hb Hb' Hj Hn Hc.
  rewrite (parseCityId_shape a b name country) by assumption.
  assert (E : a ++ "," ++ b ++ "," ++ junk ++ ":" ++ name ++ ":" ++ country
              = (a ++ String "," (b ++ String "," junk))
                ++ String ":" (name ++ String ":" country)).
  { rewrite append_assoc. cbn [append]. rewrite append_assoc. reflexivity. }
  rewrite E.
  apply parseCityId_parts with (coords := a ++ String "," (b ++ String "," junk)).
  - rewrite split_at.
    + rewrite split_at by exact Hn. rewrite split_lacks by exact Hc. reflexivity.
    + rewrite lacks_append, lacks_cons, lacks_append, lacks_cons, Ha, Hb, Hj.
      reflexivity.
  - rewrite split_at by exact Ha'. reflexivity.
  - rewrite split_at by exact Ha'. rewrite split_at by exact Hb'. reflexivity.
Qed.

(** X9 at the id "1,2,3:a:b", which decodes to the coordinates 1 and 2. *)
Lemma extra_comma_pieces_ignored_witness :
  parseCityId "1,2,3:a:b" = parseCityId "1,2:a:b"
  /\ parseCityId "1,2:a:b"
     = Ok {| p_latitude := ofZ 1; p_longitude := ofZ 2;
             p_name := "a"; p_country := "b" |}.
Proof.
  split; [|vm_compute; reflexivity].
  exact (@extra_comma_pieces_ignored "1" "2" "3" "a" "b"
           eq_refl eq_refl eq_refl eq_refl eq_refl eq_refl eq_refl).
Defined.

(** X10: [isValidCoordinate], which tests for NaN and for the two ranges
    only, accepts no infinite coordinate: what it accepts is finite. *)
Theorem valid_coordinates_are_finite (latitude longitude : number) :
  isValidCoordinate latitude longitude = true ->
  isFinite latitude = true /\ isFinite longitude = true.
Proof. apply valid_finite. Qed.

(** X10 at the corner (90, -180), which is accepted. *)
Lemma valid_coordinates_are_finite_witness :
  isValidCoordinate (ofZ 90) (ofZ (-180)) = true
  /\ isFinite (ofZ 90) = true /\ isFinite (ofZ (-180)) = true.
Proof.
  assert (H : isValidCoordinate (ofZ 90) (ofZ (-180)) = true)
    by (vm_compute; reflexivity).
  split; [exact H | exact (valid_coordinates_are_finite _ _ H)].
Defined.

(** ** More about the geocoding adapter *)

(** The three ways out of a [catch] clause of the adapter. *)
Lemma failure_cases (X : Type) (P : X -> Prop) (c : option string)
    (st : option Z) (a b d : X) :
  P a -> P b -> P d ->
  P (match c with
     | Some "ECONNABORTED" => a
     | _ => match st with Some 429 => b | _ => d end
     end).
Proof.
  intros Ha Hb Hd.
  assert (Q : P (match st with Some 429 => b | _ => d end)).
  { repeat match goal with
           | |- P (match ?x with _ => _ end) => destruct x
           end; assumption. }
  revert Q. generalize (match st with Some 429 => b | _ => d end).
  intros inner Q.
  repeat match goal with
         | |- P (match ?x with _ => _ end) => destruct x
         end; assumption.
Qed.

Lemma searchFailure_code (error : thrown) :
  isApiCode (code (searchFailure error)).
Proof.
  unfold searchFailure. destruct error as [e|].
  - apply (failure_cases (fun x => isApiCode (code x))); unfold isApiCode;
      cbn [code newError newErrorCaused]; auto.
  - unfold isApiCode. cbn [code newErrorCaused]. auto.
Qed.

Lemma trim_empty : Str.trim EmptyString = EmptyString.
Proof. reflexivity. Qed.

(** The two ways through [searchCities]. *)
Lemma searchCities_cases
    (axios_get : GeocodingRequest -> response GeocodingResponse)
    (query : string) :
  (Z.of_nat (String.length (Str.trim query)) < 2
   /\ searchCities axios_get query
      = ([], Throw (newError "Query must be at least 2 characters long"
                      ERROR_CODES.USER_ERROR.BAD_USER_INPUT)))
  \/ (2 <= Z.of_nat (String.length (Str.trim query))
      /\ exists request,
           rq_name request = Str.trim query
           /\ rq_count request = 10
           /\ searchCities axios_get query
              = ([request],
                 match axios_get request with
                 | Resolved data =>
                   Ok (map toCity (filter isPopulatedPlace (resultsOf data)))
                 | Rejected error => Throw (searchFailure error)
                 end)).
Proof.
  unfold searchCities.
  destruct (String.eqb query EmptyString) eqn:Q.
  - apply String.eqb_eq in Q. subst query. left. split; [|reflexivity].
    rewrite trim_empty. cbn. lia.
  - cbn [orb]. destruct (Z.of_nat (String.length (Str.trim query)) <? 2) eqn:L.
    + left. split; [apply Z.ltb_lt, L | reflexivity].
    + right. split; [apply Z.ltb_ge, L|].
      match goal with |- context [axios_get ?rq] => exists rq end.
      split; [reflexivity|]. split; [reflexivity|].
      match goal with
      | |- context [axios_get ?rq] => destruct (axios_get rq) as [data|error]
      end; [|reflexivity].
      unfold resultsOf. destruct (results data); reflexivity.
Qed.

(** X11: [searchCities] sends no request exactly when the trimmed query has
    fewer than two characters, and then it throws BAD_USER_INPUT; otherwise
    it sends exactly one request, for the trimmed query and at most ten
    results, and if it throws, the code is TIMEOUT, RATE_LIMIT_EXCEEDED or
    UNKNOWN_ERROR. *)
Theorem search_sends_one_request_or_none
    (axios_get : GeocodingRequest -> response GeocodingResponse)
    (query : string) :
  (Z.of_nat (String.length (Str.trim query)) < 2
   /\ fst (searchCities axios_get query) = []
   /\ exists e,
        snd (searchCities axios_get query) = Throw e
        /\ code e = Some ERROR_CODES.USER_ERROR.BAD_USER_INPUT)
  \/ (2 <= Z.of_nat (String.length (Str.trim query))
      /\ (exists request,
            fst (searchCities axios_get query) = [request]
            /\ rq_name request = Str.trim query
            /\ rq_count request = 10)
      /\ forall e,
           snd (searchCities axios_get query) = Throw e -> isApiCode (code e)).
Proof.
  destruct (searchCities_cases axios_get query)
    as [[L E]|[L [request (Hn & Hc & E)]]]; rewrite E; cbn [fst snd].
  - left. split; [exact L|]. split; [reflexivity|].
    eexists. split; reflexivity.
  - right. split; [exact L|]. split.
    + exists request. repeat split; assumption.
    + intros e. destruct (axios_get request) as [data|error]; [discriminate|].
      intros H. inversion H. apply searchFailure_code.
Qed.

(** X12: when the request is answered, [searchCities] returns one city per
    result with a populated-place feature code, in the order of the
    response; the id of every city it returns is built from the city's own
    coordinates, name and country. *)
Theorem search_returns_populated_places
    (axios_get : GeocodingRequest -> response GeocodingResponse)
    (query : string) (request : GeocodingRequest) (data : GeocodingResponse) :
  fst (searchCities axios_get query) = [request] ->
  axios_get request = Resolved data ->
  exists cities,
    snd (searchCities axios_get query) = Ok cities
    /\ map city_name cities
       = map gr_name (filter isPopulatedPlace (resultsOf data))
    /\ (List.length cities <= List.length (resultsOf data))%nat
    /\ Forall (fun c => id c = idOf c) cities.
Proof.
  destruct (searchCities_cases axios_get query)
    as [[L E]|[L [sent (Hn & Hc & E)]]]; rewrite E; cbn [fst snd];
    [discriminate|].
  intros S R. inversion S; subst sent. rewrite R.
  eexists. split; [reflexivity|]. split; [|split].
  - rewrite map_map. reflexivity.
  - rewrite length_map. apply filter_length_le.
  - rewrite Forall_map. apply Forall_forall. intros r _. reflexivity.
Qed.

(** X12 at the query "Lond", answered with London and a mountain: the city
    London alone is returned. *)
Lemma search_returns_populated_places_witness :
  exists request cities,
    fst (searchCities twoResults "Lond") = [request]
    /\ snd (searchCities twoResults "Lond") = Ok cities
    /\ map city_name cities = ["London"]
    /\ Forall (fun c => id c = idOf c) cities.
Proof.
  eexists.
  destruct (@search_returns_populated_places twoResults "Lond" _ _
              eq_refl eq_refl) as [cities (E & N & _ & I)].
  exists cities. split; [reflexivity|]. split; [exact E|].
  split; [exact N | exact I].
Defined.

(** ** The forecast adapter *)

Lemma weatherFailure_code (error : thrown) :
  isApiCode (code (weatherFailure error)).
Proof.
  unfold weatherFailure. destruct error as [e|].
  - apply (failure_cases (fun x => isApiCode (code x))); unfold isApiCode;
      cbn [code newError newErrorCaused]; auto.
  - unfold isApiCode. cbn [code newErrorCaused]. auto.
Qed.

(** The two ways through [getWeatherData]. *)
Lemma getWeatherData_cases
    (axios_get : WeatherRequest -> response WeatherResponse)
    (latitude longitude : number) :
  (isValidCoordinate latitude longitude = false
   /\ getWeatherData axios_get latitude longitude
      = ([], Throw (newError "Invalid coordinates provided"
                      ERROR_CODES.USER_ERROR.INVALID_COORDINATES)))
  \/ (isValidCoordinate latitude longitude = true
      /\ exists request,
           wq_latitude request = latitude
           /\ wq_longitude request = longitude
           /\ wq_forecast_days request = 7
           /\ getWeatherData axios_get latitude longitude
              = ([request],
                 match axios_get request with
                 | Resolved data => Ok (weatherOf data)
                 | Rejected error => Throw (weatherFailure error)
                 end)).
Proof.
  unfold getWeatherData.
  destruct (isValidCoordinate latitude longitude); cbn [negb].
  - right. split; [reflexivity|].
    match goal with |- context [axios_get ?rq] => exists rq end.
    do 3 (split; [reflexivity|]).
    match goal with
    | |- context [axios_get ?rq] => destruct (axios_get rq) as [data|error]
    end; reflexivity.
  - left. split; reflexivity.
Qed.

Lemma getWeatherData_resolved
    (axios_get : WeatherRequest -> response WeatherResponse)
    (latitude longitude : number) (request : WeatherRequest)
    (data : WeatherResponse) :
  fst (getWeatherData axios_get latitude longitude) = [request] ->
  axios_get request = Resolved data ->
  snd (getWeatherData axios_get latitude longitude) = Ok (weatherOf data).
Proof.
  destruct (getWeatherData_cases axios_get latitude longitude)
    as [[V E]|[V [sent (_ & _ & _ & E)]]]; rewrite E; cbn [fst snd];
    [discriminate|].
  intros S R. inversion S; subst sent. rewrite R. reflexivity.
Qed.

Lemma map_date_mapIndexed (daily : DailyWeather) (index : nat)
    (dates : list string) :
  map fd_date (mapIndexed (forecastOfDay daily) index dates) = dates.
Proof.
  revert index. induction dates as [|d dates IH]; intros index; simpl;
    [reflexivity | rewrite IH; reflexivity].
Qed.

Lemma Forall_mapIndexed (A B : Type) (P : B -> Prop) (f : A -> nat -> B)
    (index : nat) (l : list A) :
  (forall x i, P (f x i)) -> Forall P (mapIndexed f index l).
Proof.
  intros H. revert index. induction l as [|x l IH]; intros index; simpl;
    constructor; [apply H | apply IH].
Qed.

Lemma nth_error_mapIndexed (A B : Type) (f : A -> nat -> B) (l : list A)
    (index k : nat) (y : B) :
  nth_error (mapIndexed f index l) k = Some y ->
  exists x, nth_error l k = Some x /\ y = f x (index + k)%nat.
Proof.
  revert index k. induction l as [|x l IH]; intros index k.
  - destruct k; discriminate.
  - destruct k as [|k]; simpl.
    + intros E. inversion E. exists x. split; [reflexivity|].
      rewrite Nat.add_0_r. reflexivity.
    + intros E. destruct (IH _ _ E) as [x' [E1 E2]]. exists x'.
      split; [exact E1|]. rewrite E2. f_equal. lia.
Qed.

(** The single activity that [rankActivitiesForDay (forecast, 1)] returns. *)
Lemma rank_one (forecast : DailyForecast) :
  exists a,
    rankActivitiesForDay forecast 1 = [a]
    /\ (isNaN (avgTempOf forecast) = false ->
        isScore (suitabilityScore a)
        /\ forall config, In config ACTIVITY_CONFIGS ->
             ge (suitabilityScore a)
                (suitabilityScore (scoreFor forecast config)) = true)
    /\ (isNaN (avgTempOf forecast) = true ->
        a = scoreFor forecast skiing /\ suitabilityScore a = NaN).
Proof.
  unfold rankActivitiesForDay, Arr.slice0.
  pose proof (ranking_length forecast) as L.
  destruct (ranking forecast) as [|a rest] eqn:E; [discriminate|].
  exists a. split.
  - cbn [List.length]. replace (1 <? 0) with false by reflexivity.
    replace (Z.to_nat (Z.min 1 (Z.of_nat (S (List.length rest)))))
      with 1%nat by lia.
    reflexivity.
  - split; intros Ha.
    + destruct (ranking_head_best forecast Ha) as [best [rest' [E' B]]].
      rewrite E in E'. inversion E'; subst best rest'.
      split.
      * pose proof (scored_isScore forecast Ha) as S.
        rewrite Forall_forall in S. apply S.
        apply (Permutation_in _ (ranking_perm forecast)).
        rewrite E. left. reflexivity.
      * intros config Hc. apply B. unfold scoredActivities.
        apply in_map, Hc.
    + pose proof (ranking_of_NaN forecast Ha) as R. rewrite E in R.
      unfold scoredActivities in R. cbn [ACTIVITY_CONFIGS map] in R.
      inversion R. split; [reflexivity|].
      unfold scoreFor. apply score_NaN, Ha.
Qed.

(** X13: [getWeatherData] sends no request exactly when the coordinates are
    not valid, and then it throws INVALID_COORDINATES; otherwise it sends
    exactly one request, for these coordinates and seven days, and if it
    throws, the code is TIMEOUT, RATE_LIMIT_EXCEEDED or UNKNOWN_ERROR. *)
Theorem weather_sends_one_request_or_none
    (axios_get : WeatherRequest -> response WeatherResponse)
    (latitude longitude : number) :
  (isValidCoordinate latitude longitude = false
   /\ fst (getWeatherData axios_get latitude longitude) = []
   /\ exists e,
        snd (getWeatherData axios_get latitude longitude) = Throw e
        /\ code e = Some ERROR_CODES.USER_ERROR.INVALID_COORDINATES)
  \/ (isValidCoordinate latitude longitude = true
      /\ (exists request,
            fst (getWeatherData axios_get latitude longitude) = [request]
            /\ wq_latitude request = latitude
            /\ wq_longitude request = longitude
            /\ wq_forecast_days request = 7)
      /\ forall e,
           snd (getWeatherData axios_get latitude longitude) = Throw e ->
           isApiCode (code e)).
Proof.
  destruct (getWeatherData_cases axios_get latitude longitude)
    as [[V E]|[V [request (H1 & H2 & H3 & E)]]]; rewrite E; cbn [fst snd].
  - left. split; [exact V|]. split; [reflexivity|].
    eexists. split; reflexivity.
  - right. split; [exact V|]. split.
    + exists request. repeat split; assumption.
    + intros e. destruct (axios_get request) as [data|error]; [discriminate|].
      intros H. inversion H. apply weatherFailure_code.
Qed.

(** X14: when the request is answered, the forecast that [getWeatherData]
    returns has one day per entry of [daily.time], in that order and however
    many there are; day [k] carries the entries [k] of the other arrays,
    undefined where an array is shorter; and every day carries exactly one
    activity. *)
Theorem forecast_follows_time_array
    (axios_get : WeatherRequest -> response WeatherResponse)
    (latitude longitude : number) (request : WeatherRequest)
    (data : WeatherResponse) :
  fst (getWeatherData axios_get latitude longitude) = [request] ->
  axios_get request = Resolved data ->
  exists weather,
    snd (getWeatherData axios_get latitude longitude) = Ok weather
    /\ map fd_date (w_forecast weather) = time (daily data)
    /\ (forall k day,
          nth_error (w_forecast weather) k = Some day ->
          fd_maxTemp day = nth_error (temperature_2m_max (daily data)) k
          /\ fd_minTemp day = nth_error (temperature_2m_min (daily data)) k
          /\ fd_precipitation day
             = nth_error (precipitation_sum (daily data)) k
          /\ fd_windSpeed day
             = nth_error (wind_speed_10m_max (daily data)) k
          /\ fd_conditions day
             = getWeatherCondition
                 (nth_error (dw_weather_code (daily data)) k))
    /\ Forall (fun day => List.length (fd_activities day) = 1%nat)
         (w_forecast weather).
Proof.
  intros S R. exists (weatherOf data).
  split; [apply (getWeatherData_resolved _ _ _ S R)|].
  unfold weatherOf. cbn [w_forecast].
  split; [apply map_date_mapIndexed|]. split.
  - intros k day E. apply nth_error_mapIndexed in E as [date [_ ->]].
    cbn [Nat.add]. repeat split.
  - apply Forall_mapIndexed. intros date i.
    unfold forecastOfDay. cbn [fd_activities].
    destruct (rank_one (asDailyForecast (forecastDayAt (daily data) date i)))
      as [a [E _]].
    rewrite E. reflexivity.
Qed.

(** X14 at a response with two dates and one pair of temperatures. *)
Lemma forecast_follows_time_array_witness :
  exists request weather,
    fst (getWeatherData twoDays (ofZ 10) (ofZ 20)) = [request]
    /\ snd (getWeatherData twoDays (ofZ 10) (ofZ 20)) = Ok weather
    /\ map fd_date (w_forecast weather) = ["2025-06-01"; "2025-06-02"]
    /\ Forall (fun day => List.length (fd_activities day) = 1%nat)
         (w_forecast weather).
Proof.
  eexists.
  destruct (@forecast_follows_time_array twoDays (ofZ 10) (ofZ 20) _ _
              eq_refl eq_refl) as [weather (E & D & _ & A)].
  exists weather. split; [reflexivity|]. split; [exact E|].
  split; [exact D | exact A].
Defined.

(** The days of a forecast that [getWeatherData] returns. *)
Lemma forecast_day
    (axios_get : WeatherRequest -> response WeatherResponse)
    (latitude longitude : number) (weather : Weather) (k : nat)
    (day : ForecastDay) :
  snd (getWeatherData axios_get latitude longitude) = Ok weather ->
  nth_error (w_forecast weather) k = Some day ->
  exists daily date, day = forecastOfDay daily date k.
Proof.
  destruct (getWeatherData_cases axios_get latitude longitude)
    as [[V E]|[V [request (_ & _ & _ & E)]]]; rewrite E; cbn [fst snd];
    [discriminate|].
  destruct (axios_get request) as [data|error]; [|discriminate].
  intros H. inversion H. unfold weatherOf. cbn [w_forecast].
  intros N. apply nth_error_mapIndexed in N as [date [_ ->]].
  exists (daily data), date. reflexivity.
Qed.

(** X15: in a forecast that [getWeatherData] returns, a day whose two
    temperatures are finite numbers carries exactly one activity; its score
    is an integer from 0 to 100 and is not below the score of any of the
    four profiles for that day. *)
Theorem finite_day_gets_best_activity
    (axios_get : WeatherRequest -> response WeatherResponse)
    (latitude longitude : number) (weather : Weather) (k : nat)
    (day : ForecastDay) (hi lo : number) :
  snd (getWeatherData axios_get latitude longitude) = Ok weather ->
  nth_error (w_forecast weather) k = Some day ->
  fd_maxTemp day = Some hi -> fd_minTemp day = Some lo ->
  isFinite hi = true -> isFinite lo = true ->
  exists activity,
    fd_activities day = [activity]
    /\ isScore (suitabilityScore activity)
    /\ forall config, In config ACTIVITY_CONFIGS ->
         ge (suitabilityScore activity)
            (suitabilityScore (scoreFor (asDailyForecast day) config)) = true.
Proof.
  intros W N Hhi Hlo Fhi Flo.
  destruct (forecast_day _ _ _ _ W N) as [daily [date ->]].
  unfold forecastOfDay in *. cbn [fd_activities fd_maxTemp fd_minTemp] in *.
  set (day := forecastDayAt daily date k) in *.
  destruct (rank_one (asDailyForecast day)) as [a (E1 & B & _)].
  exists a. split; [exact E1|].
  apply B. apply avgTemp_notNaN; unfold asDailyForecast; cbn [maxTemp minTemp].
  - rewrite Hhi. exact Fhi.
  - rewrite Hlo. exact Flo.
Qed.

(** X15 at the first of the two days, with the temperatures 22 and 18. *)
Lemma finite_day_gets_best_activity_witness :
  snd (getWeatherData twoDays (ofZ 10) (ofZ 20)) = Ok (weatherOf twoDaysData)
  /\ exists activity,
       fd_activities (forecastOfDay (daily twoDaysData) "2025-06-01" 0)
       = [activity]
       /\ isScore (suitabilityScore activity).
Proof.
  assert (W : snd (getWeatherData twoDays (ofZ 10) (ofZ 20))
              = Ok (weatherOf twoDaysData)) by (vm_compute; reflexivity).
  split; [exact W|].
  destruct (@finite_day_gets_best_activity twoDays (ofZ 10) (ofZ 20)
              (weatherOf twoDaysData) 0
              (forecastOfDay (daily twoDaysData) "2025-06-01" 0)
              (ofZ 22) (ofZ 18) W eq_refl eq_refl eq_refl eq_refl eq_refl)
    as [activity (A & S & _)].
  exists activity. split; assumption.
Defined.

(** X16: in a forecast that [getWeatherData] returns, a day without a
    maximal or without a minimal temperature carries the first profile of
    the table, skiing, with the score NaN. *)
Theorem day_without_temperature_gets_skiing
    (axios_get : WeatherRequest -> response WeatherResponse)
    (latitude longitude : number) (weather : Weather) (k : nat)
    (day : ForecastDay) :
  snd (getWeatherData axios_get latitude longitude) = Ok weather ->
  nth_error (w_forecast weather) k = Some day ->
  fd_maxTemp day = None \/ fd_minTemp day = None ->
  exists activity,
    fd_activities day = [activity]
    /\ name activity = "skiing"
    /\ suitabilityScore activity = NaN.
Proof.
  intros W N M.
  destruct (forecast_day _ _ _ _ W N) as [daily [date ->]].
  unfold forecastOfDay in *. cbn [fd_activities fd_maxTemp fd_minTemp] in *.
  set (day := forecastDayAt daily date k) in *.
  destruct (rank_one (asDailyForecast day)) as [a (E1 & _ & B)].
  exists a. split; [exact E1|].
  destruct B as [-> S].
  - rewrite avgTemp_NaN_iff. unfold asDailyForecast. cbn [maxTemp minTemp].
    destruct M as [-> | ->]; [reflexivity|].
    cbn [orNaN isNaN]. rewrite orb_true_r. reflexivity.
  - split; [reflexivity | exact S].
Qed.

(** X16 at the second of the two days, which has no temperatures. *)
Lemma day_without_temperature_gets_skiing_witness :
  snd (getWeatherData twoDays (ofZ 10) (ofZ 20)) = Ok (weatherOf twoDaysData)
  /\ exists activity,
       fd_activities (forecastOfDay (daily twoDaysData) "2025-06-02" 1)
       = [activity]
       /\ suitabilityScore activity = NaN.
Proof.
  assert (W : snd (getWeatherData twoDays (ofZ 10) (ofZ 20))
              = Ok (weatherOf twoDaysData)) by (vm_compute; reflexivity).
  split; [exact W|].
  destruct (@day_without_temperature_gets_skiing twoDays (ofZ 10) (ofZ 20)
              (weatherOf twoDaysData) 1
              (forecastOfDay (daily twoDaysData) "2025-06-02" 1)
              W eq_refl (or_introl eq_refl))
    as [activity (A & _ & S)].
  exists activity. split; assumption.
Defined.

Lemma conditionAgrees_all : forallb conditionAgrees (upto 1000) = true.
Proof. vm_compute. reflexivity. Qed.

(** The two ways through [getWeatherByCityId]. *)
Lemma getWeatherByCityId_cases
    (axios_get : WeatherRequest -> response WeatherResponse)
    (cityId : string) :
  (exists e,
     parseCityId cityId = Throw e
     /\ getWeatherByCityId axios_get cityId = ([], Throw e))
  \/ (exists fields request,
        parseCityId cityId = Ok fields
        /\ wq_latitude request = p_latitude fields
        /\ wq_longitude request = p_longitude fields
        /\ getWeatherData axios_get (p_latitude fields) (p_longitude fields)
           = ([request],
              match axios_get request with
              | Resolved data => Ok (weatherOf data)
              | Rejected error => Throw (weatherFailure error)
              end)
        /\ getWeatherByCityId axios_get cityId
           = ([request],
              match axios_get request with
              | Resolved data =>
                Ok {| cw_weather := weatherOf data;
                      ci_name := p_name fields;
                      ci_country := p_country fields;
                      ci_latitude := p_latitude fields;
                      ci_longitude := p_longitude fields |}
              | Rejected error => Throw (weatherFailure error)
              end)).
Proof.
  unfold getWeatherByCityId.
  destruct (parseCityId cityId) as [fields|e] eqn:P.
  - right. destruct (parseCityId_ok _ P) as [V _].
    destruct (getWeatherData_cases axios_get (p_latitude fields)
                (p_longitude fields))
      as [[V' _]|[_ [request (H1 & H2 & _ & E)]]]; [congruence|].
    exists fields, request. rewrite E.
    repeat (split; [reflexivity || assumption|]).
    destruct (axios_get request); reflexivity.
  - left. exists e. split; reflexivity.
Qed.

Lemma apiCode_not_user (c : option string) :
  isApiCode c ->
  c <> Some ERROR_CODES.USER_ERROR.INVALID_COORDINATES
  /\ c <> Some ERROR_CODES.USER_ERROR.BAD_USER_INPUT
  /\ c <> Some ERROR_CODES.INTERNAL_ERROR.INTERNAL_SERVER_ERROR.
Proof.
  intros [H|[H|H]]; rewrite H; repeat split; discriminate.
Qed.

(** X17: for an integer code from 0 to 999, [getWeatherCondition] returns
    the label that the table WEATHER_CODES lists for it, and for a code that
    the table does not list the text "Unknown condition (n)" with the
    decimal digits of the code. *)
Theorem integer_code_condition (n : Z) :
  0 <= n < 1000 ->
  getWeatherCondition (Some (ofZ n))
  = match labelOf n with
    | Some label => label
    | None => "Unknown condition (" ++ NumStr.decimal n ++ ")"
    end.
Proof.
  intros H. assert (I : In n (upto 1000)) by (apply in_upto; lia).
  pose proof conditionAgrees_all as A. rewrite forallb_forall in A.
  apply String.eqb_eq. exact (A n I).
Qed.

(** X17 at the codes 61, which is listed, and 4, which is not. *)
Lemma integer_code_condition_witness :
  getWeatherCondition (Some (ofZ 61)) = "Slight rain"
  /\ getWeatherCondition (Some (ofZ 4)) = "Unknown condition (4)".
Proof.
  split.
  - exact (@integer_code_condition 61 ltac:(lia)).
  - exact (@integer_code_condition 4 ltac:(lia)).
Defined.

(** X18: [getWeatherByCityId] sends no request exactly when [parseCityId]
    rejects the id, and then it throws what [parseCityId] throws, with the
    code INVALID_COORDINATES.  When the id is accepted, exactly one request
    is sent, for the decoded coordinates: the coordinate check of
    [getWeatherData] never fails then; a failure has the code TIMEOUT,
    RATE_LIMIT_EXCEEDED or UNKNOWN_ERROR, and a result carries the decoded
    name, country and coordinates. *)
Theorem weather_by_id_decodes_then_asks
    (axios_get : WeatherRequest -> response WeatherResponse)
    (cityId : string) :
  (exists e,
     parseCityId cityId = Throw e
     /\ getWeatherByCityId axios_get cityId = ([], Throw e)
     /\ code e = Some ERROR_CODES.USER_ERROR.INVALID_COORDINATES)
  \/ (exists fields request,
        parseCityId cityId = Ok fields
        /\ fst (getWeatherByCityId axios_get cityId) = [request]
        /\ wq_latitude request = p_latitude fields
        /\ wq_longitude request = p_longitude fields
        /\ (forall e,
              snd (getWeatherByCityId axios_get cityId) = Throw e ->
              isApiCode (code e))
        /\ (forall info,
              snd (getWeatherByCityId axios_get cityId) = Ok info ->
              ci_name info = p_name fields
              /\ ci_country info = p_country fields
              /\ ci_latitude info = p_latitude fields
              /\ ci_longitude info = p_longitude fields
              /\ snd (getWeatherData axios_get (p_latitude fields)
                        (p_longitude fields)) = Ok (cw_weather info))).
Proof.
  destruct (getWeatherByCityId_cases axios_get cityId)
    as [[e [P E]]|[fields [request (P & H1 & H2 & D & E)]]].
  - left. exists e. split; [exact P|]. split; [exact E|].
    apply (parseCityId_code _ P).
  - right. exists fields, request. rewrite E, D. cbn [fst snd].
    split; [exact P|]. split; [reflexivity|].
    split; [exact H1|]. split; [exact H2|].
    destruct (axios_get request) as [data|error]; split.
    + discriminate.
    + intros info I. inversion I. cbn. repeat split.
    + intros e T. inversion T. apply weatherFailure_code.
    + discriminate.
Qed.

(** X19: the id of a city that [searchCities] builds from a geocoding
    result leads [getCityWeather] back to that city.  For a result with
    valid coordinates whose strings read back as the coordinates, and with a
    name and a country without colon, the resolver sends one request for
    the coordinates of the result, and when it is answered, the city it
    returns is the city of the search, field by field. *)
Theorem searched_city_weather
    (axios_get : WeatherRequest -> response WeatherResponse)
    (r : GeocodingResult) :
  isValidCoordinate (gr_latitude r) (gr_longitude r) = true ->
  Str.lacks ":" (gr_name r) = true ->
  Str.lacks ":" (gr_country r) = true ->
  NumStr.parseFloat (NumStr.toString (gr_latitude r)) = gr_latitude r ->
  NumStr.parseFloat (NumStr.toString (gr_longitude r)) = gr_longitude r ->
  exists request,
    fst (Resolvers.getCityWeather axios_get (id (toCity r))) = [request]
    /\ wq_latitude request = gr_latitude r
    /\ wq_longitude request = gr_longitude r
    /\ forall data,
         axios_get request = Resolved data ->
         exists weather,
           snd (Resolvers.getCityWeather axios_get (id (toCity r)))
           = Ok {| cwr_city := toCity r; cwr_weather := weather |}
           /\ snd (getWeatherData axios_get (gr_latitude r) (gr_longitude r))
              = Ok weather.
Proof.
  intros V Ln Lc Rlat Rlon.
  pose proof (toCity_decodes r V Ln Lc Rlat Rlon) as P.
  unfold Resolvers.getCityWeather.
  destruct (getWeatherByCityId_cases axios_get (id (toCity r)))
    as [[e [P' _]]|[fields [request (P' & H1 & H2 & D & E)]]];
    [congruence|].
  rewrite P in P'. inversion P'; subst fields.
  cbn [p_latitude p_longitude p_name p_country] in *.
  rewrite E, D. exists request.
  destruct (axios_get request) as [data|error]; cbn [fst snd];
    (split; [reflexivity|]); (split; [exact H1|]); (split; [exact H2|]).
  - intros data' R. exists (weatherOf data). split; reflexivity.
  - intros data' R. discriminate.
Qed.

(** X19 at London, with a forecast service that answers. *)
Lemma searched_city_weather_witness :
  exists request weather,
    fst (Resolvers.getCityWeather twoDays (id (toCity London))) = [request]
    /\ wq_latitude request = gr_latitude London
    /\ snd (Resolvers.getCityWeather twoDays (id (toCity London)))
       = Ok {| cwr_city := toCity London; cwr_weather := weather |}.
Proof.
  destruct (@searched_city_weather twoDays London)
    as [request (S & H1 & _ & W)]; try (vm_compute; reflexivity).
  destruct (W twoDaysData eq_refl) as [weather [E _]].
  exists request, weather. split; [exact S|]. split; [exact H1 | exact E].
Defined.

(** ** The resolvers *)

(** X20: when the resolver [searchCities] fails, the error names the
    geocoding service and carries the code of the adapter: BAD_USER_INPUT
    exactly when no request was sent, otherwise TIMEOUT,
    RATE_LIMIT_EXCEEDED or UNKNOWN_ERROR, and never
    INTERNAL_SERVER_ERROR. *)
Theorem search_resolver_failure
    (axios_get : GeocodingRequest -> response GeocodingResponse)
    (input : string) (g : GraphQLError) :
  snd (Resolvers.searchCities axios_get input) = Throw g ->
  g_service g = Some "OpenMeteo Geocoding API"
  /\ (g_code g = Some ERROR_CODES.USER_ERROR.BAD_USER_INPUT
      \/ isApiCode (g_code g))
  /\ (g_code g = Some ERROR_CODES.USER_ERROR.BAD_USER_INPUT
      <-> fst (Resolvers.searchCities axios_get input) = [])
  /\ g_code g <> Some ERROR_CODES.INTERNAL_ERROR.INTERNAL_SERVER_ERROR.
Proof.
  unfold Resolvers.searchCities.
  destruct (searchCities_cases axios_get input)
    as [[L E]|[L [request (_ & _ & E)]]]; rewrite E.
  - cbn [fst snd]. intros H. inversion H. cbn.
    split; [reflexivity|]. split; [left; reflexivity|].
    split; [split; reflexivity | discriminate].
  - destruct (axios_get request) as [data|error]; cbn [fst snd];
      [discriminate|].
    intros H. inversion H. cbn [Resolvers.searchCitiesCatch g_service g_code].
    pose proof (searchFailure_code error) as A.
    destruct (apiCode_not_user A) as (_ & N1 & N2).
    split; [reflexivity|]. split; [right; exact A|].
    split; [split; [intros B; contradiction | discriminate] | exact N2].
Qed.

(** X20 at the query "a", which is too short. *)
Lemma search_resolver_failure_witness :
  exists g,
    snd (Resolvers.searchCities noResults "a") = Throw g
    /\ g_service g = Some "OpenMeteo Geocoding API"
    /\ g_code g = Some ERROR_CODES.USER_ERROR.BAD_USER_INPUT.
Proof.
  eexists. split; [reflexivity|].
  destruct (@search_resolver_failure noResults "a" _ eq_refl)
    as (S & _ & [_ B] & _).
  split; [exact S | exact (B eq_refl)].
Defined.

(** X21: the city that [getCityWeather] returns has the id that was passed
    in, unchanged, and the fields that [parseCityId] reads from this id;
    its coordinates are valid, and exactly one request was sent. *)
Theorem weather_resolver_returns_given_id
    (axios_get : WeatherRequest -> response WeatherResponse)
    (cityId : string) (r : CityWeather) :
  snd (Resolvers.getCityWeather axios_get cityId) = Ok r ->
  exists fields request,
    parseCityId cityId = Ok fields
    /\ cwr_city r = cityOf cityId fields
    /\ isValidCoordinate (latitude (cwr_city r)) (longitude (cwr_city r))
       = true
    /\ fst (Resolvers.getCityWeather axios_get cityId) = [request]
    /\ snd (getWeatherData axios_get (latitude (cwr_city r))
              (longitude (cwr_city r))) = Ok (cwr_weather r).
Proof.
  unfold Resolvers.getCityWeather.
  destruct (getWeatherByCityId_cases axios_get cityId)
    as [[e [P E]]|[fields [request (P & H1 & H2 & D & E)]]]; rewrite E.
  - discriminate.
  - destruct (axios_get request) as [data|error] eqn:R; cbn [fst snd];
      [|discriminate].
    intros H. inversion H.
    cbn [cwr_city cwr_weather ci_name ci_country ci_latitude ci_longitude
         cw_weather latitude longitude].
    exists fields, request. split; [exact P|]. split; [reflexivity|].
    split; [apply (parseCityId_ok _ P)|]. split; [reflexivity|].
    rewrite D. cbn [snd]. rewrite ?R. reflexivity.
Qed.

(** X21 at the id "1,2,3:a:b": it is returned as it is, with the
    coordinates 1 and 2. *)
Lemma weather_resolver_returns_given_id_witness :
  exists r,
    snd (Resolvers.getCityWeather twoDays "1,2,3:a:b") = Ok r
    /\ id (cwr_city r) = "1,2,3:a:b"
    /\ latitude (cwr_city r) = ofZ 1
    /\ longitude (cwr_city r) = ofZ 2.
Proof.
  eexists. split; [reflexivity|].
  destruct (@weather_resolver_returns_given_id twoDays "1,2,3:a:b" _ eq_refl)
    as [fields [request (P & C & _)]].
  rewrite C.
  assert (F : Ok fields
              = Ok (E := OpenMeteoAPIError)
                  {| p_latitude := ofZ 1; p_longitude := ofZ 2;
                     p_name := "a"; p_country := "b" |})
    by (rewrite <- P; vm_compute; reflexivity).
  inversion F. repeat split.
Defined.

(** X22: when [getCityWeather] fails, the error names the weather service
    and carries the code of the adapter: INVALID_COORDINATES exactly when
    no request was sent, that is when the id was rejected, otherwise
    TIMEOUT, RATE_LIMIT_EXCEEDED or UNKNOWN_ERROR, and never
    INTERNAL_SERVER_ERROR. *)
Theorem weather_resolver_failure
    (axios_get : WeatherRequest -> response WeatherResponse)
    (cityId : string) (g : GraphQLError) :
  snd (Resolvers.getCityWeather axios_get cityId) = Throw g ->
  g_service g = Some "OpenMeteo Weather API"
  /\ (g_code g = Some ERROR_CODES.USER_ERROR.INVALID_COORDINATES
      \/ isApiCode (g_code g))
  /\ (g_code g = Some ERROR_CODES.USER_ERROR.INVALID_COORDINATES
      <-> fst (Resolvers.getCityWeather axios_get cityId) = [])
  /\ (g_code g = Some ERROR_CODES.USER_ERROR.INVALID_COORDINATES
      <-> exists e, parseCityId cityId = Throw e)
  /\ g_code g <> Some ERROR_CODES.INTERNAL_ERROR.INTERNAL_SERVER_ERROR.
Proof.
  unfold Resolvers.getCityWeather.
  destruct (getWeatherByCityId_cases axios_get cityId)
    as [[e [P E]]|[fields [request (P & H1 & H2 & D & E)]]]; rewrite E.
  - cbn [fst snd]. intros H. inversion H.
    cbn [Resolvers.getCityWeatherCatch g_service g_code].
    pose proof (parseCityId_code _ P) as C. rewrite C.
    split; [reflexivity|]. split; [left; reflexivity|].
    split; [split; reflexivity|].
    split; [split; [intros _; exists e; exact P | reflexivity] | discriminate].
  - destruct (axios_get request) as [data|error]; cbn [fst snd];
      [discriminate|].
    intros H. inversion H.
    cbn [Resolvers.getCityWeatherCatch g_service g_code].
    pose proof (weatherFailure_code error) as A.
    destruct (apiCode_not_user A) as (N0 & _ & N2).
    split; [reflexivity|]. split; [right; exact A|].
    split; [split; [intros B; contradiction | discriminate]|].
    split; [|exact N2].
    split; [intros B; contradiction|].
    intros [e P']. congruence.
Qed.

(** X22 at the id "invalid-format". *)
Lemma weather_resolver_failure_witness :
  exists g,
    snd (Resolvers.getCityWeather twoDays "invalid-format") = Throw g
    /\ g_service g = Some "OpenMeteo Weather API"
    /\ g_code g = Some ERROR_CODES.USER_ERROR.INVALID_COORDINATES
    /\ fst (Resolvers.getCityWeather twoDays "invalid-format") = [].
Proof.
  eexists. split; [reflexivity|].
  destruct (@weather_resolver_failure twoDays "invalid-format" _ eq_refl)
    as (S & _ & [_ B] & _).
  split; [exact S|]. split; [exact (B eq_refl) | reflexivity].
Defined.
